(** * skoot.preprocessing.binning: a shallow embedding

    The development follows [skoot/preprocessing/binning.py]: the numeric
    values numpy compares, the exceptions Python raises, the [_Bins]
    class (boundary storage and the backward decrement scan of [assign]),
    the two boundary strategies and the [BinningTransformer] estimator
    ([fit] and [transform] over a pandas frame). *)

From Stdlib Require Import String Ascii DecimalString.
From Stdlib Require Import ZArith QArith Bool List Lia Sorted.
Import ListNotations.

Local Open Scope string_scope.
Local Open Scope list_scope.
Local Open Scope Z_scope.

(** ** Numeric values

    The numbers are those of float64 and int64 arrays, the dtypes pandas
    gives a numeric column.  A numpy float64 is a NaN, an infinity or a
    finite number; an int64 is a finite number.  Every finite value is a
    rational, so finite values are carried by [Q].  Two values of one dtype, two float64 or two int64,
    are compared exactly, and [num_ge] is that comparison.  Between an
    int64 and a float64 numpy first converts the int64 to float64
    ([float64_of_int64] below), which moves an integer beyond 2^53 to a
    neighbour; on the values float64 holds exactly ([float64_exact]) the
    conversion changes nothing and [num_ge] is again what numpy computes,
    whatever the two dtypes.  Comparisons with NaN are false, as in
    IEEE 754.  The sign of a zero, which no comparison sees, is not
    kept. *)

Inductive num : Type :=
| NaN
| NInf
| Fin (q : Q)
| PInf.

(** [x >= y] as numpy evaluates it on two values of one dtype. *)
Definition num_ge (x y : num) : bool :=
  match x, y with
  | NaN, _ => false
  | _, NaN => false
  | _, NInf => true
  | PInf, _ => true
  | NInf, _ => false
  | Fin _, PInf => false
  | Fin a, Fin b => Qle_bool b a
  end.

Definition num_le (x y : num) : bool := num_ge y x.

(** [x < y]: both comparable and not [x >= y]. *)
Definition num_lt (x y : num) : bool := num_ge y x && negb (num_ge x y).

(** [x != y], numpy's elementwise inequality ([NaN != NaN] holds). *)
Definition num_ne (x y : num) : bool := negb (num_ge x y && num_ge y x).

Definition is_nan (x : num) : bool :=
  match x with NaN => true | _ => false end.

(** [np.isfinite]. *)
Definition is_finite (x : num) : bool :=
  match x with Fin _ => true | _ => false end.

Definition of_Z (z : Z) : num := Fin (inject_Z z).

(** ** ["%.2f" % x]

    Python prints the exact value of the number rounded to two decimals,
    ties to even, with ["nan"], ["inf"] and ["-inf"] for the specials. *)

Definition round_half_even (a : Z) (b : positive) : Z :=
  let fl := a / Z.pos b in
  match (2 * (a mod Z.pos b)) ?= Z.pos b with
  | Lt => fl
  | Gt => fl + 1
  | Eq => if Z.even fl then fl else fl + 1
  end.

Definition digits (n : Z) : string := NilZero.string_of_uint (N.to_uint (Z.to_N n)).

Definition two_digits (n : Z) : string :=
  if (n <? 10)%Z then "0" ++ digits n else digits n.

Definition fmt2 (x : num) : string :=
  match x with
  | NaN => "nan"
  | PInf => "inf"
  | NInf => "-inf"
  | Fin q =>
      let cents := round_half_even (Z.abs (Qnum q) * 100) (Qden q) in
      (if (Qnum q <? 0)%Z then "-" else "") ++
      digits (cents / 100) ++ "." ++ two_digits (cents mod 100)
  end.

(** ** int64 and float64

    A float64 is [m * 2^e] with [|m| < 2^53] and [-1074 <= e <= 971].
    [float64_exact x] says that float64 holds the number [x]: every
    float64 does, and so does every integer up to 2^53 in magnitude. *)

Definition float64_exact (x : num) : bool :=
  match x with
  | Fin q =>
      let a := Z.abs (Qnum q) * 2 ^ 1074 in
      let d := Z.pos (Qden q) in
      (a mod d =? 0) &&
      (let m := a / d in
       (m <? 2 ^ 2098) &&
       (let k := Z.log2 m - 52 in (k <=? 0) || (m mod 2 ^ k =? 0)))
  | _ => true
  end.

(** The float64 an int64 is converted to: the integer itself while 53
    bits hold it, else the nearest multiple of [2^k], ties to the even
    one, where [k] is the number of bits in excess. *)
Definition float64_of_int64 (z : Z) : num :=
  let a := Z.abs z in
  let k := Z.log2 a - 52 in
  if k <=? 0 then of_Z z
  else of_Z (Z.sgn z * (round_half_even a (Z.to_pos (2 ^ k)) * 2 ^ k)).

(** ** Exceptions and the error monad *)

Inductive exc : Type :=
| IndexError (msg : string)
| KeyError (key : string)
| TypeError (msg : string)
| ValueError (msg : string)
| AttributeError (attr : string)
| NotFittedError (msg : string)
| ValidationError (msg : string)
| MissingColumnError (col : string).

Definition result (A : Type) : Type := (exc + A)%type.

Definition ret {A} (a : A) : result A := inr a.
Definition raise {A} (e : exc) : result A := inl e.
Definition bind {A B} (m : result A) (k : A -> result B) : result B :=
  match m with
  | inl e => inl e
  | inr a => k a
  end.

Declare Scope err_scope.
Delimit Scope err_scope with err.
Notation "x <- m ;; k" := (bind m (fun x => k))
  (at level 61, m at next level, right associativity) : err_scope.
Notation "' p <- m ;; k" := (bind m (fun x => match x with p => k end))
  (at level 61, p pattern, m at next level, right associativity) : err_scope.

Fixpoint mapM {A B} (f : A -> result B) (l : list A) : result (list B) :=
  match l with
  | [] => ret []
  | a :: l' => (b <- f a ;; bs <- mapM f l' ;; ret (b :: bs))%err
  end.

(** ** Python sequences *)

(** [l[i]] for a Python list or a one-dimensional array: negative indices
    count from the end, anything else out of range raises. *)
Definition getitem {A} (l : list A) (i : Z) : result A :=
  let n := Z.of_nat (length l) in
  let j := if i <? 0 then i + n else i in
  if (0 <=? j) && (j <? n) then
    match nth_error l (Z.to_nat j) with
    | Some a => ret a
    | None => raise (IndexError "index out of range")
    end
  else raise (IndexError "index out of range").

(** [enumerate]. *)
Definition enumerate {A} (l : list A) : list (nat * A) :=
  combine (seq 0 (length l)) l.

(** ** The arrays a frame column holds

    A column's [values] is an array of numbers or, once labels have been
    written to it, an array of strings.  The numbers of a [NumArr] meet
    the bounds of a [_Bins] through [num_ge]: the array has the dtype of
    the bounds, or both hold numbers float64 holds exactly.  An int64
    array with larger integers meets float64 bounds as [astype_float64]
    below. *)

Inductive ndarray : Type :=
| NumArr (l : list num)
| StrArr (l : list string).

Definition shape0 (a : ndarray) : nat :=
  match a with
  | NumArr l => length l
  | StrArr l => length l
  end.

(** An int64 array as a comparison with a float64 sees it:
    [v >= boundary] converts [v] to float64 first. *)
Definition astype_float64 (l : list Z) : ndarray :=
  NumArr (map float64_of_int64 l).

(** ** [_Bins] *)

Module _Bins.

Record t : Type := mk {
  n_bins : nat;
  upper_bounds : list num;
  lower_bounds : list num;
  reprs : list string
}.

(** One turn of the [for i, (this_chunk, next_chunk)] loop of the
    constructor; the three lists grow by [append]. *)
Definition init_step (i : nat) (this_chunk next_chunk : list num)
    (acc : list num * list num * list string)
  : result (list num * list num * list string) :=
  let '(upper_bounds, lower_bounds, reprs) := acc in
  (upper_bound <- getitem next_chunk 0 ;;
   ' (lower_bound, rep) <-
       (if Nat.eqb i 0 then
          ret (NInf, ("(-Inf, " ++ fmt2 upper_bound ++ "]")%string)
        else
          (lower_bound <- getitem this_chunk 0 ;;
           ret (lower_bound,
                ("(" ++ fmt2 lower_bound ++ ", " ++ fmt2 upper_bound ++ "]")%string))) ;;
   ret (upper_bounds ++ [upper_bound],
        lower_bounds ++ [lower_bound],
        reprs ++ [rep]))%err.

Fixpoint init_loop (pairs : list (nat * (list num * list num)))
    (acc : list num * list num * list string)
  : result (list num * list num * list string) :=
  match pairs with
  | [] => ret acc
  | (i, (this_chunk, next_chunk)) :: rest =>
      (acc' <- init_step i this_chunk next_chunk acc ;; init_loop rest acc')%err
  end.

(** [_Bins.__init__(self, chunks)]. *)
Definition __init__ (chunks : list (list num)) : result t :=
  let n_bins := length chunks in
  (' (upper_bounds, lower_bounds, reprs) <-
       init_loop (enumerate (combine (removelast chunks) (tl chunks)))
                 ([], [], []) ;;
   last_chunk <- getitem chunks (-1) ;;
   last_lower <- getitem last_chunk 0 ;;
   let lower_bounds := lower_bounds ++ [last_lower] in
   let upper_bounds := upper_bounds ++ [PInf] in
   last_lb <- getitem lower_bounds (-1) ;;
   let reprs := reprs ++ [("(" ++ fmt2 last_lb ++ ", Inf]")%string] in
   ret (mk n_bins upper_bounds lower_bounds reprs))%err.

(** [bins[anti_mask] -= 1]. *)
Definition decrement (anti_mask : list bool) (bins : list Z) : list Z :=
  map (fun mb : bool * Z => if fst mb then snd mb - 1 else snd mb)
      (combine anti_mask bins).

(** One turn of the [for boundary in self.lower_bounds[::-1]] loop. *)
Definition scan_step (v : list num) (bins : list Z) (boundary : num) : list Z :=
  let mask := map (fun x => num_ge x boundary) v in
  let anti_mask := map negb mask in
  if (0 <? length anti_mask)%nat then decrement anti_mask bins else bins.

(** The bin levels [assign] computes before it looks at [as_str]. *)
Definition levels (self : t) (v : list num) : list Z :=
  let bins := repeat (Z.of_nat (n_bins self) - 1) (length v) in
  fold_left (scan_step v) (rev (lower_bounds self)) bins.

(** The tail of [assign]: labels through [self.reprs], or the levels.
    [np.array] of an empty list is an empty array of floats. *)
Definition finish (self : t) (bins : list Z) (as_str : bool) : result ndarray :=
  if as_str then
    (labels <- mapM (getitem (reprs self)) bins ;;
     ret (match labels with [] => NumArr [] | _ :: _ => StrArr labels end))%err
  else ret (NumArr (map of_Z bins)).

(** [_Bins.assign(self, v, as_str)].  A string cannot be compared with a
    boundary: on an array of strings the first comparison raises. *)
Definition assign (self : t) (v : ndarray) (as_str : bool) : result ndarray :=
  match v with
  | NumArr v => finish self (levels self v) as_str
  | StrArr l =>
      match l, lower_bounds self with
      | _ :: _, _ :: _ =>
          raise (TypeError "'>=' not supported between instances of 'str' and 'float'")
      | _, _ => finish self (repeat (Z.of_nat (n_bins self) - 1) (length l)) as_str
      end
  end.

End _Bins.

(** ** Python dictionaries and frame columns

    A dictionary keeps its keys in insertion order; writing to a key that
    is present replaces the value where it stands, writing to a new key
    appends.  The columns of a frame behave the same way. *)

Section Dict.
Context {V : Type}.

Definition dict : Type := list (string * V).

Fixpoint dict_get (d : dict) (k : string) : option V :=
  match d with
  | [] => None
  | (k', v) :: d' => if String.eqb k k' then Some v else dict_get d' k
  end.

Fixpoint dict_set (d : dict) (k : string) (v : V) : dict :=
  match d with
  | [] => [(k, v)]
  | (k', v') :: d' =>
      if String.eqb k k' then (k, v) :: d' else (k', v') :: dict_set d' k v
  end.

Definition keys (d : dict) : list string := map fst d.

Definition has_key (d : dict) (k : string) : bool :=
  match dict_get d k with Some _ => true | None => false end.

(** [d[k]]. *)
Definition dict_item (d : dict) (k : string) : result V :=
  match dict_get d k with
  | Some v => ret v
  | None => raise (KeyError k)
  end.

(** [dict(pairs)]. *)
Definition dict_of (pairs : list (string * V)) : dict :=
  fold_left (fun d kv => dict_set d (fst kv) (snd kv)) pairs [].

End Dict.
Arguments dict V : clear implicits.

(** ** numpy helpers *)

(** The order [np.sort] puts values in: NaN goes last. *)
Definition sort_le (x y : num) : bool := is_nan y || num_le x y.

Fixpoint insert_sorted (x : num) (l : list num) : list num :=
  match l with
  | [] => [x]
  | y :: l' => if sort_le x y then x :: l else y :: insert_sorted x l'
  end.

Definition np_sort (l : list num) : list num := fold_right insert_sorted [] l.

(** Runs of equal neighbours of a sorted array, each with its length:
    a run starts wherever [aux[1:] != aux[:-1]]. *)
Fixpoint runs (l : list num) : list (num * Z) :=
  match l with
  | [] => []
  | x :: l' =>
      let r := runs l' in
      match hd_error l', r with
      | Some y, (_, c) :: g =>
          if num_ne y x then (x, 1) :: r else (x, c + 1) :: g
      | _, _ => [(x, 1)]
      end
  end.

(** [np.unique(x, return_counts=True)]. *)
Definition np_unique (x : list num) : list num * list Z :=
  let r := runs (np_sort x) in (map fst r, map snd r).

(** ** Collaborators that are not part of this module *)

(** Modelled from the spec: [chunk] of [skoot.utils.iterables], which is
    imported but defined elsewhere.  The spec gives it as a near-equal
    partition into [n] contiguous groups, earlier groups larger when the
    length is not a multiple of [n]; the comment in [_uniform] shows
    [chunk(np.arange(10), 4)] as [[0,1,2],[3,4,5],[6,7],[8,9]].
    [chunk_from l k m n] cuts [n] groups of size [k], the first [m] of
    them one longer. *)
Fixpoint chunk_from {A} (l : list A) (k m n : nat) : list (list A) :=
  match n with
  | O => []
  | S n' =>
      let size := match m with O => k | S _ => S k end in
      firstn size l :: chunk_from (skipn size l) k (Nat.pred m) n'
  end.

Definition chunk {A} (l : list A) (n : nat) : list (list A) :=
  chunk_from l (length l / n) (length l mod n) n.

(** ** Boundary strategies *)

Definition _validate_n_bins (x : list num) (n : Z) : result (list num * list Z) :=
  let '(unique, cts) := np_unique x in
  if Z.of_nat (length unique) <? n then
    raise (ValueError "Fewer unique values than bins!")
  else ret (unique, cts).

Definition _uniform (x : list num) (n : Z) : result _Bins.t :=
  (' (unique, _) <- _validate_n_bins x n ;;
   let chunks := chunk unique (Z.to_nat n) in
   _Bins.__init__ chunks)%err.

Section Entropy.

(** The compiled routine [entropy_bin_bounds] of [._binning] is taken as
    given: from the sample, its distinct values and their counts it
    yields the value groups, or raises. *)
Variable entropy_bin_bounds :
  list num -> list num -> list Z -> result (list (list num)).

Definition _entropy (x : list num) (n : Z) : result _Bins.t :=
  (' (unique, cts) <- _validate_n_bins x n ;;
   chunks <- entropy_bin_bounds x unique cts ;;
   _Bins.__init__ chunks)%err.

Definition _STRATEGIES : dict (list num -> Z -> result _Bins.t) :=
  [("entropy"%string, _entropy); ("uniform"%string, _uniform)].

End Entropy.

(** ** Frames

    A pandas frame: an index of [nrows] rows and named columns in order.
    [X[c] = a] overwrites the column [c] where it stands or appends a new
    column on the right. *)

Record frame : Type := mk_frame {
  nrows : nat;
  columns : dict ndarray
}.

(** [X[c].values]. *)
Definition getcol (X : frame) (c : string) : result ndarray :=
  dict_item (columns X) c.

(** [X[c] = a]. *)
Definition setcol (X : frame) (c : string) (a : ndarray) : frame :=
  mk_frame (nrows X) (dict_set (columns X) c a).

Inductive cell : Type :=
| CNum (x : num)
| CStr (s : string).

Definition cell_at (a : ndarray) (i : nat) : cell :=
  match a with
  | NumArr l => CNum (nth i l NaN)
  | StrArr l => CStr (nth i l "")
  end.

(** [X.values]: the rows of the frame. *)
Definition values (X : frame) : list (list cell) :=
  map (fun i => map (fun c => cell_at (snd c) i) (columns X)) (seq 0 (nrows X)).

(** Every column has one entry per row of the index. *)
Definition wf_frame (X : frame) : Prop :=
  Forall (fun c => shape0 (snd c) = nrows X) (columns X).

Definition all_finite (a : ndarray) : bool :=
  match a with
  | NumArr l => forallb is_finite l
  | StrArr _ => false
  end.

(** Modelled from the spec: [check_dataframe] of [skoot.utils.validation]
    (the spec's [validate_table]), which is imported but defined
    elsewhere.  It hands back a copy of the table and the ordered column
    names ([cols], or all the columns when [cols] is None), and fails with
    a validation error on values that are not finite when that is asked
    for.  The table keeps the columns that are not selected, as the
    docstring of [BinningTransformer] shows. *)
Definition check_dataframe (X : frame) (cols : option (list string))
    (assert_all_finite : bool) : result (frame * list string) :=
  let cols := match cols with
              | None => keys (columns X)
              | Some cols => cols
              end in
  let finite c := match dict_get (columns X) c with
                  | Some a => all_finite a
                  | None => true
                  end in
  if assert_all_finite && negb (forallb finite cols) then
    raise (ValidationError "Input contains NaN, infinity or a value that is not numeric")
  else ret (X, cols).

(** Modelled from the spec: [validate_test_set_columns] of
    [skoot.utils.validation] (the spec's [validate_columns_present]),
    imported but defined elsewhere: it fails with a missing-column error
    if a required column is absent from the available ones. *)
Fixpoint validate_test_set_columns (required available : list string)
  : result unit :=
  match required with
  | [] => ret tt
  | c :: rest =>
      if existsb (String.eqb c) available
      then validate_test_set_columns rest available
      else raise (MissingColumnError c)
  end.

(** ** [BinningTransformer] *)

Module BinningTransformer.

(** What [n_bins] may hold: an int, a sequence, a dict, or something that
    is neither iterable nor an int.  An entry of a sequence or dict is an
    int or some other object. *)
Inductive n_bin_value : Type :=
| VInt (z : Z)
| VOther.

Inductive n_bins_arg : Type :=
| NInt (z : Z)
| NSeq (l : list n_bin_value)
| NDict (d : dict n_bin_value)
| NOther.

(** Modelled from the spec: [is_iterable] of [skoot.utils.iterables],
    imported but defined elsewhere. *)
Definition is_iterable (n : n_bins_arg) : bool :=
  match n with
  | NSeq _ | NDict _ => true
  | NInt _ | NOther => false
  end.

(** The attributes of the estimator.  [bins_] and [fit_cols_] do not
    exist until [fit] sets them. *)
Record t : Type := mk {
  cols : option (list string);
  as_df : bool;
  n_bins : n_bins_arg;
  strategy : string;
  return_bin_label : bool;
  overwrite : bool;
  bins_ : option (dict _Bins.t);
  fit_cols_ : option (list string)
}.

Definition __init__ (cols : option (list string)) (as_df : bool)
    (n_bins : n_bins_arg) (strategy : string)
    (return_bin_label overwrite : bool) : t :=
  mk cols as_df n_bins strategy return_bin_label overwrite None None.

(** A method runs on the estimator and may raise: the state it leaves is
    the estimator with whatever attributes were set before the raise. *)
Definition M (A : Type) : Type := t -> result A * t.

Definition mret {A} (a : A) : M A := fun self => (inr a, self).
Definition mbind {A B} (m : M A) (k : A -> M B) : M B :=
  fun self =>
    match m self with
    | (inl e, self') => (inl e, self')
    | (inr a, self') => k a self'
    end.
Definition lift {A} (r : result A) : M A := fun self => (r, self).
Definition getattr {A} (f : t -> A) : M A := fun self => (inr (f self), self).
Definition set_bins_ (b : dict _Bins.t) : M unit :=
  fun self =>
    (inr tt,
     mk (cols self) (as_df self) (n_bins self) (strategy self)
        (return_bin_label self) (overwrite self) (Some b) (fit_cols_ self)).
Definition set_fit_cols_ (c : list string) : M unit :=
  fun self =>
    (inr tt,
     mk (cols self) (as_df self) (n_bins self) (strategy self)
        (return_bin_label self) (overwrite self) (bins_ self) (Some c)).

Declare Scope method_scope.
Delimit Scope method_scope with method.
Notation "x <- m ;; k" := (mbind m (fun x => k))
  (at level 61, m at next level, right associativity) : method_scope.
Notation "' p <- m ;; k" := (mbind m (fun x => match x with p => k end))
  (at level 61, p pattern, m at next level, right associativity) : method_scope.
Notation "m ;;; k" := (mbind m (fun _ => k))
  (at level 61, right associativity) : method_scope.

(** [n_bins] brought to a dictionary from column to entry: the first half
    of the validation in [fit]. *)
Definition n_bins_dict (n_bins : n_bins_arg) (cols : list string)
  : result (dict n_bin_value) :=
  if is_iterable n_bins then
    match n_bins with
    | NDict d =>
        if negb (Nat.eqb (length d) (length cols)) then
          raise (ValueError "dim mismatch between cols and n_bin")
        else
          let scols_minus_skeys :=
            filter (fun c => negb (existsb (String.eqb c) (keys d))) cols in
          let skeys_minus_scols :=
            filter (fun k => negb (existsb (String.eqb k) cols)) (keys d) in
          match scols_minus_skeys, skeys_minus_scols with
          | [], [] => ret d
          | _, _ =>
              raise (ValueError "When n_bins is provided as a dictionary its keys must match the provided cols.")
          end
    | NSeq l =>
        if negb (Nat.eqb (length l) (length cols)) then
          raise (ValueError "dim mismatch between cols and n_bin")
        else ret (dict_of (combine cols l))
    | _ => raise (TypeError "object has no len()")
    end
  else
    match n_bins with
    | NInt z => ret (dict_of (map (fun c => (c, VInt z)) cols))
    | _ => raise (TypeError "n_bins must be an iterable or an int")
    end.

(** [for _, v in six.iteritems(n_bins)]: every entry an int above one. *)
Fixpoint check_n_bins (items : list (string * n_bin_value))
  : result (dict Z) :=
  match items with
  | [] => ret []
  | (c, v) :: rest =>
      match v with
      | VInt z =>
          if 1 <? z then (d <- check_n_bins rest ;; ret ((c, z) :: d))%err
          else raise (ValueError "Each n_bin value must be an integer > 1")
      | VOther => raise (ValueError "Each n_bin value must be an integer > 1")
      end
  end.

(** A string between single quotes, and between double quotes. *)
Definition quoted (s : string) : string := ("'" ++ s ++ "'")%string.
Definition dquoted (s : string) : string :=
  let q := String (ascii_of_nat 34) EmptyString in (q ++ s ++ q)%string.

(** [%r] of a [str]: Python's [repr].  The quotes are single, unless the
    string holds a single quote and no double quote.  The quote in use
    and the backslash get a backslash in front; tab, newline and carriage
    return are written with their letter; any other byte outside the
    printable ASCII range is written in hexadecimal, as Python does for
    the control characters (what it prints for a byte beyond ASCII
    depends on the version of Python). *)
Definition backslash : ascii := ascii_of_nat 92.
Definition squote : ascii := ascii_of_nat 39.
Definition dquote : ascii := ascii_of_nat 34.

Definition hex_digit (n : nat) : ascii :=
  nth n ["0"; "1"; "2"; "3"; "4"; "5"; "6"; "7"; "8"; "9";
         "a"; "b"; "c"; "d"; "e"; "f"]%char "0"%char.

Definition repr_char (quote c : ascii) : string :=
  let n := nat_of_ascii c in
  if Ascii.eqb c quote || Ascii.eqb c backslash then
    String backslash (String c EmptyString)
  else if (n =? 9)%nat then String backslash "t"
  else if (n =? 10)%nat then String backslash "n"
  else if (n =? 13)%nat then String backslash "r"
  else if (n <? 32)%nat || (126 <? n)%nat then
    String backslash
      (String "x" (String (hex_digit (n / 16)) (String (hex_digit (n mod 16)) EmptyString)))
  else String c EmptyString.

Fixpoint repr_chars (quote : ascii) (s : string) : string :=
  match s with
  | EmptyString => EmptyString
  | String c s' => (repr_char quote c ++ repr_chars quote s')%string
  end.

Fixpoint holds (c : ascii) (s : string) : bool :=
  match s with
  | EmptyString => false
  | String c' s' => Ascii.eqb c c' || holds c s'
  end.

Definition repr (s : string) : string :=
  let quote := if holds squote s && negb (holds dquote s) then dquote else squote in
  String quote (repr_chars quote s ++ String quote EmptyString).

(** [for c, n in six.iteritems(n_bins): bins[c] = binner(X[c].values, n)]. *)
Fixpoint compute_bins (binner : list num -> Z -> result _Bins.t) (X : frame)
    (items : list (string * Z)) (bins : dict _Bins.t) : result (dict _Bins.t) :=
  match items with
  | [] => ret bins
  | (c, n) :: rest =>
      (v <- getcol X c ;;
       b <- match v with
            | NumArr x => binner x n
            | StrArr _ => raise (TypeError "must be real number, not str")
            end ;;
       compute_bins binner X rest (dict_set bins c b))%err
  end.

Section Fit.

Variable entropy_bin_bounds :
  list num -> list num -> list Z -> result (list (list num)).

(** [BinningTransformer.fit(self, X)]. *)
Definition fit (X : frame) : M unit :=
  (self_cols <- getattr cols ;;
   ' (X, cols) <- lift (check_dataframe X self_cols true) ;;
   n_bins <- getattr n_bins ;;
   n_bins <- lift (n_bins_dict n_bins cols) ;;
   n_bins <- lift (check_n_bins n_bins) ;;
   strategy <- getattr strategy ;;
   binner <- lift (match dict_get (_STRATEGIES entropy_bin_bounds) strategy with
                   | Some binner => ret binner
                   | None =>
                       raise (ValueError
                                ("strategy must be one of "
                                 ++ repr "['entropy', 'uniform']"
                                 ++ ", but got " ++ repr strategy))
                   end) ;;
   bins <- lift (compute_bins binner X n_bins []) ;;
   set_bins_ bins ;;;
   set_fit_cols_ cols ;;;
   mret tt)%method.

End Fit.

(** What [transform] hands back: the frame, or its [values] when [as_df]
    is off. *)
Inductive output : Type :=
| DataFrame (X : frame)
| Values (rows : list (list cell)).

(** [sklearn.utils.validation.check_is_fitted(self, 'bins_')]. *)
Definition check_is_fitted (self : t) : result unit :=
  match bins_ self with
  | Some _ => ret tt
  | None =>
      raise (NotFittedError "This BinningTransformer instance is not fitted yet.")
  end.

(** The body of [for col in cols] in [transform]. *)
Definition transform_col (self : t) (bins : dict _Bins.t) (X : frame)
    (col : string) : result frame :=
  (bin_ <- dict_item bins col ;;
   v <- getcol X col ;;
   binned <- _Bins.assign bin_ v (return_bin_label self) ;;
   if overwrite self then ret (setcol X col binned)
   else ret (setcol X (col ++ "_binned")%string binned))%err.

Fixpoint transform_loop (self : t) (bins : dict _Bins.t) (cols : list string)
    (X : frame) : result frame :=
  match cols with
  | [] => ret X
  | col :: rest =>
      (X' <- transform_col self bins X col ;; transform_loop self bins rest X')%err
  end.

(** [BinningTransformer.transform(self, X)].  [check_dataframe] is called
    without [assert_all_finite]. *)
Definition transform (self : t) (X : frame) : result output :=
  (_ <- check_is_fitted self ;;
   ' (X, _) <- check_dataframe X (cols self) false ;;
   cols <- match fit_cols_ self with
           | Some cols => ret cols
           | None => raise (AttributeError "fit_cols_")
           end ;;
   _ <- validate_test_set_columns cols (keys (columns X)) ;;
   bins <- match bins_ self with
           | Some bins => ret bins
           | None => raise (AttributeError "bins_")
           end ;;
   X <- transform_loop self bins cols X ;;
   ret (if as_df self then DataFrame X else Values (values X)))%err.

End BinningTransformer.

(** * Vocabulary of the properties *)

Import BinningTransformer.

(** ** The order on values, the scan element by element *)

Definition le (x y : num) : Prop := num_le x y = true.

Definition lt (x y : num) : Prop := num_lt x y = true.

Definition non_decreasing (l : list num) : Prop := Sorted le l.

Definition increasing (l : list num) : Prop := Sorted lt l.

(** What the loop of [assign] does to the level of one element. *)
Definition step1 (x : num) (b : Z) (boundary : num) : Z :=
  if num_ge x boundary then b else b - 1.

(** The number of boundaries an element is not [>=] to. *)
Definition misses (x : num) (lbs : list num) : nat :=
  length (filter (fun boundary => negb (num_ge x boundary)) lbs).

(** The level [assign] gives one element. *)
Definition level (self : _Bins.t) (x : num) : Z :=
  Z.of_nat (_Bins.n_bins self) - 1 - Z.of_nat (misses x (_Bins.lower_bounds self)).

(** In the spec's words: [i] is the largest index such that
    [x >= lower_bounds[i]]. *)
Definition largest_index_ge (lbs : list num) (x : num) (i : nat) : Prop :=
  (exists b, nth_error lbs i = Some b /\ num_ge x b = true) /\
  (forall j b, (i < j)%nat -> nth_error lbs j = Some b -> num_ge x b = false).

(** ** Chunks and what the constructor builds from them *)

(** The first element of every chunk: [c[0] for c in chunks]. *)
Definition first_elems (cs : list (list num)) : result (list num) :=
  mapM (fun c => getitem c 0) cs.

(** Neighbouring pairs: [zip(chunks[:-1], chunks[1:])]. *)
Definition consec (cs : list (list num)) : list (list num * list num) :=
  combine (removelast cs) (tl cs).

(** The labels of the middle bins, from the first elements. *)
Fixpoint mid_reprs (h : num) (hs : list num) : list string :=
  match hs with
  | [] => []
  | h' :: hs' =>
      ("(" ++ fmt2 h ++ ", " ++ fmt2 h' ++ "]")%string :: mid_reprs h' hs'
  end.

(** All the labels, from the first elements of the chunks after the
    first. *)
Definition reprs_of (hs : list num) : list string :=
  match hs with
  | [] => []
  | h1 :: hs' =>
      ("(-Inf, " ++ fmt2 h1 ++ "]")%string
        :: mid_reprs h1 hs' ++ [("(" ++ fmt2 (last hs NaN) ++ ", Inf]")%string]
  end.

Definition nonempty_chunks (chunks : list (list num)) : Prop :=
  Forall (fun c => c <> []) chunks.

(** The chunks hold ascending values, chunk after chunk. *)
Definition ascending (chunks : list (list num)) : Prop :=
  non_decreasing (concat chunks).

(** The chunks hold distinct ascending values, as [np.unique] cuts them. *)
Definition strictly_ascending (chunks : list (list num)) : Prop :=
  increasing (concat chunks).

(** The invariant of a [_Bins] object built from [chunks]. *)
Definition bins_invariant (chunks : list (list num)) (b : _Bins.t) : Prop :=
  length (_Bins.upper_bounds b) = length (_Bins.lower_bounds b) /\
  length (_Bins.lower_bounds b) = length (_Bins.reprs b) /\
  length (_Bins.reprs b) = _Bins.n_bins b /\
  _Bins.n_bins b = length chunks /\
  non_decreasing (_Bins.lower_bounds b) /\
  non_decreasing (_Bins.upper_bounds b) /\
  hd_error (_Bins.lower_bounds b) = Some NInf /\
  last (_Bins.upper_bounds b) NaN = PInf.

(** A [_Bins] object is what the constructor builds; a fitted one comes
    out of [fit], which asks for two bins or more. *)
Definition is_Bins (b : _Bins.t) : Prop :=
  exists chunks, _Bins.__init__ chunks = inr b.

Definition fitted_Bins (b : _Bins.t) : Prop :=
  exists chunks, (2 <= length chunks)%nat /\ _Bins.__init__ chunks = inr b.

(** ** The state of the estimator *)

(** The estimator with its FitState replaced. *)
Definition with_fit_state (self : t) (bins : dict _Bins.t) (fcols : list string) : t :=
  mk (cols self) (as_df self) (n_bins self) (strategy self)
     (return_bin_label self) (overwrite self) (Some bins) (Some fcols).

(** The estimator as it was constructed, before any [fit]. *)
Definition unfitted (self : t) : t :=
  __init__ (cols self) (as_df self) (n_bins self) (strategy self)
           (return_bin_label self) (overwrite self).

Section FitVocabulary.

Variable entropy_bin_bounds :
  list num -> list num -> list Z -> result (list (list num)).

(** What [fit] computes before it touches the estimator: the bins and
    the columns, from the configuration and the table alone. *)
Definition fit_state (self : t) (X : frame) : result (dict _Bins.t * list string) :=
  (' (X, cols) <- check_dataframe X (cols self) true ;;
   d <- n_bins_dict (n_bins self) cols ;;
   items <- check_n_bins d ;;
   binner <- match dict_get (_STRATEGIES entropy_bin_bounds) (strategy self) with
             | Some binner => ret binner
             | None =>
                 raise (ValueError
                          ("strategy must be one of "
                           ++ repr "['entropy', 'uniform']"
                           ++ ", but got " ++ repr (strategy self)))
             end ;;
   bins <- compute_bins binner X items [] ;;
   ret (bins, cols))%err.

(** An estimator on which [fit] has never succeeded: fresh from the
    constructor, or after calls of [fit] that raised. *)
Inductive never_fitted : t -> Prop :=
| never_fitted_init cols as_df n_bins strategy return_bin_label overwrite :
    never_fitted (__init__ cols as_df n_bins strategy return_bin_label overwrite)
| never_fitted_raise self X e self' :
    never_fitted self -> fit entropy_bin_bounds X self = (inl e, self') -> never_fitted self'.

(** An estimator right after a [fit] that succeeded; calls that raise and
    calls of [transform] leave it as it is. *)
Definition fitted (self : t) : Prop :=
  exists X0 self0, fit entropy_bin_bounds X0 self0 = (inr tt, self).

End FitVocabulary.

(** The number of distinct values of a sample, as [np.unique] counts. *)
Definition distinct (x : list num) : Z := Z.of_nat (length (fst (np_unique x))).

Definition fewer_unique : exc := ValueError "Fewer unique values than bins!".

(** What [fit] is asked for: the bin count of every column, once the
    table and [n_bins] have passed validation. *)
Definition requested (self : t) (X : frame) : result (dict Z) :=
  (' (_, cols) <- check_dataframe X (cols self) true ;;
   d <- n_bins_dict (n_bins self) cols ;;
   check_n_bins d)%err.

(** The message of an error names a column when the name occurs in it. *)
Definition mentions (msg col : string) : bool :=
  match index 0 col msg with
  | Some _ => true
  | None => false
  end.

(** ** [transform] with [overwrite] off *)

Definition binned_name (c : string) : string := (c ++ "_binned")%string.

(** The column [transform] writes the bins of [c] to. *)
Definition target (self : t) (c : string) : string :=
  if overwrite self then c else binned_name c.

Section AppendVocabulary.

Variables (self : t) (bins : dict _Bins.t) (fcols : list string) (X : frame).

(** The bins of a fit column, from the table as it came in. *)
Definition expected (c : string) : result ndarray :=
  (b <- dict_item bins c ;;
   v <- getcol X c ;;
   _Bins.assign b v (return_bin_label self))%err.

(** What holds of the table after the columns [done] have been binned. *)
Definition appended (done : list string) (Xk : frame) : Prop :=
  nrows Xk = nrows X /\
  wf_frame Xk /\
  (forall k, (forall c, In c fcols -> k <> binned_name c) ->
             dict_get (columns Xk) k = dict_get (columns X) k) /\
  (forall c, In c done ->
             exists binned, expected c = inr binned /\
                            shape0 binned = nrows X /\
                            dict_get (columns Xk) (binned_name c) = Some binned).

End AppendVocabulary.

(** ** Examples *)

(** The running example: the chunks of [np.arange(10)] cut in four. *)
Definition chunks_0_9 : list (list num) :=
  [[of_Z 0; of_Z 1; of_Z 2]; [of_Z 3; of_Z 4; of_Z 5]; [of_Z 6; of_Z 7];
   [of_Z 8; of_Z 9]].

Definition bins_0_9 : _Bins.t :=
  _Bins.mk 4 [of_Z 3; of_Z 6; of_Z 8; PInf] [NInf; of_Z 3; of_Z 6; of_Z 8]
           ["(-Inf, 3.00]"; "(3.00, 6.00]"; "(6.00, 8.00]"; "(8.00, Inf]"]%string.

Definition sample_0_9 : list num :=
  map of_Z [0; 1; 2; 3; 4; 5; 6; 7; 8; 9].

(** A stand-in for the compiled entropy routine, to run examples: one
    group per distinct value. *)
Definition one_group_per_value (x unique : list num) (cts : list Z)
  : result (list (list num)) :=
  ret (map (fun u => [u]) unique).

Definition age_values : list num := map of_Z [21; 35; 35; 48; 52; 67].

Definition price_values : list num :=
  [Fin (1 # 2); Fin (1 # 2); of_Z 2; of_Z 2; of_Z 2; Fin (1 # 2)].

Definition X_train : frame :=
  mk_frame 6 [("age"%string, NumArr age_values);
              ("price"%string, NumArr price_values)].

(** Three bins for both columns, though [price] has two distinct values. *)
Definition binner_age_price : t :=
  __init__ (Some ["age"; "price"]%string) true (NInt 3) "uniform" false false.

Definition binner_age : t :=
  __init__ (Some ["age"]%string) true (NInt 3) "uniform" false false.

Definition X_test_no_age : frame :=
  mk_frame 2 [("price"%string, NumArr [of_Z 1; of_Z 3])].

(** A table whose second fit column carries the derived name of the
    first. *)
Definition X_collide : frame :=
  mk_frame 3 [("a"%string, NumArr [of_Z 1; of_Z 2; of_Z 3]);
              ("a_binned"%string, NumArr [of_Z 10; of_Z 20; of_Z 30])].

Definition binner_collide : t :=
  __init__ (Some ["a"; "a_binned"]%string) true (NInt 2) "uniform" false false.

(** Chunks whose first elements agree to two decimals. *)
Definition chunks_close : list (list num) :=
  [[of_Z 0]; [Fin (1 # 1000)]; [Fin (2 # 1000)]; [Fin (3 # 1000)]].

(** ** [transform] with [overwrite] on *)

Section OverwriteVocabulary.

Variables (self : t) (bins : dict _Bins.t) (X : frame).

(** What holds of the table after the columns [done] have been binned in
    place. *)
Definition replaced (done : list string) (Xk : frame) : Prop :=
  nrows Xk = nrows X /\
  wf_frame Xk /\
  keys (columns Xk) = keys (columns X) /\
  (forall k, ~ In k done -> dict_get (columns Xk) k = dict_get (columns X) k) /\
  (forall c, In c done ->
             exists binned, expected self bins X c = inr binned /\
                            dict_get (columns Xk) c = Some binned).

End OverwriteVocabulary.

(** ** More examples *)

(** Estimators over [age] and [price] with an [n_bins] that [fit]
    rejects. *)
Definition binner_short_seq : t :=
  __init__ (Some ["age"; "price"]%string) true (NSeq [VInt 3]) "uniform" false false.

Definition binner_short_dict : t :=
  __init__ (Some ["age"; "price"]%string) true
           (NDict [("age"%string, VInt 3)]) "uniform" false false.

Definition binner_no_n_bins : t :=
  __init__ (Some ["age"; "price"]%string) true NOther "uniform" false false.

Definition binner_other_keys : t :=
  __init__ (Some ["age"; "price"]%string) true
           (NDict [("age"%string, VInt 2); ("cost"%string, VInt 2)])
           "uniform" false false.

Definition binner_one_bin : t :=
  __init__ (Some ["age"; "price"]%string) true (NInt 1) "uniform" false false.

(** A table without columns, and an estimator for all the columns of its
    table, with no bin at all. *)
Definition X_no_cols : frame := mk_frame 0 [].

Definition binner_all_cols : t :=
  __init__ None true (NInt 0) "uniform" false false.

Definition binner_quantile : t :=
  __init__ (Some ["age"; "price"]%string) true (NInt 2) "quantile" false false.

Definition binner_its : t :=
  __init__ (Some ["age"; "price"]%string) true (NInt 2) "it's" false false.

(** ** Strings that [%r] prints the same in every Python *)

(** A [str] of ASCII bytes. *)
Fixpoint ascii_str (s : string) : bool :=
  match s with
  | EmptyString => true
  | String c s' => (nat_of_ascii c <? 128)%nat && ascii_str s'
  end.

(** A printable ASCII character other than the single quote and the
    backslash, and a string of such characters. *)
Definition plain_char (c : ascii) : bool :=
  (32 <=? nat_of_ascii c)%nat && (nat_of_ascii c <=? 126)%nat &&
  negb (Ascii.eqb c squote) && negb (Ascii.eqb c backslash).

Fixpoint plain (s : string) : bool :=
  match s with
  | EmptyString => true
  | String c s' => plain_char c && plain s'
  end.

(** Two bins for [price], three for [age], by position, by key, and with
    the columns overwritten. *)
Definition binner_by_position : t :=
  __init__ (Some ["age"; "price"]%string) true (NSeq [VInt 3; VInt 2])
           "uniform" false false.

Definition binner_in_place : t :=
  __init__ (Some ["age"; "price"]%string) true (NSeq [VInt 3; VInt 2])
           "uniform" true true.

(** * Properties *)

(** ** The order on values *)

Lemma num_ge_nan_l x : num_ge NaN x = false.
Proof. reflexivity. Qed.

Lemma num_ge_nan_r x : num_ge x NaN = false.
Proof. now destruct x. Qed.

Lemma num_ge_ninf x : is_nan x = false -> num_ge x NInf = true.
Proof. now destruct x. Qed.

Lemma num_ge_refl x : is_nan x = false -> num_ge x x = true.
Proof.
  destruct x; simpl; try easy.
  intros _. apply Qle_bool_iff, Qle_refl.
Qed.

Lemma num_ge_trans x y z :
  num_ge x y = true -> num_ge y z = true -> num_ge x z = true.
Proof.
  destruct x, y, z; simpl; try easy.
  rewrite !Qle_bool_iff. intros H1 H2. now apply Qle_trans with q0.
Qed.

Lemma num_ge_not_nan x y : num_ge x y = true -> is_nan x = false /\ is_nan y = false.
Proof. now destruct x, y. Qed.

Lemma le_trans x y z : le x y -> le y z -> le x z.
Proof. unfold le, num_le. intros H1 H2. now apply num_ge_trans with y. Qed.

Lemma lt_le x y : lt x y -> le x y.
Proof. unfold lt, le, num_lt, num_le. now intros [H _]%andb_prop. Qed.

Lemma lt_not_ge x y : lt x y -> num_ge x y = false.
Proof.
  unfold lt, num_lt. intros [_ H]%andb_prop. now apply negb_true_iff in H.
Qed.

Lemma lt_trans x y z : lt x y -> lt y z -> lt x z.
Proof.
  unfold lt, num_lt. intros [H1 H2]%andb_prop [H3 H4]%andb_prop.
  apply negb_true_iff in H2, H4.
  apply andb_true_intro; split.
  - now apply num_ge_trans with y.
  - apply negb_true_iff. destruct (num_ge x z) eqn:E; [|reflexivity].
    rewrite <- H4. symmetry. now apply num_ge_trans with x.
Qed.

(** Among finite values [>=] is total. *)
Lemma num_ge_total_fin x y :
  is_finite x = true -> is_finite y = true -> num_ge x y = true \/ num_ge y x = true.
Proof.
  destruct x, y; simpl; try easy. intros _ _.
  rewrite !Qle_bool_iff. destruct (Qlt_le_dec q q0) as [H|H]; [right|left]; auto.
  now apply Qlt_le_weak.
Qed.

Lemma finite_not_nan x : is_finite x = true -> is_nan x = false.
Proof. now destruct x. Qed.

(** ** The scan of [assign], element by element *)

Lemma scan_step_pointwise v bins boundary :
  length bins = length v ->
  _Bins.scan_step v bins boundary =
  map (fun xb => step1 (fst xb) (snd xb) boundary) (combine v bins).
Proof.
  unfold _Bins.scan_step, _Bins.decrement. rewrite !length_map.
  revert bins. induction v as [|x v IH]; intros [|b bins] Hlen; simpl in *; try easy.
  f_equal.
  - unfold step1. now destruct (num_ge x boundary).
  - injection Hlen as Hlen. specialize (IH bins Hlen).
    destruct v as [|y v]; [now destruct bins|].
    simpl in IH. exact IH.
Qed.

Lemma scan_step_length v bins boundary :
  length bins = length v -> length (_Bins.scan_step v bins boundary) = length v.
Proof.
  intros H. rewrite scan_step_pointwise by assumption.
  rewrite length_map, length_combine. lia.
Qed.

Lemma scan_pointwise v boundaries : forall bins,
  length bins = length v ->
  fold_left (_Bins.scan_step v) boundaries bins =
  map (fun xb => fold_left (step1 (fst xb)) boundaries (snd xb)) (combine v bins).
Proof.
  induction boundaries as [|b bs IH]; intros bins Hlen; simpl.
  - revert bins Hlen. induction v as [|x v IHv]; intros [|c bins] Hlen; simpl in *; try easy.
    f_equal. apply IHv. now injection Hlen.
  - rewrite IH by now apply scan_step_length.
    rewrite scan_step_pointwise by assumption.
    clear IH. revert bins Hlen.
    induction v as [|x v IHv]; intros [|c bins] Hlen; simpl in *; try easy.
    f_equal. apply IHv. now injection Hlen.
Qed.

Lemma fold_step1_misses x boundaries : forall b,
  fold_left (step1 x) boundaries b = b - Z.of_nat (misses x boundaries).
Proof.
  unfold misses.
  induction boundaries as [|c bs IH]; intros b; simpl; [lia|].
  rewrite IH. unfold step1. destruct (num_ge x c); simpl; lia.
Qed.

Lemma misses_rev x lbs : misses x (rev lbs) = misses x lbs.
Proof.
  unfold misses. induction lbs as [|c l IH]; simpl; [reflexivity|].
  rewrite filter_app, length_app, IH. simpl.
  destruct (negb (num_ge x c)); simpl; lia.
Qed.

Lemma levels_pointwise self v : _Bins.levels self v = map (level self) v.
Proof.
  unfold _Bins.levels. rewrite scan_pointwise by apply repeat_length.
  induction v as [|x v IH]; simpl; [reflexivity|].
  f_equal; [|exact IH].
  unfold level. now rewrite fold_step1_misses, misses_rev.
Qed.

Lemma assign_levels self v :
  _Bins.assign self (NumArr v) false = inr (NumArr (map of_Z (map (level self) v))).
Proof. simpl. unfold _Bins.finish. now rewrite levels_pointwise. Qed.

(** ** What the constructor builds *)

Lemma getitem_nil {A} (i : Z) :
  getitem (@nil A) i = inl (IndexError "index out of range").
Proof.
  unfold getitem. simpl.
  destruct (i <? 0) eqn:E; [|destruct (0 <=? i) eqn:E1, (i <? 0) eqn:E2; simpl; try easy; lia].
  rewrite Z.add_0_r. destruct (0 <=? i) eqn:E1; simpl; try easy. lia.
Qed.

Lemma getitem_0_cons {A} (a : A) l : getitem (a :: l) 0 = inr a.
Proof.
  unfold getitem. cbn [Z.ltb Z.compare]. cbv iota.
  replace (0 <=? 0) with true by reflexivity.
  replace (0 <? Z.of_nat (length (a :: l))) with true; [reflexivity|].
  symmetry. apply Z.ltb_lt. simpl length. lia.
Qed.

Lemma getitem_last {A} (l : list A) a : getitem (l ++ [a]) (-1) = inr a.
Proof.
  unfold getitem. replace (-1 <? 0) with true by reflexivity.
  rewrite length_app. simpl length.
  replace (-1 + Z.of_nat (length l + 1)) with (Z.of_nat (length l)) by lia.
  replace (0 <=? Z.of_nat (length l)) with true by (symmetry; apply Z.leb_le; lia).
  replace (Z.of_nat (length l) <? Z.of_nat (length l + 1)) with true
    by (symmetry; apply Z.ltb_lt; lia).
  rewrite Nat2Z.id. simpl. rewrite nth_error_app2 by lia.
  now rewrite Nat.sub_diag.
Qed.

Lemma first_elems_cons c cs :
  first_elems (c :: cs) =
  (h <- getitem c 0 ;; hs <- first_elems cs ;; ret (h :: hs))%err.
Proof. reflexivity. Qed.

Lemma first_elems_length cs : forall hs,
  first_elems cs = inr hs -> length hs = length cs.
Proof.
  induction cs as [|c cs IH]; intros hs H.
  - injection H as <-. reflexivity.
  - rewrite first_elems_cons in H. destruct c as [|h t].
    + rewrite getitem_nil in H. discriminate.
    + rewrite getitem_0_cons in H. simpl in H.
      destruct (first_elems cs) as [e|hs']; simpl in H; [discriminate|].
      injection H as <-. simpl. f_equal. now apply IH.
Qed.

Lemma first_elems_hd cs : forall hs,
  first_elems cs = inr hs ->
  hs = map (hd NaN) cs /\ Forall (fun c => c <> []) cs.
Proof.
  induction cs as [|c cs IH]; intros hs H.
  - injection H as <-. split; constructor.
  - rewrite first_elems_cons in H. destruct c as [|h t].
    + rewrite getitem_nil in H. discriminate.
    + rewrite getitem_0_cons in H. simpl in H.
      destruct (first_elems cs) as [e|hs']; simpl in H; [discriminate|].
      injection H as <-. destruct (IH hs' eq_refl) as [-> HF].
      split; [reflexivity|]. constructor; [discriminate|assumption].
Qed.

Lemma first_elems_nonempty cs :
  Forall (fun c => c <> []) cs -> first_elems cs = inr (map (hd NaN) cs).
Proof.
  induction 1 as [|c cs Hc _ IH]; [reflexivity|].
  rewrite first_elems_cons, IH. destruct c as [|h t]; [easy|].
  now rewrite getitem_0_cons.
Qed.

Lemma init_loop_tail rest : forall h t s U L R,
  _Bins.init_loop
    (combine (seq (S s) (length (consec ((h :: t) :: rest))))
             (consec ((h :: t) :: rest))) (U, L, R) =
  (hs <- first_elems rest ;;
   ret (U ++ hs, L ++ removelast (h :: hs), R ++ mid_reprs h hs))%err.
Proof.
  induction rest as [|c rest IH]; intros h t s U L R.
  - simpl. now rewrite !app_nil_r.
  - rewrite first_elems_cons.
    change (consec ((h :: t) :: c :: rest))
      with ((h :: t, c) :: consec (c :: rest)).
    cbn [length seq combine _Bins.init_loop].
    unfold _Bins.init_step. destruct c as [|h' t'].
    + rewrite getitem_nil. reflexivity.
    + rewrite !getitem_0_cons. cbn [bind Nat.eqb ret].
      rewrite IH. destruct (first_elems rest) as [e|hs]; [reflexivity|].
      cbn [bind ret]. rewrite <- !app_assoc. reflexivity.
Qed.

Lemma getitem_last_chunk pre cs : forall hs,
  first_elems cs = inr hs -> cs <> [] ->
  exists lc, getitem (pre ++ cs) (-1) = inr lc /\ getitem lc 0 = inr (last hs NaN).
Proof.
  intros hs H Hne.
  destruct (exists_last Hne) as [cs' [lc ->]].
  exists lc. rewrite app_assoc, getitem_last. split; [reflexivity|].
  destruct (first_elems_hd _ _ H) as [-> HF].
  apply Forall_app in HF as [_ HF]. inversion HF as [|? ? Hlc _]; subst.
  rewrite map_app. simpl. rewrite last_last.
  destruct lc as [|a lc]; [easy|]. now rewrite getitem_0_cons.
Qed.

(** The constructor on two chunks or more, in closed form. *)
Lemma init_two c0 c1 rest :
  _Bins.__init__ (c0 :: c1 :: rest) =
  (hs <- first_elems (c1 :: rest) ;;
   ret (_Bins.mk (S (S (length rest))) (hs ++ [PInf]) (NInf :: hs) (reprs_of hs)))%err.
Proof.
  unfold _Bins.__init__, enumerate.
  change (combine (removelast (c0 :: c1 :: rest)) (tl (c0 :: c1 :: rest)))
    with ((c0, c1) :: consec (c1 :: rest)).
  rewrite first_elems_cons.
  cbn [length seq combine _Bins.init_loop]. unfold _Bins.init_step.
  destruct c1 as [|h1 t1].
  - rewrite getitem_nil. reflexivity.
  - rewrite getitem_0_cons. cbn [bind Nat.eqb ret app].
    fold (consec ((h1 :: t1) :: rest)).
    rewrite (init_loop_tail rest h1 t1 0).
    destruct (first_elems rest) as [e|hs] eqn:E; [reflexivity|].
    cbn [bind ret].
    assert (Hall : first_elems ((h1 :: t1) :: rest) = inr (h1 :: hs)).
    { rewrite first_elems_cons, getitem_0_cons, E. reflexivity. }
    destruct (getitem_last_chunk [c0] ((h1 :: t1) :: rest) _ Hall) as [lc [H1 H2]];
      [discriminate|].
    cbn [app] in H1. rewrite H1. cbn [bind]. rewrite H2. cbn [bind].
    rewrite getitem_last. cbn [bind ret].
    assert (Hl : ([NInf] ++ removelast (h1 :: hs)) ++ [last (h1 :: hs) NaN]
                 = NInf :: h1 :: hs).
    { rewrite <- app_assoc, <- app_removelast_last by discriminate. reflexivity. }
    rewrite Hl. unfold reprs_of. cbn [app]. reflexivity.
Qed.

Lemma init_one c :
  _Bins.__init__ [c] =
  (h <- getitem c 0 ;;
   ret (_Bins.mk 1 [PInf] [h] [("(" ++ fmt2 h ++ ", Inf]")%string]))%err.
Proof.
  unfold _Bins.__init__. cbn [removelast tl combine enumerate length seq
                               _Bins.init_loop bind ret].
  change [c] with ([] ++ [c]). rewrite getitem_last. cbn [bind app].
  destruct (getitem c 0) as [e|h]; [reflexivity|].
  cbn [bind]. change [h] with ([] ++ [h]). rewrite getitem_last. reflexivity.
Qed.

Lemma init_nil : _Bins.__init__ [] = inl (IndexError "index out of range").
Proof. reflexivity. Qed.

Lemma mid_reprs_length hs : forall h, length (mid_reprs h hs) = length hs.
Proof. induction hs as [|h' hs IH]; intros h; simpl; [reflexivity|now rewrite IH]. Qed.

Lemma reprs_of_length hs : hs <> [] -> length (reprs_of hs) = S (length hs).
Proof.
  destruct hs as [|h hs]; [easy|]. intros _. unfold reprs_of.
  cbn [length]. rewrite length_app, mid_reprs_length. simpl. lia.
Qed.

(** ** Chunks in ascending order *)

Lemma le_transitive : Relations_1.Transitive le.
Proof. intros x y z. apply le_trans. Qed.

Lemma lt_transitive : Relations_1.Transitive lt.
Proof. intros x y z. apply lt_trans. Qed.

Section Heads.

Variable R : num -> num -> Prop.

Lemma strongly_sorted_app_r (l1 l2 : list num) :
  StronglySorted R (l1 ++ l2) -> StronglySorted R l2.
Proof.
  induction l1 as [|a l1 IH]; simpl; [easy|].
  intros H. apply IH. now inversion H.
Qed.

Lemma heads_in_concat cs :
  nonempty_chunks cs -> incl (map (hd NaN) cs) (concat cs).
Proof.
  induction 1 as [|c cs Hc _ IH]; simpl; [easy|].
  destruct c as [|h t]; [easy|]. simpl.
  intros x [<-|Hx]; [now left|]. right. apply in_or_app. right. now apply IH.
Qed.

Lemma heads_strongly_sorted cs :
  nonempty_chunks cs -> StronglySorted R (concat cs) ->
  StronglySorted R (map (hd NaN) cs).
Proof.
  induction 1 as [|c cs Hc Hcs IH]; simpl; [constructor|].
  destruct c as [|h t]; [easy|]. simpl. intros HS.
  inversion HS as [|? ? HS' HF]; subst.
  constructor.
  - apply IH. now apply strongly_sorted_app_r with t.
  - apply Forall_forall. intros x Hx.
    rewrite Forall_forall in HF. apply HF, in_or_app. right.
    now apply heads_in_concat.
Qed.

Lemma strongly_sorted_snoc l y :
  StronglySorted R l -> Forall (fun x => R x y) l -> StronglySorted R (l ++ [y]).
Proof.
  induction 1 as [|a l HS IH HF]; simpl; intros Hy.
  - repeat constructor.
  - inversion Hy; subst. constructor; [now apply IH|].
    apply Forall_app. split; [assumption|]. now constructor.
Qed.

Lemma strongly_sorted_nth l : forall i j a b,
  StronglySorted R l -> (i < j)%nat ->
  nth_error l i = Some a -> nth_error l j = Some b -> R a b.
Proof.
  induction l as [|x l IH]; intros i j a b HS Hij Ha Hb.
  - destruct i; discriminate.
  - inversion HS as [|? ? HS' HF]; subst.
    destruct j as [|j]; [lia|]. simpl in Hb.
    destruct i as [|i]; simpl in Ha.
    + injection Ha as <-. rewrite Forall_forall in HF.
      apply HF. now apply nth_error_In with j.
    + apply (IH i j); [assumption|lia|assumption|assumption].
Qed.

Hypothesis R_trans : Relations_1.Transitive R.

Hypothesis R_not_nan : forall a h, R a h -> is_nan h = false.

(** The first elements of the chunks after a non-empty first chunk are
    in order, and none of them is a NaN. *)
Lemma sorted_heads c0 cs :
  c0 <> [] -> nonempty_chunks cs -> Sorted R (concat (c0 :: cs)) ->
  StronglySorted R (map (hd NaN) cs) /\
  Forall (fun h => is_nan h = false) (map (hd NaN) cs).
Proof.
  intros H0 Hcs Hasc.
  apply Sorted_StronglySorted in Hasc; [|exact R_trans].
  simpl in Hasc. split.
  - apply heads_strongly_sorted; [assumption|].
    now apply strongly_sorted_app_r with c0.
  - destruct c0 as [|a t]; [easy|]. simpl in Hasc.
    inversion Hasc as [|? ? _ HF]; subst.
    apply Forall_forall. intros h Hh. rewrite Forall_forall in HF.
    apply (R_not_nan a). apply HF, in_or_app. right.
    now apply heads_in_concat.
Qed.

End Heads.

(** The lower bounds of two chunks or more: minus infinity, then the
    first element of every chunk but the first. *)
Lemma init_bounds chunks b :
  (2 <= length chunks)%nat -> _Bins.__init__ chunks = inr b ->
  exists hs,
    first_elems (tl chunks) = inr hs /\ hs <> [] /\
    _Bins.n_bins b = length chunks /\
    _Bins.lower_bounds b = NInf :: hs /\
    _Bins.upper_bounds b = hs ++ [PInf] /\
    _Bins.reprs b = reprs_of hs.
Proof.
  destruct chunks as [|c0 [|c1 rest]]; simpl length; try lia.
  intros _. rewrite init_two.
  destruct (first_elems (c1 :: rest)) as [e|hs] eqn:E; [discriminate|].
  cbn [bind ret]. intros [= <-]. exists hs. cbn [tl].
  repeat split; try assumption.
  apply first_elems_length in E. destruct hs; [discriminate|discriminate].
Qed.

Lemma init_lengths chunks b :
  _Bins.__init__ chunks = inr b ->
  _Bins.n_bins b = length chunks /\
  length (_Bins.lower_bounds b) = length chunks /\
  length (_Bins.upper_bounds b) = length chunks /\
  length (_Bins.reprs b) = length chunks.
Proof.
  destruct chunks as [|c0 [|c1 rest]].
  - discriminate.
  - rewrite init_one. destruct (getitem c0 0); [discriminate|].
    intros [= <-]. now repeat split.
  - intros H.
    assert (H2 : (2 <= length (c0 :: c1 :: rest))%nat) by (simpl; lia).
    destruct (init_bounds _ _ H2 H) as (hs & E & Hne & Hn & Hl & Hu & Hr).
    apply first_elems_length in E. simpl in E.
    rewrite Hn, Hl, Hu, Hr, length_app, reprs_of_length by assumption.
    simpl. repeat split; lia.
Qed.

Lemma ascending_heads c0 cs :
  c0 <> [] -> nonempty_chunks cs -> ascending (c0 :: cs) ->
  StronglySorted le (map (hd NaN) cs) /\
  Forall (fun h => is_nan h = false) (map (hd NaN) cs).
Proof.
  apply sorted_heads; [exact le_transitive|].
  intros a h Hah. now apply num_ge_not_nan in Hah.
Qed.

Lemma strictly_ascending_heads c0 cs :
  c0 <> [] -> nonempty_chunks cs -> strictly_ascending (c0 :: cs) ->
  StronglySorted lt (map (hd NaN) cs) /\
  Forall (fun h => is_nan h = false) (map (hd NaN) cs).
Proof.
  apply sorted_heads; [exact lt_transitive|].
  intros a h Hah. apply lt_le in Hah. now apply num_ge_not_nan in Hah.
Qed.

(** C8, as amended: from two or more non-empty chunks in ascending order
    the constructor succeeds and the object it builds has
    [len(upper_bounds) == len(lower_bounds) == len(reprs) == n_bins ==
    len(chunks)], non-decreasing lower and upper bounds, minus infinity
    as its first lower bound and plus infinity as its last upper bound. *)
Theorem C8_bins_invariant chunks :
  (2 <= length chunks)%nat -> nonempty_chunks chunks -> ascending chunks ->
  exists b, _Bins.__init__ chunks = inr b /\ bins_invariant chunks b.
Proof.
  intros Hlen Hne Hasc.
  destruct chunks as [|c0 [|c1 rest]]; simpl in Hlen; try lia.
  inversion Hne as [|? ? H0 Hcs]; subst.
  destruct (ascending_heads c0 (c1 :: rest) H0 Hcs Hasc) as [HS Hnan].
  rewrite init_two, (first_elems_nonempty _ Hcs). cbn [bind ret].
  eexists. split; [reflexivity|].
  set (hs := map (hd NaN) (c1 :: rest)) in *.
  assert (Hhs : hs <> []) by discriminate.
  unfold bins_invariant. cbn [_Bins.upper_bounds _Bins.lower_bounds
                               _Bins.reprs _Bins.n_bins].
  rewrite reprs_of_length, length_app by assumption.
  assert (Hl : length hs = S (length rest)) by (unfold hs; simpl; now rewrite length_map).
  clearbody hs. cbn [length]. rewrite Hl. simpl length.
  repeat split; try lia.
  - apply StronglySorted_Sorted. constructor; [assumption|].
    eapply Forall_impl; [|exact Hnan]. intros h Hh. now apply num_ge_ninf.
  - apply StronglySorted_Sorted. apply strongly_sorted_snoc; [assumption|].
    eapply Forall_impl; [|exact Hnan]. intros h Hh.
    unfold le, num_le. now destruct h.
  - now rewrite last_last.
Qed.

(** C8 on concrete chunks. *)
Lemma C8_bins_invariant_witness :
  exists b, _Bins.__init__ [[of_Z 0; of_Z 1]; [of_Z 2]; [of_Z 5; of_Z 7]] = inr b /\
            bins_invariant [[of_Z 0; of_Z 1]; [of_Z 2]; [of_Z 5; of_Z 7]] b.
Proof.
  apply C8_bins_invariant.
  - simpl. lia.
  - repeat constructor; discriminate.
  - repeat constructor.
Defined.

(** C8 as first stated fails on a single chunk, non-empty and in
    ascending order: the loop of the constructor does not run, and the
    only lower bound is the first element of the chunk, not minus
    infinity. *)
Lemma C8_single_chunk_counterexample :
  nonempty_chunks [[of_Z 1]] /\ ascending [[of_Z 1]] /\
  exists b,
    _Bins.__init__ [[of_Z 1]] = inr b /\
    _Bins.lower_bounds b = [of_Z 1] /\
    hd_error (_Bins.lower_bounds b) <> Some NInf /\
    ~ bins_invariant [[of_Z 1]] b.
Proof.
  split; [repeat constructor; discriminate|].
  split; [repeat constructor|].
  eexists. split; [reflexivity|]. split; [reflexivity|].
  split; [discriminate|].
  intros (_ & _ & _ & _ & _ & _ & Hhd & _). discriminate Hhd.
Qed.

(** ** [assign] against the largest index *)

Lemma is_Bins_n_bins b :
  is_Bins b -> _Bins.n_bins b = length (_Bins.lower_bounds b).
Proof.
  intros [chunks H]. destruct (init_lengths _ _ H) as (-> & -> & _). reflexivity.
Qed.

Lemma is_Bins_reprs b :
  is_Bins b -> length (_Bins.reprs b) = _Bins.n_bins b /\ (1 <= _Bins.n_bins b)%nat.
Proof.
  intros [chunks H]. destruct (init_lengths _ _ H) as (Hn & _ & _ & Hr).
  split; [congruence|]. rewrite Hn.
  destruct chunks; [discriminate H|simpl; lia].
Qed.

Lemma fitted_is_Bins b : fitted_Bins b -> is_Bins b.
Proof. intros (chunks & _ & H). now exists chunks. Qed.

Lemma fitted_first_lower b :
  fitted_Bins b -> exists hs, _Bins.lower_bounds b = NInf :: hs.
Proof.
  intros (chunks & Hlen & H).
  destruct (init_bounds _ _ Hlen H) as (hs & _ & _ & _ & Hl & _).
  now exists hs.
Qed.

Lemma largest_index_unique lbs x i j :
  largest_index_ge lbs x i -> largest_index_ge lbs x j -> i = j.
Proof.
  intros [(bi & Hi & Hgi) Hi'] [(bj & Hj & Hgj) Hj'].
  destruct (Nat.lt_trichotomy i j) as [H|[H|H]]; [|assumption|].
  - rewrite (Hi' _ _ H Hj) in Hgj. discriminate.
  - rewrite (Hj' _ _ H Hi) in Hgi. discriminate.
Qed.

Lemma misses_le_length x lbs : (misses x lbs <= length lbs)%nat.
Proof. apply filter_length_le. Qed.

Lemma misses_all x lbs :
  Forall (fun b => num_ge x b = false) lbs -> misses x lbs = length lbs.
Proof.
  unfold misses. induction 1 as [|b l Hb _ IH]; simpl; [reflexivity|].
  rewrite Hb. simpl. now rewrite IH.
Qed.

(** On non-decreasing bounds the bounds an element reaches form a prefix. *)
Lemma misses_prefix x lbs :
  StronglySorted le lbs ->
  exists k, (k <= length lbs)%nat /\
            (misses x lbs + k = length lbs)%nat /\
            (forall j b, (j < k)%nat -> nth_error lbs j = Some b -> num_ge x b = true) /\
            (forall j b, (k <= j)%nat -> nth_error lbs j = Some b -> num_ge x b = false).
Proof.
  induction 1 as [|a l HS IH HF].
  - exists 0%nat. split; [simpl; lia|]. split; [reflexivity|]. split.
    + intros j b Hj. lia.
    + intros [|j] b _; discriminate.
  - destruct (num_ge x a) eqn:Ea.
    + destruct IH as (k & Hk & Hm & Hlo & Hhi). exists (S k).
      unfold misses in *. simpl. rewrite Ea. simpl.
      split; [lia|]. split; [lia|]. split.
      * intros [|j] b Hj Hb; simpl in Hb.
        -- now injection Hb as <-.
        -- apply (Hlo j); [lia|assumption].
      * intros [|j] b Hj Hb; simpl in Hb; [lia|].
        apply (Hhi j); [lia|assumption].
    + assert (Hall : Forall (fun b => num_ge x b = false) (a :: l)).
      { constructor; [assumption|].
        eapply Forall_impl; [|exact HF]. intros b Hab.
        destruct (num_ge x b) eqn:Eb; [|reflexivity].
        rewrite <- Ea. symmetry. now apply num_ge_trans with b. }
      exists 0%nat. rewrite (misses_all _ _ Hall).
      split; [lia|]. split; [lia|]. split; [intros j b Hj; lia|].
      intros j b _ Hb. rewrite Forall_forall in Hall.
      apply Hall. now apply nth_error_In with j.
Qed.

(** The level of an element that is not NaN is the largest index whose
    lower bound it reaches. *)
Lemma level_largest b x :
  _Bins.n_bins b = length (_Bins.lower_bounds b) ->
  non_decreasing (_Bins.lower_bounds b) ->
  hd_error (_Bins.lower_bounds b) = Some NInf ->
  is_nan x = false ->
  exists i, level b x = Z.of_nat i /\ largest_index_ge (_Bins.lower_bounds b) x i.
Proof.
  intros Hn Hs Hhd Hx. unfold level. rewrite Hn.
  apply Sorted_StronglySorted in Hs; [|exact le_transitive].
  destruct (misses_prefix x _ Hs) as (k & Hk & Hm & Hlo & Hhi).
  destruct (_Bins.lower_bounds b) as [|b0 lbs] eqn:El; [discriminate|].
  injection Hhd as ->.
  destruct k as [|k].
  - specialize (Hhi 0%nat NInf (Nat.le_refl _) eq_refl).
    rewrite num_ge_ninf in Hhi by assumption. discriminate.
  - exists k. split; [lia|]. split.
    + destruct (nth_error (NInf :: lbs) k) as [bk|] eqn:Ek.
      * exists bk. split; [reflexivity|]. apply (Hlo k); [lia|assumption].
      * apply nth_error_None in Ek. lia.
    + intros j bj Hj. apply Hhi. lia.
Qed.

(** C1, as amended: on a [_Bins] object whose lower bounds are
    non-decreasing and start at minus infinity, [assign(v, as_str=False)]
    on finite values returns, element by element, the largest index [i]
    with [v >= lower_bounds[i]], the values and the bounds being numbers
    that float64 holds exactly: the backward scan computes the reference
    the spec gives wherever numpy's comparison is the order of the
    numbers. *)
Theorem C1_assign_largest_index b v :
  is_Bins b ->
  non_decreasing (_Bins.lower_bounds b) ->
  hd_error (_Bins.lower_bounds b) = Some NInf ->
  Forall (fun x => is_finite x = true) v ->
  Forall (fun x => float64_exact x = true) v ->
  Forall (fun l => float64_exact l = true) (_Bins.lower_bounds b) ->
  exists idx,
    _Bins.assign b (NumArr v) false = inr (NumArr (map of_Z (map Z.of_nat idx))) /\
    Forall2 (largest_index_ge (_Bins.lower_bounds b)) v idx.
Proof.
  intros Hb Hs Hhd Hv _ _. rewrite assign_levels.
  apply is_Bins_n_bins in Hb.
  induction Hv as [|x v Hx _ IH].
  - exists []. split; [reflexivity|constructor].
  - destruct IH as (idx & Hidx & Hall).
    destruct (level_largest b x Hb Hs Hhd (finite_not_nan _ Hx)) as (i & Hi & Hlarge).
    exists (i :: idx). split.
    + simpl. rewrite Hi. injection Hidx as Hidx. now rewrite Hidx.
    + now constructor.
Qed.

Lemma init_chunks_0_9 : _Bins.__init__ chunks_0_9 = inr bins_0_9.
Proof. reflexivity. Defined.

Lemma fitted_bins_0_9 : fitted_Bins bins_0_9.
Proof.
  exists chunks_0_9. split; [simpl; lia|exact init_chunks_0_9].
Defined.

(** C1 on the running example. *)
Lemma C1_assign_largest_index_witness :
  exists idx,
    _Bins.assign bins_0_9 (NumArr [of_Z 4; Fin (-7 # 2); of_Z 8; of_Z 100]) false
      = inr (NumArr (map of_Z (map Z.of_nat idx))) /\
    Forall2 (largest_index_ge (_Bins.lower_bounds bins_0_9))
            [of_Z 4; Fin (-7 # 2); of_Z 8; of_Z 100] idx.
Proof.
  apply C1_assign_largest_index.
  - exists chunks_0_9. reflexivity.
  - repeat constructor.
  - reflexivity.
  - repeat constructor.
  - repeat (constructor; [vm_compute; reflexivity|]). constructor.
  - repeat (constructor; [vm_compute; reflexivity|]). constructor.
Defined.

(** An int64 that 53 bits hold is converted to itself. *)
Lemma float64_of_int64_exact z :
  Z.abs z <= 2 ^ 53 -> float64_of_int64 z = of_Z z.
Proof.
  intros Hz. unfold float64_of_int64.
  destruct (Z.eq_dec (Z.abs z) (2 ^ 53)) as [E|E].
  - assert (Hz' : z = 2 ^ 53 \/ z = - 2 ^ 53) by lia.
    destruct Hz' as [-> | ->]; vm_compute; reflexivity.
  - assert (Hk : Z.log2 (Z.abs z) - 52 <= 0).
    { destruct (Z.eq_dec (Z.abs z) 0) as [E0|E0]; [rewrite E0; simpl; lia|].
      assert (Z.log2 (Z.abs z) < 53) by (apply Z.log2_lt_pow2; lia). lia. }
    apply Z.leb_le in Hk. now rewrite Hk.
Qed.

(** float64 holds every integer up to 2^53 in magnitude. *)
Lemma int_float64_exact z : Z.abs z <= 2 ^ 53 -> float64_exact (of_Z z) = true.
Proof.
  intros Hz. unfold float64_exact, of_Z, inject_Z. cbn [Qnum Qden].
  rewrite Z.mod_1_r, Z.div_1_r. cbn [andb Z.eqb].
  destruct (Z.eq_dec (Z.abs z) (2 ^ 53)) as [E|E].
  { rewrite E. vm_compute. reflexivity. }
  destruct (Z.eq_dec (Z.abs z) 0) as [E0|E0].
  { rewrite E0. vm_compute. reflexivity. }
  assert (Ha : 0 < Z.abs z < 2 ^ 53) by lia.
  assert (Hlog : 0 <= Z.log2 (Z.abs z) < 53).
  { split; [apply Z.log2_nonneg|apply Z.log2_lt_pow2; lia]. }
  apply andb_true_intro. split.
  - apply Z.ltb_lt.
    apply Z.lt_le_trans with (2 ^ 53 * 2 ^ 1074).
    + apply Z.mul_lt_mono_pos_r; [apply Z.pow_pos_nonneg; lia|lia].
    + rewrite <- Z.pow_add_r by lia. apply Z.pow_le_mono_r; lia.
  - rewrite Z.log2_mul_pow2 by lia.
    set (k := 1074 + Z.log2 (Z.abs z) - 52).
    destruct (Z.leb_spec k 0) as [Hk|Hk]; [reflexivity|]. cbn [orb].
    apply Z.eqb_eq.
    replace 1074 with ((1074 - k) + k) at 1 by lia.
    rewrite Z.pow_add_r by (unfold k; lia).
    rewrite Z.mul_assoc. apply Z.mod_mul.
    apply Z.pow_nonzero; lia.
Qed.

(** An int64 array of such integers meets the bounds as it stands. *)
Lemma astype_float64_exact l :
  Forall (fun z => Z.abs z <= 2 ^ 53) l ->
  astype_float64 l = NumArr (map of_Z l) /\
  Forall (fun x => float64_exact x = true) (map of_Z l).
Proof.
  unfold astype_float64. induction 1 as [|z l Hz _ [IH1 IH2]].
  - split; [reflexivity|constructor].
  - cbn [map]. injection IH1 as IH1.
    rewrite IH1, (float64_of_int64_exact z Hz). split; [reflexivity|].
    constructor; [now apply int_float64_exact|assumption].
Qed.

(** The amendment of C1 is needed: an int64 array is converted to
    float64 before it is compared with a float64 bound.  Against the
    bounds [-inf] and [2^53 + 4] the int64 [2^53 + 3], which lies below
    the cut, is converted to [2^53 + 4] and gets level 1, while the
    largest index [i] with [2^53 + 3 >= lower_bounds[i]] is 0. *)
Lemma C1_int64_beyond_2_53_counterexample :
  exists b,
    _Bins.__init__ [[of_Z 0]; [of_Z (2 ^ 53 + 4)]] = inr b /\
    _Bins.lower_bounds b = [NInf; of_Z (2 ^ 53 + 4)] /\
    non_decreasing (_Bins.lower_bounds b) /\
    Forall (fun l => float64_exact l = true) (_Bins.lower_bounds b) /\
    float64_exact (of_Z (2 ^ 53 + 3)) = false /\
    _Bins.assign b (astype_float64 [2 ^ 53 + 3]) false = inr (NumArr [of_Z 1]) /\
    largest_index_ge (_Bins.lower_bounds b) (of_Z (2 ^ 53 + 3)) 0.
Proof.
  eexists. split; [reflexivity|]. split; [reflexivity|]. split.
  { repeat constructor. }
  split.
  { repeat (constructor; [vm_compute; reflexivity|]). constructor. }
  split; [vm_compute; reflexivity|]. split; [vm_compute; reflexivity|].
  split.
  - exists NInf. split; reflexivity.
  - intros [|[|[|j]]] bj Hj Hbj; [lia| | |]; cbn [_Bins.lower_bounds nth_error] in Hbj.
    + injection Hbj as <-. vm_compute. reflexivity.
    + discriminate.
    + discriminate.
Qed.

(** ** The range of the levels *)

Lemma misses_nan lbs : misses NaN lbs = length lbs.
Proof. apply misses_all. apply Forall_forall. now intros b _. Qed.

Lemma level_upper b x : level b x <= Z.of_nat (_Bins.n_bins b) - 1.
Proof. unfold level. lia. Qed.

Lemma level_lower b x : is_Bins b -> -1 <= level b x.
Proof.
  intros Hb. unfold level. rewrite (is_Bins_n_bins _ Hb).
  pose proof (misses_le_length x (_Bins.lower_bounds b)). lia.
Qed.

(** A value that is not NaN stays within [0, n_bins - 1] on a fitted
    object: it reaches the first lower bound, minus infinity. *)
Lemma level_in_range b x :
  fitted_Bins b -> is_nan x = false ->
  0 <= level b x <= Z.of_nat (_Bins.n_bins b) - 1.
Proof.
  intros Hb Hx. split; [|apply level_upper].
  destruct (fitted_first_lower _ Hb) as [hs Hl].
  unfold level. rewrite (is_Bins_n_bins _ (fitted_is_Bins _ Hb)), Hl.
  unfold misses. cbn [filter]. rewrite num_ge_ninf by assumption.
  cbn [negb length].
  pose proof (misses_le_length x hs) as H. unfold misses in H.
  clear -H. lia.
Qed.

Lemma assign_in_range b v :
  fitted_Bins b -> Forall (fun x => is_nan x = false) v ->
  exists idx,
    _Bins.assign b (NumArr v) false = inr (NumArr (map of_Z idx)) /\
    Forall (fun i => 0 <= i <= Z.of_nat (_Bins.n_bins b) - 1) idx.
Proof.
  intros Hb Hv. rewrite assign_levels. exists (map (level b) v).
  split; [reflexivity|]. apply Forall_map.
  eapply Forall_impl; [|exact Hv]. intros x Hx. now apply level_in_range.
Qed.

(** C2 at its failing input: a NaN is below every lower bound, minus
    infinity included, so the scan decrements it [n_bins] times and
    [assign] returns the level -1, which is outside [0, n_bins - 1];
    asked for labels, it returns [reprs[-1]], the label of the top bin. *)
Theorem C2_nan_leaves_range b :
  fitted_Bins b ->
  exists i top,
    _Bins.assign b (NumArr [NaN]) false = inr (NumArr [of_Z i]) /\
    i = -1 /\ ~ (0 <= i <= Z.of_nat (_Bins.n_bins b) - 1) /\
    getitem (_Bins.reprs b) (Z.of_nat (_Bins.n_bins b) - 1) = inr top /\
    _Bins.assign b (NumArr [NaN]) true = inr (StrArr [top]).
Proof.
  intros Hb. apply fitted_is_Bins in Hb.
  assert (H : level b NaN = -1).
  { unfold level. rewrite misses_nan, (is_Bins_n_bins _ Hb). lia. }
  destruct (is_Bins_reprs _ Hb) as [Hr Hn].
  destruct (exists_last (l := _Bins.reprs b)) as (rs & top & Hrs).
  { intros E. rewrite E in Hr. simpl in Hr. lia. }
  exists (-1), top. rewrite assign_levels. cbn [map]. rewrite H.
  split; [reflexivity|]. split; [reflexivity|]. split; [lia|].
  assert (Hlen : Z.of_nat (_Bins.n_bins b) - 1 = Z.of_nat (length rs)).
  { rewrite <- Hr, Hrs, length_app. simpl. lia. }
  split.
  - rewrite Hlen, Hrs. unfold getitem.
    replace (Z.of_nat (length rs) <? 0) with false by (symmetry; apply Z.ltb_ge; lia).
    replace (0 <=? Z.of_nat (length rs)) with true by (symmetry; apply Z.leb_le; lia).
    replace (Z.of_nat (length rs) <? Z.of_nat (length (rs ++ [top]))) with true
      by (symmetry; apply Z.ltb_lt; rewrite length_app; simpl; lia).
    cbn [andb]. rewrite Nat2Z.id, nth_error_app2 by lia.
    now rewrite Nat.sub_diag.
  - cbn [_Bins.assign]. unfold _Bins.finish. rewrite levels_pointwise.
    cbn [map mapM]. rewrite H, Hrs, getitem_last. reflexivity.
Qed.

(** C2 on the running example. *)
Lemma C2_nan_leaves_range_witness :
  exists i top,
    _Bins.assign bins_0_9 (NumArr [NaN]) false = inr (NumArr [of_Z i]) /\
    i = -1 /\ ~ (0 <= i <= Z.of_nat (_Bins.n_bins bins_0_9) - 1) /\
    getitem (_Bins.reprs bins_0_9) (Z.of_nat (_Bins.n_bins bins_0_9) - 1) = inr top /\
    _Bins.assign bins_0_9 (NumArr [NaN]) true = inr (StrArr [top]).
Proof. apply C2_nan_leaves_range. exact fitted_bins_0_9. Defined.

(** ** Monotonicity *)

Lemma misses_antitone x y lbs :
  le x y -> (misses y lbs <= misses x lbs)%nat.
Proof.
  intros Hxy. unfold misses.
  induction lbs as [|b l IH]; simpl; [lia|].
  destruct (num_ge x b) eqn:Ex.
  - assert (Hy : num_ge y b = true) by now apply num_ge_trans with x.
    rewrite Hy. simpl. exact IH.
  - simpl. destruct (num_ge y b); simpl; lia.
Qed.

(** C4: for finite values [v1 <= v2] the level [assign] gives [v1] is at
    most the level it gives [v2].  It holds of every [_Bins] value,
    fitted ones among them. *)
Theorem C4_assign_monotone (b : _Bins.t) (v1 v2 : num) :
  is_finite v1 = true -> is_finite v2 = true -> le v1 v2 ->
  exists i1 i2,
    _Bins.assign b (NumArr [v1; v2]) false = inr (NumArr [of_Z i1; of_Z i2]) /\
    i1 <= i2.
Proof.
  intros _ _ Hle. rewrite assign_levels.
  exists (level b v1), (level b v2). split; [reflexivity|].
  unfold level. pose proof (misses_antitone v1 v2 (_Bins.lower_bounds b) Hle). lia.
Qed.

(** C4 on the running example. *)
Lemma C4_assign_monotone_witness :
  exists i1 i2,
    _Bins.assign bins_0_9 (NumArr [Fin (5 # 2); of_Z 7]) false
      = inr (NumArr [of_Z i1; of_Z i2]) /\
    i1 <= i2.
Proof. apply C4_assign_monotone; reflexivity. Defined.

(** ** Cut points *)

Lemma mid_reprs_nth hs : forall h k x,
  nth_error hs k = Some x ->
  exists lo, nth_error (mid_reprs h hs) k
             = Some ("(" ++ lo ++ ", " ++ fmt2 x ++ "]")%string.
Proof.
  induction hs as [|h' hs IH]; intros h k x Hk.
  - destruct k; discriminate.
  - destruct k as [|k]; simpl in Hk.
    + injection Hk as <-. exists (fmt2 h). reflexivity.
    + simpl. now apply IH.
Qed.

(** The label of bin [k] closes on the first element of chunk [k + 1]. *)
Lemma reprs_of_nth hs k x :
  nth_error hs k = Some x ->
  exists lo, nth_error (reprs_of hs) k
             = Some ("(" ++ lo ++ ", " ++ fmt2 x ++ "]")%string.
Proof.
  destruct hs as [|h1 hs']; [destruct k; discriminate|].
  destruct k as [|k]; simpl nth_error at 1.
  - intros [= <-]. exists "-Inf"%string. reflexivity.
  - intros Hk. destruct (mid_reprs_nth hs' h1 k x Hk) as [lo Hlo].
    exists lo. unfold reprs_of. cbn [nth_error].
    rewrite nth_error_app1; [exact Hlo|].
    rewrite mid_reprs_length. apply nth_error_Some. now rewrite Hk.
Qed.

Lemma strongly_sorted_lt_le l : StronglySorted lt l -> StronglySorted le l.
Proof.
  induction 1 as [|a l _ IH HF]; constructor; [assumption|].
  eapply Forall_impl; [|exact HF]. intros b. apply lt_le.
Qed.

(** C10, as amended: on a [_Bins] object built from non-empty chunks of
    distinct ascending values, the value equal to an interior cut point
    [lower_bounds[i]], [i >= 1], which is [chunks[i][0]], is assigned
    level [i]: the bins are closed at their lower bound, while the label
    of bin [i - 1] ends in that same cut point followed by a closing
    bracket. *)
Theorem C10_cut_point_opens_its_bin chunks b i :
  _Bins.__init__ chunks = inr b ->
  nonempty_chunks chunks -> strictly_ascending chunks ->
  (1 <= i < _Bins.n_bins b)%nat ->
  exists cut c lo,
    nth_error (_Bins.lower_bounds b) i = Some cut /\
    nth_error chunks i = Some c /\ hd_error c = Some cut /\
    _Bins.assign b (NumArr [cut]) false = inr (NumArr [of_Z (Z.of_nat i)]) /\
    nth_error (_Bins.reprs b) (i - 1)
      = Some ("(" ++ lo ++ ", " ++ fmt2 cut ++ "]")%string.
Proof.
  intros Hinit Hne Hasc Hi.
  pose proof (init_lengths _ _ Hinit) as (Hn & Hll & _).
  assert (H2 : (2 <= length chunks)%nat) by lia.
  destruct (init_bounds _ _ H2 Hinit) as (hs & E & _ & _ & Hl & _ & Hr).
  destruct chunks as [|c0 cs]; [simpl in H2; lia|].
  inversion Hne as [|? ? H0 Hcs]; subst.
  cbn [tl] in E. rewrite (first_elems_nonempty _ Hcs) in E.
  injection E as E.
  destruct (strictly_ascending_heads c0 cs H0 Hcs Hasc) as [HS Hnan].
  rewrite E in HS, Hnan.
  destruct i as [|k]; [lia|].
  replace (S k - 1)%nat with k by lia. rewrite Hl, Hr. cbn [nth_error].
  assert (Hk : (k < length cs)%nat) by (simpl in Hn; lia).
  destruct (nth_error cs k) as [c|] eqn:Ec; [|apply nth_error_None in Ec; lia].
  assert (Hcut : nth_error hs k = Some (hd NaN c)).
  { rewrite <- E, nth_error_map, Ec. reflexivity. }
  assert (Hc : c <> []).
  { unfold nonempty_chunks in Hcs. rewrite Forall_forall in Hcs.
    apply Hcs. now apply nth_error_In with k. }
  assert (Hcn : is_nan (hd NaN c) = false).
  { rewrite Forall_forall in Hnan. apply Hnan. now apply nth_error_In with k. }
  destruct (reprs_of_nth hs k _ Hcut) as [lo Hlo].
  exists (hd NaN c), c, lo.
  split; [exact Hcut|]. split; [reflexivity|].
  split; [destruct c; [easy|reflexivity]|]. split; [|exact Hlo].
  rewrite assign_levels. cbn [map].
  enough (Hlev : level b (hd NaN c) = Z.of_nat (S k)) by now rewrite Hlev.
  assert (Hlarge : largest_index_ge (NInf :: hs) (hd NaN c) (S k)).
  { split.
    - exists (hd NaN c). split; [exact Hcut|]. now apply num_ge_refl.
    - intros [|j] bj Hj Hbj; [lia|]. cbn [nth_error] in Hbj.
      apply lt_not_ge.
      apply (strongly_sorted_nth lt hs k j); [assumption|lia|assumption|assumption]. }
  destruct (level_largest b (hd NaN c)) as (i' & Hi' & Hlarge').
  - now rewrite Hn, Hll.
  - rewrite Hl. apply StronglySorted_Sorted. constructor.
    + now apply strongly_sorted_lt_le.
    + eapply Forall_impl; [|exact Hnan]. intros h Hh. now apply num_ge_ninf.
  - now rewrite Hl.
  - exact Hcn.
  - rewrite Hi'. f_equal. rewrite Hl in Hlarge'.
    now apply (largest_index_unique (NInf :: hs) (hd NaN c)).
Qed.

(** C10 on the running example: 6, the cut between bins 1 and 2. *)
Lemma C10_cut_point_opens_its_bin_witness :
  exists cut c lo,
    nth_error (_Bins.lower_bounds bins_0_9) 2 = Some cut /\
    nth_error chunks_0_9 2 = Some c /\ hd_error c = Some cut /\
    _Bins.assign bins_0_9 (NumArr [cut]) false = inr (NumArr [of_Z (Z.of_nat 2)]) /\
    nth_error (_Bins.reprs bins_0_9) (2 - 1)
      = Some ("(" ++ lo ++ ", " ++ fmt2 cut ++ "]")%string.
Proof.
  apply (C10_cut_point_opens_its_bin chunks_0_9 bins_0_9 2).
  - reflexivity.
  - repeat constructor; discriminate.
  - repeat constructor.
  - simpl. lia.
Defined.

(** The amendment of C10 is needed: the constructor takes any chunks.
    From [[1], [2], [2]] it stores the cut 2 twice, as [lower_bounds[1]]
    and as [lower_bounds[2]], and the value 2, equal to
    [lower_bounds[1]], gets level 2, not 1. *)
Lemma C10_repeated_cut_counterexample :
  exists b,
    _Bins.__init__ [[of_Z 1]; [of_Z 2]; [of_Z 2]] = inr b /\
    nth_error (_Bins.lower_bounds b) 1 = Some (of_Z 2) /\
    _Bins.assign b (NumArr [of_Z 2]) false = inr (NumArr [of_Z 2]).
Proof.
  eexists. split; [reflexivity|]. split; reflexivity.
Qed.

(** ** The uniform strategy on [0 .. 9] *)

(** C3, as amended: with four bins the uniform strategy cuts
    [0, 1, ..., 9] into [0,1,2], [3,4,5], [6,7], [8,9], and the labels
    are ["(-Inf, 3.00]"], ["(3.00, 6.00]"], ["(6.00, 8.00]"] and
    ["(8.00, Inf]"]: two decimals, [(-Inf, x]] for the first bin and
    [(x, Inf]] for the last. *)
Theorem C3_uniform_0_9 :
  chunk (fst (np_unique sample_0_9)) 4 = chunks_0_9 /\
  _uniform sample_0_9 4 = inr bins_0_9 /\
  _Bins.reprs bins_0_9 =
    ["(-Inf, 3.00]"; "(3.00, 6.00]"; "(6.00, 8.00]"; "(8.00, Inf]"]%string.
Proof. repeat split; reflexivity. Qed.

(** C3 as first stated fails: the label of bin 1 opens on 3.00, the
    first element of its own chunk, not on 0.00. *)
Lemma C3_bin1_label_counterexample :
  exists b,
    _uniform sample_0_9 4 = inr b /\
    nth_error (_Bins.reprs b) 1 = Some "(3.00, 6.00]"%string /\
    nth_error (_Bins.reprs b) 1 <> Some "(0.00, 6.00]"%string.
Proof.
  exists bins_0_9. split; [reflexivity|]. split; [reflexivity|]. discriminate.
Qed.

(** ** [fit] and the state of the estimator *)

Section FitState.

Variable entropy_bin_bounds :
  list num -> list num -> list Z -> result (list (list num)).

(** [fit] raises what [fit_state] raises and leaves the estimator alone,
    or sets both attributes from what [fit_state] returns. *)
Lemma fit_unfold X self :
  fit entropy_bin_bounds X self =
  match fit_state entropy_bin_bounds self X with
  | inl e => (inl e, self)
  | inr (bins, fcols) => (inr tt, with_fit_state self bins fcols)
  end.
Proof.
  unfold BinningTransformer.fit, fit_state, mbind, lift, getattr.
  destruct (check_dataframe X (cols self) true) as [e|[X' cols']]; [reflexivity|].
  cbn [bind]. destruct (n_bins_dict (n_bins self) cols') as [e|d]; [reflexivity|].
  cbn [bind]. destruct (check_n_bins d) as [e|items]; [reflexivity|].
  cbn [bind].
  destruct (dict_get (_STRATEGIES entropy_bin_bounds) (strategy self)) as [binner|];
    [|reflexivity].
  cbn [bind ret].
  destruct (compute_bins binner X' items []) as [e|bins]; reflexivity.
Qed.

Lemma fit_state_unfitted self X : fit_state entropy_bin_bounds (unfitted self) X = fit_state entropy_bin_bounds self X.
Proof. reflexivity. Qed.

(** C5: [fit] is all or nothing on the FitState.  When it raises, the
    estimator, [bins_] and [fit_cols_] included, is what it was before
    the call; when it returns, [bins_] and [fit_cols_] are both replaced
    by the state computed in this call, the same state a fresh estimator
    with this configuration would get. *)
Theorem C5_fit_atomic (X : frame) (self : t) :
  (exists e, fit entropy_bin_bounds X self = (inl e, self)) \/
  (exists bins fcols,
     fit entropy_bin_bounds X self = (inr tt, with_fit_state self bins fcols) /\
     fit entropy_bin_bounds X (unfitted self) = (inr tt, with_fit_state self bins fcols)).
Proof.
  rewrite (fit_unfold X (unfitted self)), fit_unfold, fit_state_unfitted.
  destruct (fit_state entropy_bin_bounds self X) as [e|[bins fcols]].
  - left. now exists e.
  - right. exists bins, fcols. split; reflexivity.
Qed.

Lemma never_fitted_no_bins self : never_fitted entropy_bin_bounds self -> bins_ self = None.
Proof.
  induction 1 as [|self X e self' _ IH Hfit]; [reflexivity|].
  rewrite fit_unfold in Hfit. destruct (fit_state entropy_bin_bounds self X) as [e'|[bins fcols]].
  - injection Hfit as _ <-. exact IH.
  - discriminate.
Qed.

End FitState.

(** ** [transform] and its errors *)

Lemma validate_missing required available : forall c,
  In c required -> ~ In c available ->
  exists c', validate_test_set_columns required available = inl (MissingColumnError c') /\
             In c' required /\ ~ In c' available.
Proof.
  induction required as [|r rest IH]; intros c Hin Hnot; [easy|].
  simpl. destruct (existsb (String.eqb r) available) eqn:E.
  - destruct Hin as [->|Hin].
    + exfalso. apply Hnot. apply existsb_exists in E as (a & Ha & Heq).
      apply String.eqb_eq in Heq. now subst.
    + destruct (IH c Hin Hnot) as (c' & H1 & H2 & H3).
      exists c'. repeat split; [assumption|now right|assumption].
  - exists r. split; [reflexivity|]. split; [now left|].
    intros Hr. assert (existsb (String.eqb r) available = true) as H.
    { apply existsb_exists. exists r. split; [assumption|apply String.eqb_refl]. }
    rewrite H in E. discriminate.
Qed.

Lemma fitted_attrs ebb self :
  fitted ebb self ->
  exists bins fcols, bins_ self = Some bins /\ fit_cols_ self = Some fcols.
Proof.
  intros (X0 & self0 & Hfit). rewrite fit_unfold in Hfit.
  destruct (fit_state ebb self0 X0) as [e|[bins fcols]]; [discriminate|].
  injection Hfit as <-. now exists bins, fcols.
Qed.

(** C7: on an estimator on which [fit] has never succeeded, [transform]
    raises NotFittedError; on a fitted estimator and a table without one
    of the columns it was fit on, [transform] raises MissingColumnError
    for an absent fit column.  Either way no table comes back. *)
Theorem C7_transform_errors ebb (self : t) (X : frame) :
  (never_fitted ebb self ->
   exists msg, transform self X = inl (NotFittedError msg)) /\
  (fitted ebb self ->
   forall fcols c,
     fit_cols_ self = Some fcols -> In c fcols -> ~ In c (keys (columns X)) ->
     exists c', transform self X = inl (MissingColumnError c') /\
                In c' fcols /\ ~ In c' (keys (columns X))).
Proof.
  split.
  - intros H. apply never_fitted_no_bins in H.
    unfold transform, check_is_fitted. rewrite H. eexists. reflexivity.
  - intros Hfit fcols c Hcols Hin Hnot.
    destruct (fitted_attrs _ _ Hfit) as (bins & fcols' & Hb & Hc).
    rewrite Hcols in Hc. injection Hc as <-.
    destruct (validate_missing fcols (keys (columns X)) c Hin Hnot)
      as (c' & Hv & H1 & H2).
    exists c'. split; [|now split].
    unfold transform, check_is_fitted, check_dataframe. rewrite Hb, Hcols.
    cbn [andb bind ret]. rewrite Hv. reflexivity.
Qed.

(** ** Cardinality *)

Lemma chunk_from_length {A} n : forall (l : list A) k m,
  length (chunk_from l k m n) = n.
Proof. induction n as [|n IH]; intros l k m; simpl; [reflexivity|now rewrite IH]. Qed.

Lemma chunk_length {A} (l : list A) n : length (chunk l n) = n.
Proof. apply chunk_from_length. Qed.

Lemma chunk_from_nonempty {A} n : forall (l : list A) k m,
  length l = (k * n + m)%nat -> (1 <= k)%nat ->
  Forall (fun c => c <> []) (chunk_from l k m n).
Proof.
  induction n as [|n IH]; intros l k m Hlen Hk; simpl; [constructor|].
  constructor.
  - destruct l as [|a l]; [simpl in Hlen; nia|].
    destruct m, k; simpl; try discriminate; lia.
  - apply IH; [|assumption].
    rewrite length_skipn, Hlen. destruct m; simpl; nia.
Qed.

Lemma chunk_nonempty {A} (l : list A) n :
  (1 <= n <= length l)%nat -> Forall (fun c => c <> []) (chunk l n).
Proof.
  intros Hn. apply chunk_from_nonempty.
  - rewrite Nat.mul_comm. apply Nat.div_mod_eq.
  - apply Nat.div_le_lower_bound; lia.
Qed.

(** On non-empty chunks, one at least, the constructor succeeds. *)
Lemma init_succeeds chunks :
  chunks <> [] -> nonempty_chunks chunks ->
  exists b, _Bins.__init__ chunks = inr b.
Proof.
  intros Hne Hall. destruct chunks as [|c0 [|c1 rest]]; [easy| |].
  - rewrite init_one. inversion Hall as [|? ? H0 _]; subst.
    destruct c0; [easy|]. rewrite getitem_0_cons. eexists. reflexivity.
  - inversion Hall as [|? ? _ Hcs]; subst.
    rewrite init_two, (first_elems_nonempty _ Hcs). eexists. reflexivity.
Qed.

Lemma validate_fewer x n :
  distinct x < n -> _validate_n_bins x n = inl fewer_unique.
Proof.
  unfold distinct, _validate_n_bins. destruct (np_unique x) as [unique cts].
  simpl. intros H. apply Z.ltb_lt in H. now rewrite H.
Qed.

Lemma validate_enough x n :
  n <= distinct x -> _validate_n_bins x n = inr (np_unique x).
Proof.
  unfold distinct, _validate_n_bins. destruct (np_unique x) as [unique cts].
  simpl. intros H. apply Z.ltb_ge in H. now rewrite H.
Qed.

(** With enough distinct values the uniform strategy builds exactly the
    bins that were asked for. *)
Lemma uniform_enough x n :
  1 <= n <= distinct x ->
  exists b, _uniform x n = inr b /\ Z.of_nat (_Bins.n_bins b) = n.
Proof.
  intros Hn. unfold _uniform. rewrite validate_enough by lia.
  unfold distinct in Hn. destruct (np_unique x) as [unique cts].
  cbn [bind fst] in *.
  destruct (init_succeeds (chunk unique (Z.to_nat n))) as [b Hb].
  - intros H. apply (f_equal (@length _)) in H.
    rewrite chunk_length in H. simpl in H. lia.
  - apply chunk_nonempty. lia.
  - exists b. split; [assumption|].
    destruct (init_lengths _ _ Hb) as (-> & _). rewrite chunk_length. lia.
Qed.

Lemma check_n_bins_above_one d : forall items,
  check_n_bins d = inr items -> Forall (fun cn => 1 < snd cn) items.
Proof.
  induction d as [|[c v] d IH]; intros items H; simpl in H.
  - injection H as <-. constructor.
  - destruct v as [z|]; [|discriminate].
    destruct (1 <? z) eqn:E; [|discriminate].
    destruct (check_n_bins d) as [e|items']; [discriminate|].
    injection H as <-. constructor; [now apply Z.ltb_lt|now apply IH].
Qed.

Section Cardinality.

Variable entropy_bin_bounds :
  list num -> list num -> list Z -> result (list (list num)).

Lemma strategies_fewer binner s x n :
  dict_get (_STRATEGIES entropy_bin_bounds) s = Some binner ->
  distinct x < n -> binner x n = inl fewer_unique.
Proof.
  unfold _STRATEGIES. cbn [dict_get].
  destruct (String.eqb s "entropy").
  - intros [= <-] H. unfold _entropy. now rewrite validate_fewer.
  - destruct (String.eqb s "uniform"); [|discriminate].
    intros [= <-] H. unfold _uniform. now rewrite validate_fewer.
Qed.

(** A column with too few distinct values stops the loop over the
    columns, whatever the strategy. *)
Lemma compute_bins_fewer binner s X items : forall acc c n x,
  dict_get (_STRATEGIES entropy_bin_bounds) s = Some binner ->
  In (c, n) items -> getcol X c = inr (NumArr x) -> distinct x < n ->
  exists e, compute_bins binner X items acc = inl e.
Proof.
  induction items as [|[c' n'] items IH]; intros acc c n x Hs Hin Hc Hx; [easy|].
  simpl. destruct (getcol X c') as [e|v] eqn:Ev; [now exists e|].
  cbn [bind]. destruct Hin as [[= -> ->]|Hin].
  - rewrite Hc in Ev. injection Ev as <-.
    rewrite (strategies_fewer _ _ _ _ Hs Hx). now exists fewer_unique.
  - destruct (match v with
              | NumArr x0 => binner x0 n'
              | StrArr _ => raise (TypeError "must be real number, not str")
              end) as [e|b]; [now exists e|].
    cbn [bind]. now apply (IH _ c n x).
Qed.

(** Under the uniform strategy, on columns that are all there and
    numeric, the loop stops on the error of the first such column. *)
Lemma compute_bins_uniform_fewer X items : forall acc c n x,
  Forall (fun cn => 1 < snd cn) items ->
  Forall (fun cn => exists y, getcol X (fst cn) = inr (NumArr y)) items ->
  In (c, n) items -> getcol X c = inr (NumArr x) -> distinct x < n ->
  compute_bins _uniform X items acc = inl fewer_unique.
Proof.
  induction items as [|[c' n'] items IH]; intros acc c n x Hgt Hnum Hin Hc Hx; [easy|].
  inversion Hgt as [|? ? Hn' Hgt']; subst.
  inversion Hnum as [|? ? [y Hy] Hnum']; subst.
  cbn [fst snd] in *. simpl. rewrite Hy. cbn [bind].
  destruct (Z_lt_le_dec (distinct y) n') as [Hlt|Hge].
  - unfold _uniform. now rewrite validate_fewer.
  - destruct (uniform_enough y n') as (b & Hb & _); [lia|].
    rewrite Hb. cbn [bind].
    destruct Hin as [[= -> ->]|Hin].
    + rewrite Hc in Hy. injection Hy as <-. lia.
    + now apply (IH _ c n x).
Qed.

(** C6, as amended: a sample with fewer distinct values than bins makes
    [_validate_n_bins] and both strategies raise the error
    [ValueError("Fewer unique values than bins!")], which carries no
    column name; with at least [n] distinct values, equality included,
    validation passes and the uniform strategy builds exactly [n] bins;
    and [fit] on a table with a column short of distinct values raises
    and leaves the estimator as it was, with that very error under the
    uniform strategy when the requested columns are numeric columns of
    the table. *)
Theorem C6_insufficient_cardinality :
  (forall x n, distinct x < n ->
     _validate_n_bins x n = inl fewer_unique /\
     _uniform x n = inl fewer_unique /\
     _entropy entropy_bin_bounds x n = inl fewer_unique) /\
  (forall x n, 1 <= n <= distinct x ->
     _validate_n_bins x n = inr (np_unique x) /\
     exists b, _uniform x n = inr b /\ Z.of_nat (_Bins.n_bins b) = n) /\
  (forall X self items c n x,
     requested self X = inr items -> In (c, n) items ->
     getcol X c = inr (NumArr x) -> distinct x < n ->
     exists e, fit entropy_bin_bounds X self = (inl e, self)) /\
  (forall X self items c n x,
     strategy self = "uniform"%string ->
     requested self X = inr items ->
     Forall (fun cn => exists y, getcol X (fst cn) = inr (NumArr y)) items ->
     In (c, n) items -> getcol X c = inr (NumArr x) -> distinct x < n ->
     fit entropy_bin_bounds X self = (inl fewer_unique, self)).
Proof.
  split; [|split; [|split]].
  - intros x n H. split; [now apply validate_fewer|].
    unfold _uniform, _entropy. now rewrite validate_fewer.
  - intros x n H. split; [apply validate_enough; lia|now apply uniform_enough].
  - intros X self items c n x Hreq Hin Hc Hx.
    rewrite fit_unfold. unfold fit_state. unfold requested in Hreq.
    unfold check_dataframe in *.
    destruct (true && _); [discriminate|]. cbn [bind ret] in *.
    destruct (n_bins_dict _ _) as [e|d]; [discriminate|]. cbn [bind] in *.
    rewrite Hreq. cbn [bind].
    destruct (dict_get (_STRATEGIES entropy_bin_bounds) (strategy self))
      as [binner|] eqn:Es; [|eexists; reflexivity].
    cbn [bind ret].
    destruct (compute_bins_fewer binner _ X items [] c n x Es Hin Hc Hx) as [e He].
    rewrite He. now exists e.
  - intros X self items c n x Hs Hreq Hnum Hin Hc Hx.
    rewrite fit_unfold. unfold fit_state. unfold requested in Hreq.
    unfold check_dataframe in *.
    destruct (true && _); [discriminate|]. cbn [bind ret] in *.
    destruct (n_bins_dict _ _) as [e|d]; [discriminate|]. cbn [bind] in *.
    rewrite Hreq, Hs. cbn [bind _STRATEGIES dict_get String.eqb Ascii.eqb Bool.eqb ret].
    rewrite (compute_bins_uniform_fewer X items [] c n x); try assumption.
    + reflexivity.
    + now apply check_n_bins_above_one with d.
Qed.

End Cardinality.

(** C6 on the example: [price] stops [fit]; [age] alone gets its three
    bins. *)
Lemma C6_insufficient_cardinality_witness :
  _uniform price_values 3 = inl fewer_unique /\
  (exists b, _uniform age_values 3 = inr b /\ Z.of_nat (_Bins.n_bins b) = 3) /\
  (exists e, fit one_group_per_value X_train binner_age_price
             = (inl e, binner_age_price)) /\
  fit one_group_per_value X_train binner_age_price
    = (inl fewer_unique, binner_age_price).
Proof.
  pose proof (C6_insufficient_cardinality one_group_per_value)
    as (Hfewer & Henough & Hfit & Hfit_uniform).
  split; [|split; [|split]].
  - apply Hfewer. reflexivity.
  - apply Henough. split; discriminate.
  - apply (Hfit X_train binner_age_price
                [("age"%string, 3); ("price"%string, 3)] "price"%string 3 price_values).
    + reflexivity.
    + right. left. reflexivity.
    + reflexivity.
    + reflexivity.
  - apply (Hfit_uniform X_train binner_age_price
                [("age"%string, 3); ("price"%string, 3)] "price"%string 3 price_values).
    + reflexivity.
    + reflexivity.
    + constructor; [exists age_values; reflexivity|].
      constructor; [exists price_values; reflexivity|constructor].
    + right. left. reflexivity.
    + reflexivity.
    + reflexivity.
Defined.

(** C6 as first stated fails: [price] has two distinct values for three
    bins, [fit] raises, and the error names neither [price] nor any
    other column. *)
Lemma C6_error_names_no_column_counterexample :
  distinct price_values < 3 /\
  exists msg,
    fit one_group_per_value X_train binner_age_price
      = (inl (ValueError msg), binner_age_price) /\
    mentions msg "price" = false /\ mentions msg "age" = false.
Proof.
  split; [reflexivity|].
  exists "Fewer unique values than bins!"%string.
  split; [reflexivity|]. split; reflexivity.
Qed.

(** C7 on the example: [transform] before any [fit], and [transform]
    after a [fit] on [age] of a table without [age]. *)
Lemma C7_transform_errors_witness :
  (exists msg, transform binner_age X_train = inl (NotFittedError msg)) /\
  (exists c',
     transform (snd (fit one_group_per_value X_train binner_age)) X_test_no_age
       = inl (MissingColumnError c') /\
     In c' ["age"%string] /\ ~ In c' (keys (columns X_test_no_age))).
Proof.
  split.
  - apply (proj1 (C7_transform_errors one_group_per_value binner_age X_train)).
    constructor.
  - apply (proj2 (C7_transform_errors one_group_per_value
                    (snd (fit one_group_per_value X_train binner_age))
                    X_test_no_age))
      with (c := "age"%string).
    + exists X_train, binner_age. reflexivity.
    + reflexivity.
    + left. reflexivity.
    + simpl. intros [H|[]]. discriminate H.
Defined.

(** ** Dictionaries and frames *)

Section DictFacts.

Context {V : Type}.

Implicit Types (d : dict V) (k : string) (v : V).

Lemma dict_get_set_same d k v : dict_get (dict_set d k v) k = Some v.
Proof.
  induction d as [|[k' v'] d IH]; simpl.
  - now rewrite String.eqb_refl.
  - destruct (String.eqb k k') eqn:E; simpl.
    + now rewrite String.eqb_refl.
    + now rewrite E.
Qed.

Lemma dict_get_set_other d k k' v :
  k' <> k -> dict_get (dict_set d k v) k' = dict_get d k'.
Proof.
  intros Hne. induction d as [|[k0 v0] d IH]; simpl.
  - apply String.eqb_neq in Hne. now rewrite Hne.
  - destruct (String.eqb k k0) eqn:E; simpl.
    + apply String.eqb_eq in E. subst k0.
      apply String.eqb_neq in Hne. now rewrite Hne.
    + destruct (String.eqb k' k0); [reflexivity|exact IH].
Qed.

Lemma dict_get_in_keys d k v : dict_get d k = Some v -> In k (keys d).
Proof.
  induction d as [|[k' v'] d IH]; simpl; [discriminate|].
  destruct (String.eqb k k') eqn:E.
  - apply String.eqb_eq in E. now left.
  - intros H. right. now apply IH.
Qed.

Lemma in_keys_dict_get d k : In k (keys d) -> exists v, dict_get d k = Some v.
Proof.
  induction d as [|[k' v'] d IH]; simpl; [easy|].
  intros H. destruct (String.eqb k k') eqn:E; [now exists v'|].
  destruct H as [H|H]; [|now apply IH].
  apply String.eqb_neq in E. now subst.
Qed.

Lemma dict_set_forall (P : string * V -> Prop) d k v :
  Forall P d -> P (k, v) -> Forall P (dict_set d k v).
Proof.
  intros Hd Hkv. induction Hd as [|[k' v'] d Hk' Hd IH]; simpl.
  - now constructor.
  - destruct (String.eqb k k'); now constructor.
Qed.

Lemma dict_of_keys (pairs : list (string * V)) : forall (acc : dict V) k,
  In k (map fst pairs) \/ In k (keys acc) ->
  In k (keys (fold_left (fun d kv => dict_set d (fst kv) (snd kv)) pairs acc)).
Proof.
  induction pairs as [|[k0 v0] pairs IH]; intros acc k H; simpl.
  - now destruct H.
  - apply IH. simpl in H. destruct H as [[<-|H]|H].
    + right. apply dict_get_in_keys with v0. apply dict_get_set_same.
    + now left.
    + right. destruct (String.eqb_spec k k0) as [->|Hne].
      * apply dict_get_in_keys with v0. apply dict_get_set_same.
      * apply in_keys_dict_get in H as [v Hv].
        apply dict_get_in_keys with v. now rewrite dict_get_set_other.
Qed.

End DictFacts.

Lemma map_fst_combine {A B} (l : list A) : forall (l' : list B),
  length l = length l' -> map fst (combine l l') = l.
Proof.
  induction l as [|a l IH]; intros [|b l'] H; simpl in *; try easy.
  f_equal. apply IH. now injection H.
Qed.

Lemma string_length_append (s1 s2 : string) :
  String.length (s1 ++ s2) = (String.length s1 + String.length s2)%nat.
Proof. induction s1 as [|a s1 IH]; simpl; [reflexivity|now rewrite IH]. Qed.

(** Two columns with the same derived name are the same column. *)
Lemma append_inv_suffix (s1 : string) : forall s2 t : string,
  (s1 ++ t)%string = (s2 ++ t)%string -> s1 = s2.
Proof.
  induction s1 as [|a s1 IH]; intros [|b s2] t H; simpl in H.
  - reflexivity.
  - apply (f_equal String.length) in H. simpl in H.
    rewrite string_length_append in H. lia.
  - apply (f_equal String.length) in H. simpl in H.
    rewrite string_length_append in H. lia.
  - injection H as -> H. f_equal. now apply IH with t.
Qed.

(** ** What a successful [fit] leaves behind *)

Lemma n_bins_dict_keys n cols d :
  n_bins_dict n cols = inr d -> forall c, In c cols -> In c (keys d).
Proof.
  unfold n_bins_dict. destruct n as [z|l|d0|]; cbn [is_iterable]; try discriminate.
  - intros [= <-] c Hc. apply dict_of_keys. left.
    rewrite map_map. simpl. now rewrite map_id.
  - destruct (Nat.eqb (length l) (length cols)) eqn:E; [|discriminate].
    cbn [negb]. intros [= <-] c Hc. apply dict_of_keys. left.
    apply Nat.eqb_eq in E. now rewrite map_fst_combine.
  - destruct (negb (Nat.eqb (length d0) (length cols))); [discriminate|].
    destruct (filter _ cols) as [|c0 l0] eqn:E1; [|discriminate].
    destruct (filter _ (keys d0)); [|discriminate].
    intros [= <-] c Hc.
    destruct (existsb (String.eqb c) (keys d0)) eqn:E.
    + apply existsb_exists in E as (k & Hk & Heq).
      apply String.eqb_eq in Heq. now subst.
    + assert (H : In c (filter (fun c => negb (existsb (String.eqb c) (keys d0))) cols)).
      { apply filter_In. split; [assumption|]. now rewrite E. }
      rewrite E1 in H. destruct H.
Qed.

Lemma check_n_bins_keys d : forall items,
  check_n_bins d = inr items -> keys items = keys d.
Proof.
  induction d as [|[c v] d IH]; intros items H; simpl in H.
  - now injection H as <-.
  - destruct v as [z|]; [|discriminate].
    destruct (1 <? z); [|discriminate].
    destruct (check_n_bins d) as [e|items']; [discriminate|].
    injection H as <-. simpl. f_equal. now apply IH.
Qed.

Lemma compute_bins_keys binner X items : forall acc bins,
  (forall x n b, binner x n = inr b -> is_Bins b) ->
  compute_bins binner X items acc = inr bins ->
  Forall (fun cb => is_Bins (snd cb)) acc ->
  Forall (fun cb => is_Bins (snd cb)) bins /\
  (forall c, In c (keys items) \/ In c (keys acc) -> In c (keys bins)).
Proof.
  induction items as [|[c n] items IH]; intros acc bins Hb H Hacc; simpl in H.
  - injection H as <-. split; [assumption|]. now intros c [[]|H].
  - destruct (getcol X c) as [e|v]; [discriminate|]. cbn [bind] in H.
    destruct v as [x|l]; [|discriminate].
    destruct (binner x n) as [e|b] eqn:Eb; [discriminate|]. cbn [bind] in H.
    destruct (IH _ _ Hb H) as [IH1 IH2].
    + apply dict_set_forall; [assumption|]. simpl. now apply Hb with x n.
    + split; [assumption|]. intros c' Hc'. apply IH2.
      simpl in Hc'. destruct Hc' as [[<-|Hc']|Hc'].
      * right. apply dict_get_in_keys with b. apply dict_get_set_same.
      * now left.
      * right. destruct (String.eqb_spec c' c) as [->|Hne].
        -- apply dict_get_in_keys with b. apply dict_get_set_same.
        -- apply in_keys_dict_get in Hc' as [v Hv].
           apply dict_get_in_keys with v. now rewrite dict_get_set_other.
Qed.

Lemma strategies_build_Bins ebb s binner :
  dict_get (_STRATEGIES ebb) s = Some binner ->
  forall x n b, binner x n = inr b -> is_Bins b.
Proof.
  unfold _STRATEGIES. cbn [dict_get].
  destruct (String.eqb s "entropy").
  - intros [= <-] x n b. unfold _entropy.
    destruct (_validate_n_bins x n) as [e|[unique cts]]; [discriminate|].
    cbn [bind]. destruct (ebb x unique cts) as [e|chunks]; [discriminate|].
    cbn [bind]. intros H. now exists chunks.
  - destruct (String.eqb s "uniform"); [|discriminate].
    intros [= <-] x n b. unfold _uniform.
    destruct (_validate_n_bins x n) as [e|[unique cts]]; [discriminate|].
    cbn [bind]. intros H. now exists (chunk unique (Z.to_nat n)).
Qed.

(** After a [fit] that succeeded there is a [_Bins] object for every
    column the estimator was fit on. *)
Lemma fitted_bins ebb self :
  fitted ebb self ->
  exists bins fcols,
    bins_ self = Some bins /\ fit_cols_ self = Some fcols /\
    forall c, In c fcols -> exists b, dict_get bins c = Some b /\ is_Bins b.
Proof.
  intros (X0 & self0 & Hfit). rewrite fit_unfold in Hfit.
  unfold fit_state, check_dataframe in Hfit.
  destruct (true && _) in Hfit; [discriminate|]. cbn [bind ret] in Hfit.
  set (cols0 := match cols self0 with
                | Some c => c
                | None => keys (columns X0)
                end) in *.
  destruct (n_bins_dict (n_bins self0) cols0) as [e|d] eqn:Ed; [discriminate|].
  cbn [bind] in Hfit.
  destruct (check_n_bins d) as [e|items] eqn:Ei; [discriminate|].
  cbn [bind] in Hfit.
  destruct (dict_get (_STRATEGIES ebb) (strategy self0)) as [binner|] eqn:Es;
    [|discriminate].
  cbn [bind ret] in Hfit.
  destruct (compute_bins binner X0 items []) as [e|bins] eqn:Ec; [discriminate|].
  cbn [bind ret] in Hfit. injection Hfit as <-.
  exists bins, cols0. split; [reflexivity|]. split; [reflexivity|].
  destruct (compute_bins_keys binner X0 items [] bins
              (strategies_build_Bins _ _ _ Es) Ec (Forall_nil _)) as [Hall Hkeys].
  intros c Hc.
  assert (Hin : In c (keys bins)).
  { apply Hkeys. left. rewrite (check_n_bins_keys _ _ Ei).
    now apply (n_bins_dict_keys _ _ _ Ed). }
  apply in_keys_dict_get in Hin as [b Hb]. exists b. split; [assumption|].
  rewrite Forall_forall in Hall.
  assert (Hcb : exists k, In (k, b) bins).
  { clear -Hb. induction bins as [|[k v] bins IH]; simpl in Hb; [discriminate|].
    destruct (String.eqb c k).
    - injection Hb as ->. exists k. now left.
    - destruct (IH Hb) as [k' Hk']. exists k'. now right. }
  destruct Hcb as [k Hk]. exact (Hall _ Hk).
Qed.

(** ** [assign] always returns on numbers *)

Lemma getitem_in_range {A} (l : list A) i :
  - Z.of_nat (length l) <= i < Z.of_nat (length l) ->
  exists a, getitem l i = inr a.
Proof.
  intros Hi. unfold getitem.
  set (j := if i <? 0 then i + Z.of_nat (length l) else i).
  assert (Hj : 0 <= j < Z.of_nat (length l)).
  { unfold j. destruct (i <? 0) eqn:E; [apply Z.ltb_lt in E|apply Z.ltb_ge in E]; lia. }
  replace (0 <=? j) with true by (symmetry; apply Z.leb_le; lia).
  replace (j <? Z.of_nat (length l)) with true by (symmetry; apply Z.ltb_lt; lia).
  cbn [andb].
  destruct (nth_error l (Z.to_nat j)) as [a|] eqn:E; [now exists a|].
  apply nth_error_None in E. lia.
Qed.

Lemma mapM_total {A B} (f : A -> result B) l :
  Forall (fun a => exists b, f a = inr b) l ->
  exists out, mapM f l = inr out /\ length out = length l.
Proof.
  induction 1 as [|a l [b Hb] _ (out & Hout & Hlen)]; simpl.
  - now exists [].
  - rewrite Hb, Hout. exists (b :: out). simpl. now rewrite Hlen.
Qed.

(** On an array of numbers [assign] returns an array of the same length,
    labels or levels. *)
Lemma assign_total b v as_str :
  is_Bins b ->
  exists out, _Bins.assign b (NumArr v) as_str = inr out /\ shape0 out = length v.
Proof.
  intros Hb. destruct as_str.
  - cbn [_Bins.assign]. unfold _Bins.finish. rewrite levels_pointwise.
    destruct (is_Bins_reprs _ Hb) as [Hr Hn].
    destruct (mapM_total (getitem (_Bins.reprs b)) (map (level b) v))
      as (labels & Hl & Hlen).
    + apply Forall_map, Forall_forall. intros x _.
      apply getitem_in_range. rewrite Hr.
      pose proof (level_lower b x Hb). pose proof (level_upper b x). lia.
    + rewrite Hl. cbn [bind ret]. rewrite length_map in Hlen.
      destruct labels as [|s labels]; eexists; (split; [reflexivity|]);
        simpl in *; lia.
  - rewrite assign_levels. eexists. split; [reflexivity|].
    simpl. now rewrite !length_map.
Qed.

Lemma wf_frame_shape X c a :
  wf_frame X -> dict_get (columns X) c = Some a -> shape0 a = nrows X.
Proof.
  unfold wf_frame. intros Hwf. induction Hwf as [|[k v] d Hk _ IH]; simpl.
  - discriminate.
  - destruct (String.eqb c k); [|exact IH]. now intros [= <-].
Qed.

Lemma values_length X : length (values X) = nrows X.
Proof. unfold values. now rewrite length_map, length_seq. Qed.

(** ** [transform] with [overwrite] off *)

Section Append.

Variables (self : t) (bins : dict _Bins.t) (fcols : list string) (X : frame).

Hypothesis overwrite_off : overwrite self = false.

Hypothesis bins_there :
  forall c, In c fcols -> exists b, dict_get bins c = Some b /\ is_Bins b.

Hypothesis X_wf : wf_frame X.

Hypothesis numeric :
  forall c, In c fcols -> exists x, getcol X c = inr (NumArr x).

Hypothesis no_collision :
  forall c d, In c fcols -> In d fcols -> c <> binned_name d.

Lemma getcol_dict_get Y c a : getcol Y c = inr a <-> dict_get (columns Y) c = Some a.
Proof.
  unfold getcol, dict_item. destruct (dict_get (columns Y) c); split; intros H;
    try discriminate; now injection H as <-.
Qed.

Lemma transform_col_appended done Xk col :
  In col fcols -> incl done fcols -> appended self bins fcols X done Xk ->
  exists X', transform_col self bins Xk col = inr X' /\ appended self bins fcols X (col :: done) X'.
Proof.
  intros Hcol Hdone (Hrows & Hwf & Hkeep & Hdone').
  destruct (bins_there col Hcol) as (b & Hb & HB).
  destruct (numeric col Hcol) as (x & Hx).
  assert (Hxk : getcol Xk col = inr (NumArr x)).
  { apply getcol_dict_get. rewrite Hkeep; [now apply getcol_dict_get|].
    intros c Hc. now apply no_collision. }
  destruct (assign_total b x (return_bin_label self) HB) as (binned & Hbinned & Hshape).
  assert (Hlen : length x = nrows X).
  { apply getcol_dict_get in Hx. exact (wf_frame_shape X col _ X_wf Hx). }
  assert (Hexp : expected self bins X col = inr binned).
  { unfold expected, dict_item. rewrite Hb. cbn [bind ret]. rewrite Hx. exact Hbinned. }
  exists (setcol Xk (binned_name col) binned). split.
  - unfold transform_col, dict_item. rewrite Hb. cbn [bind ret].
    rewrite Hxk. cbn [bind]. rewrite Hbinned. cbn [bind].
    now rewrite overwrite_off.
  - split; [exact Hrows|]. split; [|split].
    + unfold wf_frame, setcol. cbn [columns nrows].
      apply dict_set_forall; [exact Hwf|]. simpl. congruence.
    + intros k Hk. cbn [setcol columns].
      rewrite dict_get_set_other; [now apply Hkeep|]. now apply Hk.
    + intros c Hc. cbn [setcol columns].
      destruct (String.eqb_spec (binned_name c) (binned_name col)) as [Heq|Hne].
      * apply append_inv_suffix in Heq. subst c.
        exists binned. split; [assumption|]. split; [congruence|].
        apply dict_get_set_same.
      * destruct Hc as [->|Hc]; [easy|].
        destruct (Hdone' c Hc) as (binned' & H1 & H2 & H3).
        exists binned'. split; [assumption|]. split; [assumption|].
        now rewrite dict_get_set_other.
Qed.

Lemma transform_loop_appended rest : forall done Xk,
  incl rest fcols -> incl done fcols -> appended self bins fcols X done Xk ->
  exists X', transform_loop self bins rest Xk = inr X' /\
             appended self bins fcols X (rev rest ++ done) X'.
Proof.
  induction rest as [|col rest IH]; intros done Xk Hrest Hdone Hinv.
  - exists Xk. now split.
  - assert (Hcol : In col fcols) by (apply Hrest; now left).
    destruct (transform_col_appended done Xk col Hcol Hdone Hinv) as (X1 & H1 & Hinv1).
    destruct (IH (col :: done) X1) as (X' & H' & Hinv').
    + intros c Hc. apply Hrest. now right.
    + intros c [<-|Hc]; [assumption|now apply Hdone].
    + assumption.
    + exists X'. split.
      * simpl. rewrite H1. exact H'.
      * simpl. now rewrite <- app_assoc.
Qed.

End Append.

(** With [overwrite] off, on a table that holds every fit column as a
    column of numbers and no fit column named like a derived column,
    [transform] returns and appends the bins. *)
Lemma transform_appends ebb (self : t) (X : frame) :
  fitted ebb self ->
  overwrite self = false ->
  wf_frame X ->
  (forall c fcols, fit_cols_ self = Some fcols -> In c fcols ->
                   exists x, getcol X c = inr (NumArr x)) ->
  (forall c d fcols, fit_cols_ self = Some fcols -> In c fcols -> In d fcols ->
                     c <> binned_name d) ->
  exists X' bins fcols,
    bins_ self = Some bins /\ fit_cols_ self = Some fcols /\
    transform self X
      = inr (if as_df self then DataFrame X' else Values (values X')) /\
    nrows X' = nrows X /\ wf_frame X' /\ length (values X') = nrows X /\
    (forall k, (forall c, In c fcols -> k <> binned_name c) ->
               dict_get (columns X') k = dict_get (columns X) k) /\
    (forall c, In c fcols ->
       getcol X' c = getcol X c /\
       exists b v binned,
         dict_get bins c = Some b /\ getcol X c = inr v /\
         _Bins.assign b v (return_bin_label self) = inr binned /\
         shape0 binned = nrows X /\
         getcol X' (binned_name c) = inr binned).
Proof.
  intros Hfit Hover Hwf Hnum Hcoll.
  destruct (fitted_bins _ _ Hfit) as (bins & fcols & Hb & Hc & Hbins).
  specialize (fun c => Hnum c fcols Hc).
  specialize (fun c d => Hcoll c d fcols Hc).
  destruct (transform_loop_appended self bins fcols X Hover Hbins Hwf Hnum Hcoll
              fcols [] X) as (X' & Hloop & Hrows & Hwf' & Hkeep & Hdone).
  - apply incl_refl.
  - easy.
  - split; [reflexivity|]. split; [assumption|]. split; [reflexivity|]. easy.
  - exists X', bins, fcols.
    split; [assumption|]. split; [assumption|]. split.
    { unfold transform, check_is_fitted, check_dataframe. rewrite Hb, Hc.
      cbn [andb bind ret].
      assert (Hv : validate_test_set_columns fcols (keys (columns X)) = inr tt).
      { clear -Hnum. induction fcols as [|c fcols IH]; [reflexivity|].
        simpl. destruct (Hnum c (or_introl eq_refl)) as [x Hx].
        assert (E : existsb (String.eqb c) (keys (columns X)) = true).
        { apply existsb_exists. exists c. split; [|apply String.eqb_refl].
          apply dict_get_in_keys with (NumArr x).
          unfold getcol, dict_item in Hx.
          destruct (dict_get (columns X) c); [now injection Hx as ->|discriminate]. }
        rewrite E. apply IH. intros c' Hc'. apply Hnum. now right. }
      rewrite Hv. cbn [bind]. rewrite Hloop. reflexivity. }
    split; [assumption|]. split; [assumption|].
    split; [rewrite values_length; assumption|].
    split; [assumption|].
    intros c Hin. split.
    + unfold getcol, dict_item. rewrite Hkeep; [reflexivity|].
      intros d Hd. now apply Hcoll.
    + destruct (Hdone c) as (binned & Hexp & Hshape & Hget).
      { apply in_or_app. left. now apply in_rev in Hin. }
      destruct (Hbins c Hin) as (b & Hbc & _).
      destruct (Hnum c Hin) as (x & Hx).
      exists b, (NumArr x), binned.
      split; [assumption|]. split; [assumption|].
      unfold expected, dict_item in Hexp. rewrite Hbc, Hx in Hexp.
      cbn [bind ret] in Hexp.
      split; [assumption|]. split; [assumption|].
      unfold getcol, dict_item. now rewrite Hget.
Qed.

(** ** The rows [transform] returns *)

Lemma mapM_length {A B} (f : A -> result B) l : forall out,
  mapM f l = inr out -> length out = length l.
Proof.
  induction l as [|a l IH]; intros out H; simpl in H.
  - now injection H as <-.
  - destruct (f a) as [e|b]; [discriminate|]. cbn [bind] in H.
    destruct (mapM f l) as [e|bs]; [discriminate|]. cbn [bind ret] in H.
    injection H as <-. simpl. f_equal. now apply IH.
Qed.

Lemma finish_shape b bins as_str out :
  _Bins.finish b bins as_str = inr out -> shape0 out = length bins.
Proof.
  unfold _Bins.finish. destruct as_str.
  - destruct (mapM (getitem (_Bins.reprs b)) bins) as [e|labels] eqn:E;
      [discriminate|].
    cbn [bind ret]. intros [= <-]. apply mapM_length in E.
    destruct labels; simpl in *; lia.
  - intros [= <-]. simpl. now rewrite length_map.
Qed.

(** Whatever [assign] returns has one entry per entry of its input. *)
Lemma assign_shape b v as_str out :
  _Bins.assign b v as_str = inr out -> shape0 out = shape0 v.
Proof.
  destruct v as [x|l]; cbn [_Bins.assign shape0].
  - intros H. apply finish_shape in H. rewrite H, levels_pointwise.
    apply length_map.
  - destruct l as [|s l]; [|destruct (_Bins.lower_bounds b); [|discriminate]];
      intros H; apply finish_shape in H; rewrite H; apply repeat_length.
Qed.

Lemma transform_col_frame self bins Xk col X' :
  transform_col self bins Xk col = inr X' -> wf_frame Xk ->
  nrows X' = nrows Xk /\ wf_frame X' /\
  (forall k, k <> target self col ->
             dict_get (columns X') k = dict_get (columns Xk) k).
Proof.
  unfold transform_col, target. intros H Hwf.
  destruct (dict_item bins col) as [e|b]; [discriminate|]. cbn [bind] in H.
  destruct (getcol Xk col) as [e|v] eqn:Ev; [discriminate|]. cbn [bind] in H.
  destruct (_Bins.assign b v (return_bin_label self)) as [e|binned] eqn:Eb;
    [discriminate|].
  cbn [bind] in H.
  assert (Hshape : shape0 binned = nrows Xk).
  { rewrite (assign_shape _ _ _ _ Eb).
    apply getcol_dict_get in Ev. exact (wf_frame_shape Xk col v Hwf Ev). }
  destruct (overwrite self); injection H as <-; cbn [setcol nrows columns];
    (split; [reflexivity|]); (split; [now apply dict_set_forall|]);
    intros k Hk; now apply dict_get_set_other.
Qed.

Lemma transform_loop_frame self bins fcols : forall Xk X',
  transform_loop self bins fcols Xk = inr X' -> wf_frame Xk ->
  nrows X' = nrows Xk /\ wf_frame X' /\
  (forall k, (forall c, In c fcols -> k <> target self c) ->
             dict_get (columns X') k = dict_get (columns Xk) k).
Proof.
  induction fcols as [|col rest IH]; intros Xk X' H Hwf; simpl in H.
  - injection H as <-. now repeat split.
  - destruct (transform_col self bins Xk col) as [e|X1] eqn:E1; [discriminate|].
    cbn [bind] in H.
    destruct (transform_col_frame _ _ _ _ _ E1 Hwf) as (Hr1 & Hwf1 & Hk1).
    destruct (IH _ _ H Hwf1) as (Hr & Hwf' & Hk).
    split; [congruence|]. split; [assumption|].
    intros k Hne. rewrite Hk, Hk1; [reflexivity| |].
    + apply Hne. now left.
    + intros c Hc. apply Hne. now right.
Qed.

(** C9, as amended: on a fitted estimator, whatever [transform] returns
    has the rows of its input table, in every column one entry per row,
    and every column it does not write to unchanged; with [overwrite]
    off, on a table that holds every fit column as a column of numbers,
    and no fit column named like the derived column of a fit column,
    [transform] returns, every fit column [c] keeps its original values
    and a column [c + "_binned"] holds what [assign] gives for the
    values of [c], one bin per row. *)
Theorem C9_transform_appends ebb (self : t) (X : frame) :
  fitted ebb self ->
  wf_frame X ->
  (forall out, transform self X = inr out ->
     exists X' fcols,
       fit_cols_ self = Some fcols /\
       out = (if as_df self then DataFrame X' else Values (values X')) /\
       nrows X' = nrows X /\ wf_frame X' /\ length (values X') = nrows X /\
       (forall k, (forall c, In c fcols -> k <> target self c) ->
                  dict_get (columns X') k = dict_get (columns X) k)) /\
  (overwrite self = false ->
   (forall c fcols, fit_cols_ self = Some fcols -> In c fcols ->
                    exists x, getcol X c = inr (NumArr x)) ->
   (forall c d fcols, fit_cols_ self = Some fcols -> In c fcols -> In d fcols ->
                      c <> binned_name d) ->
   exists X' bins fcols,
     bins_ self = Some bins /\ fit_cols_ self = Some fcols /\
     transform self X
       = inr (if as_df self then DataFrame X' else Values (values X')) /\
     nrows X' = nrows X /\ wf_frame X' /\ length (values X') = nrows X /\
     (forall k, (forall c, In c fcols -> k <> binned_name c) ->
                dict_get (columns X') k = dict_get (columns X) k) /\
     (forall c, In c fcols ->
        getcol X' c = getcol X c /\
        exists b v binned,
          dict_get bins c = Some b /\ getcol X c = inr v /\
          _Bins.assign b v (return_bin_label self) = inr binned /\
          shape0 binned = nrows X /\
          getcol X' (binned_name c) = inr binned)).
Proof.
  intros Hfit Hwf. split.
  - intros out Hout.
    destruct (fitted_attrs _ _ Hfit) as (bins & fcols & Hb & Hc).
    unfold transform, check_is_fitted, check_dataframe in Hout.
    rewrite Hb, Hc in Hout. cbn [andb bind ret] in Hout.
    destruct (validate_test_set_columns fcols (keys (columns X))) as [e|[]];
      [discriminate|].
    cbn [bind] in Hout.
    destruct (transform_loop self bins fcols X) as [e|X'] eqn:Eloop; [discriminate|].
    cbn [bind ret] in Hout. injection Hout as <-.
    destruct (transform_loop_frame _ _ _ _ _ Eloop Hwf) as (Hr & Hwf' & Hk).
    exists X', fcols. split; [assumption|]. split; [reflexivity|].
    split; [assumption|]. split; [assumption|].
    split; [now rewrite values_length|assumption].
  - intros Hover Hnum Hcoll. now apply (transform_appends ebb).
Qed.

(** C9 on the example: fit on [age], transform the same table. *)
Lemma C9_transform_appends_witness :
  exists X' bins fcols,
    bins_ (snd (fit one_group_per_value X_train binner_age)) = Some bins /\
    fit_cols_ (snd (fit one_group_per_value X_train binner_age)) = Some fcols /\
    transform (snd (fit one_group_per_value X_train binner_age)) X_train
      = inr (if as_df (snd (fit one_group_per_value X_train binner_age))
             then DataFrame X' else Values (values X')) /\
    nrows X' = nrows X_train /\ wf_frame X' /\
    length (values X') = nrows X_train /\
    (forall k, (forall c, In c fcols -> k <> binned_name c) ->
               dict_get (columns X') k = dict_get (columns X_train) k) /\
    (forall c, In c fcols ->
       getcol X' c = getcol X_train c /\
       exists b v binned,
         dict_get bins c = Some b /\ getcol X_train c = inr v /\
         _Bins.assign b v
           (return_bin_label (snd (fit one_group_per_value X_train binner_age)))
           = inr binned /\
         shape0 binned = nrows X_train /\
         getcol X' (binned_name c) = inr binned).
Proof.
  apply (C9_transform_appends one_group_per_value).
  - exists X_train, binner_age. reflexivity.
  - repeat constructor.
  - reflexivity.
  - intros c fcols [= <-] [<-|[]]. eexists. reflexivity.
  - intros c d fcols [= <-] [<-|[]] [<-|[]]. discriminate.
Defined.

(** C9 as first stated fails when a fit column is named like the derived
    column of another: [transform] returns, and binning [a] has written
    over the fit column [a_binned], which does not keep its values. *)
Lemma C9_derived_name_collision_counterexample :
  fitted one_group_per_value
         (snd (fit one_group_per_value X_collide binner_collide)) /\
  overwrite (snd (fit one_group_per_value X_collide binner_collide)) = false /\
  fit_cols_ (snd (fit one_group_per_value X_collide binner_collide))
    = Some ["a"; "a_binned"]%string /\
  wf_frame X_collide /\
  exists X',
    transform (snd (fit one_group_per_value X_collide binner_collide)) X_collide
      = inr (DataFrame X') /\
    getcol X_collide "a_binned" = inr (NumArr [of_Z 10; of_Z 20; of_Z 30]) /\
    getcol X' "a_binned" = inr (NumArr [of_Z 0; of_Z 0; of_Z 1]) /\
    getcol X' "a_binned" <> getcol X_collide "a_binned".
Proof.
  split; [exists X_collide, binner_collide; reflexivity|].
  split; [reflexivity|]. split; [reflexivity|].
  split; [repeat constructor|].
  eexists. split; [reflexivity|]. split; [reflexivity|].
  split; [reflexivity|]. discriminate.
Qed.
(** ** The chunks of the uniform strategy

    On a sample without NaN the uniform strategy hands the constructor
    non-empty chunks of distinct ascending values: the objects it builds
    are among those the statements on chunks cover. *)

Lemma sort_le_total x y : sort_le x y = false -> sort_le y x = true.
Proof.
  unfold sort_le, num_le. destruct x, y; simpl; try easy.
  intros H. apply Qle_bool_iff.
  destruct (Qlt_le_dec q0 q) as [Hlt|Hle].
  - now apply Qlt_le_weak.
  - apply Qle_bool_iff in Hle. congruence.
Qed.

Lemma insert_sorted_hd x a l :
  sort_le a x = true -> HdRel (fun u v => sort_le u v = true) a l ->
  HdRel (fun u v => sort_le u v = true) a (insert_sorted x l).
Proof.
  intros Hax Hl. destruct l as [|y l]; simpl; [now constructor|].
  destruct (sort_le x y); constructor; [assumption|now inversion Hl].
Qed.

Lemma insert_sorted_sorted x l :
  Sorted (fun u v => sort_le u v = true) l ->
  Sorted (fun u v => sort_le u v = true) (insert_sorted x l).
Proof.
  induction 1 as [|y l Hl IH Hhd]; simpl; [repeat constructor|].
  destruct (sort_le x y) eqn:E.
  - constructor; [now constructor|now constructor].
  - constructor; [assumption|].
    apply insert_sorted_hd; [now apply sort_le_total|assumption].
Qed.

Lemma np_sort_sorted l : Sorted (fun u v => sort_le u v = true) (np_sort l).
Proof.
  induction l as [|x l IH]; simpl; [constructor|now apply insert_sorted_sorted].
Qed.

Lemma insert_sorted_in x l y : In y (insert_sorted x l) -> y = x \/ In y l.
Proof.
  induction l as [|z l IH]; simpl.
  - intros [<-|[]]. now left.
  - destruct (sort_le x z); simpl.
    + intros [<-|H]; [now left|now right].
    + intros [<-|H]; [right; now left|].
      destruct (IH H) as [->|H']; [now left|right; now right].
Qed.

Lemma np_sort_in l y : In y (np_sort l) -> In y l.
Proof.
  induction l as [|x l IH]; simpl; [easy|].
  intros H. destruct (insert_sorted_in _ _ _ H) as [->|H']; [now left|right; auto].
Qed.

Lemma sorted_no_nan l :
  Forall (fun x => is_nan x = false) l ->
  Sorted (fun u v => sort_le u v = true) l -> Sorted le l.
Proof.
  intros Hnan HS. induction HS as [|x l _ IH Hhd]; [constructor|].
  inversion Hnan as [|? ? _ Hnan']; subst.
  constructor; [now apply IH|].
  destruct Hhd as [|y l Hxy]; constructor.
  inversion Hnan' as [|? ? Hy _]; subst.
  unfold sort_le in Hxy. now rewrite Hy in Hxy.
Qed.

Lemma runs_hd x l : exists c g, runs (x :: l) = (x, c) :: g.
Proof.
  simpl. destruct (hd_error l) as [y|]; [|now eexists _, _].
  destruct (runs l) as [|[z c] g]; [now eexists _, _|].
  destruct (num_ne y x); now eexists _, _.
Qed.

Lemma runs_cons x y l :
  runs (x :: y :: l) =
  match runs (y :: l) with
  | [] => [(x, 1)]
  | (_, c) :: g => if num_ne y x then (x, 1) :: runs (y :: l) else (x, c + 1) :: g
  end.
Proof. reflexivity. Qed.

Lemma runs_increasing l : Sorted le l -> Sorted lt (map fst (runs l)).
Proof.
  induction 1 as [|x l Hl IH Hhd]; [constructor|].
  destruct l as [|y l]; [repeat constructor|].
  destruct (runs_hd y l) as (c & g & Hr).
  rewrite runs_cons. rewrite Hr in *. cbn [map fst] in *.
  inversion Hhd as [|? ? Hxy]; subst. unfold le, num_le in Hxy.
  destruct (num_ne y x) eqn:E; cbn [map fst].
  - constructor; [assumption|]. constructor.
    unfold lt, num_lt. rewrite Hxy. unfold num_ne in E. rewrite Hxy in E.
    exact E.
  - unfold num_ne in E. apply negb_false_iff in E.
    apply andb_prop in E as [_ Hyx].
    inversion IH as [|? ? IH' Hhd']; subst. constructor; [assumption|].
    destruct Hhd' as [|z zs Hyz]; constructor.
    unfold lt, num_lt in *. apply andb_prop in Hyz as [Hzy Hnyz].
    apply andb_true_intro. split.
    + now apply num_ge_trans with y.
    + apply negb_true_iff. apply negb_true_iff in Hnyz.
      destruct (num_ge x z) eqn:Exz; [|reflexivity].
      rewrite <- Hnyz. symmetry. now apply num_ge_trans with x.
Qed.

Lemma concat_chunk_from {A} n : forall (l : list A) k m,
  length l = (k * n + m)%nat -> (m <= n)%nat ->
  concat (chunk_from l k m n) = l.
Proof.
  induction n as [|n IH]; intros l k m Hlen Hm; simpl.
  - destruct l; [reflexivity|simpl in Hlen; lia].
  - rewrite IH.
    + apply firstn_skipn.
    + rewrite length_skipn, Hlen. destruct m; simpl; nia.
    + lia.
Qed.

Lemma concat_chunk {A} (l : list A) n : (1 <= n)%nat -> concat (chunk l n) = l.
Proof.
  intros Hn. apply concat_chunk_from.
  - rewrite Nat.mul_comm. apply Nat.div_mod_eq.
  - apply Nat.lt_le_incl, Nat.mod_upper_bound. lia.
Qed.

(** The bins of the uniform strategy come from non-empty chunks of
    distinct ascending values, as many as were asked for. *)
Lemma uniform_chunks x n b :
  Forall (fun v => is_nan v = false) x -> 1 <= n ->
  _uniform x n = inr b ->
  exists chunks,
    _Bins.__init__ chunks = inr b /\ length chunks = Z.to_nat n /\
    nonempty_chunks chunks /\ strictly_ascending chunks.
Proof.
  intros Hnan Hn. unfold _uniform, _validate_n_bins, np_unique.
  set (unique := map fst (runs (np_sort x))).
  destruct (Z.of_nat (length unique) <? n) eqn:E; [discriminate|].
  cbn [bind ret]. intros Hb. apply Z.ltb_ge in E.
  exists (chunk unique (Z.to_nat n)).
  split; [assumption|]. split; [apply chunk_length|]. split.
  - apply chunk_nonempty. lia.
  - unfold strictly_ascending. rewrite concat_chunk by lia.
    apply runs_increasing, sorted_no_nan; [|apply np_sort_sorted].
    apply Forall_forall. intros y Hy. rewrite Forall_forall in Hnan.
    now apply Hnan, np_sort_in.
Qed.

(** * Further properties of [_Bins] *)

(** ** The bounds and the labels the constructor stores *)

Lemma num_ge_total x y :
  is_nan x = false -> is_nan y = false -> num_ge x y = true \/ num_ge y x = true.
Proof.
  destruct x, y; simpl; try easy; auto. intros _ _.
  rewrite !Qle_bool_iff. destruct (Qlt_le_dec q q0) as [H|H]; [right|left]; auto.
  now apply Qlt_le_weak.
Qed.

Lemma nth_error_heads cs i c :
  nth_error cs i = Some c -> c <> [] ->
  nth_error (map (hd NaN) cs) i = Some (hd NaN c) /\ hd_error c = Some (hd NaN c).
Proof.
  intros Hc Hne. rewrite nth_error_map, Hc. split; [reflexivity|].
  destruct c; [easy|reflexivity].
Qed.

(** X1: in every object the constructor builds, the upper bound of a bin
    is the lower bound of the next one, and both are the first element of
    the next chunk: neighbouring bins share their cut point. *)
Theorem X1_shared_cut_points chunks b i :
  _Bins.__init__ chunks = inr b ->
  (S i < _Bins.n_bins b)%nat ->
  exists cut c,
    nth_error (_Bins.upper_bounds b) i = Some cut /\
    nth_error (_Bins.lower_bounds b) (S i) = Some cut /\
    nth_error chunks (S i) = Some c /\ hd_error c = Some cut.
Proof.
  intros Hinit Hi.
  pose proof (init_lengths _ _ Hinit) as (Hn & _).
  assert (H2 : (2 <= length chunks)%nat) by lia.
  destruct (init_bounds _ _ H2 Hinit) as (hs & E & _ & _ & Hl & Hu & _).
  destruct chunks as [|c0 cs]; [simpl in H2; lia|]. cbn [tl] in E.
  destruct (first_elems_hd _ _ E) as [-> Hne].
  assert (Hi' : (i < length cs)%nat) by (simpl in Hn; lia).
  destruct (nth_error cs i) as [c|] eqn:Ec; [|apply nth_error_None in Ec; lia].
  assert (Hc : c <> []).
  { rewrite Forall_forall in Hne. apply Hne. now apply nth_error_In with i. }
  destruct (nth_error_heads cs i c Ec Hc) as [Hh Hhd].
  exists (hd NaN c), c. rewrite Hu, Hl. cbn [nth_error].
  rewrite nth_error_app1 by now rewrite length_map.
  now repeat split.
Qed.

(** X1 on the running example. *)
Lemma X1_shared_cut_points_witness :
  exists cut c,
    nth_error (_Bins.upper_bounds bins_0_9) 1 = Some cut /\
    nth_error (_Bins.lower_bounds bins_0_9) 2 = Some cut /\
    nth_error chunks_0_9 2 = Some c /\ hd_error c = Some cut.
Proof.
  apply (X1_shared_cut_points chunks_0_9 bins_0_9 1).
  - reflexivity.
  - simpl. lia.
Defined.

(** X2: the constructor raises IndexError on an empty list of chunks, on
    a single empty chunk and on an empty chunk after the first; in every
    other case it returns, an empty first chunk among two or more
    included. *)
Theorem X2_constructor_raises_or_returns chunks :
  match chunks with
  | [] => _Bins.__init__ chunks = inl (IndexError "index out of range")
  | [c] =>
      (c = [] -> _Bins.__init__ chunks = inl (IndexError "index out of range")) /\
      (c <> [] -> exists b, _Bins.__init__ chunks = inr b)
  | c0 :: rest =>
      (Exists (fun c => c = []) rest ->
       _Bins.__init__ chunks = inl (IndexError "index out of range")) /\
      (nonempty_chunks rest -> exists b, _Bins.__init__ chunks = inr b)
  end.
Proof.
  destruct chunks as [|c0 [|c1 rest]].
  - reflexivity.
  - rewrite init_one. split.
    + intros ->. now rewrite getitem_nil.
    + intros Hc. destruct c0; [easy|]. rewrite getitem_0_cons. eexists. reflexivity.
  - rewrite init_two. split.
    + intros Hex. generalize (c1 :: rest), Hex. clear.
      induction 1 as [c cs ->|c cs _ IH].
      * rewrite first_elems_cons, getitem_nil. reflexivity.
      * rewrite first_elems_cons. destruct c as [|h t].
        -- rewrite getitem_nil. reflexivity.
        -- rewrite getitem_0_cons. cbn [bind].
           destruct (first_elems cs) as [e|hs]; [|discriminate].
           cbn [bind] in *. exact IH.
    + intros Hne. rewrite (first_elems_nonempty _ Hne). eexists. reflexivity.
Qed.

Lemma first_elems_ext cs : forall cs',
  map (@hd_error num) cs = map (@hd_error num) cs' ->
  first_elems cs = first_elems cs'.
Proof.
  induction cs as [|c cs IH]; intros [|c' cs'] H; simpl in H; try discriminate.
  - reflexivity.
  - injection H as Hc H. rewrite !first_elems_cons, (IH _ H).
    destruct c as [|h t], c' as [|h' t']; simpl in Hc; try discriminate.
    + reflexivity.
    + injection Hc as ->. now rewrite !getitem_0_cons.
Qed.

(** X3: with two chunks or more the constructor never reads the first
    chunk, and of every other chunk it reads the first element only: two
    lists of chunks that agree on those first elements give the same
    object. *)
Theorem X3_constructor_reads_first_elements c0 c0' rest rest' :
  rest <> [] ->
  map (@hd_error num) rest = map (@hd_error num) rest' ->
  _Bins.__init__ (c0 :: rest) = _Bins.__init__ (c0' :: rest').
Proof.
  intros Hne Hhd.
  destruct rest as [|c1 rest]; [easy|].
  destruct rest' as [|c1' rest']; [discriminate|].
  rewrite !init_two, (first_elems_ext _ _ Hhd).
  apply (f_equal (@length _)) in Hhd. rewrite !length_map in Hhd.
  simpl in Hhd. injection Hhd as Hhd. now rewrite Hhd.
Qed.

(** X3 on the running example: other values, the same first elements. *)
Lemma X3_constructor_reads_first_elements_witness :
  _Bins.__init__ ([of_Z 0; of_Z 1; of_Z 2] :: tl chunks_0_9) =
  _Bins.__init__ ([] :: [[of_Z 3]; [of_Z 6; of_Z 100]; [of_Z 8]]).
Proof.
  apply X3_constructor_reads_first_elements.
  - discriminate.
  - reflexivity.
Defined.

Lemma mid_reprs_nth_exact hs : forall h k lo up,
  nth_error (h :: hs) k = Some lo -> nth_error (h :: hs) (S k) = Some up ->
  nth_error (mid_reprs h hs) k
    = Some ("(" ++ fmt2 lo ++ ", " ++ fmt2 up ++ "]")%string.
Proof.
  induction hs as [|h' hs IH]; intros h k lo up Hlo Hup.
  - destruct k; discriminate.
  - destruct k as [|k]; simpl in Hlo, Hup.
    + now injection Hlo as <-; injection Hup as <-.
    + simpl. now apply IH.
Qed.

(** The label of a middle bin, from the bounds the object stores. *)
Lemma middle_label chunks b i lo up :
  _Bins.__init__ chunks = inr b ->
  (0 < i)%nat -> (S i < _Bins.n_bins b)%nat ->
  nth_error (_Bins.lower_bounds b) i = Some lo ->
  nth_error (_Bins.upper_bounds b) i = Some up ->
  nth_error (_Bins.reprs b) i
    = Some ("(" ++ fmt2 lo ++ ", " ++ fmt2 up ++ "]")%string.
Proof.
  intros Hinit Hi0 Hi Hlo Hup.
  pose proof (init_lengths _ _ Hinit) as (Hn & _).
  assert (H2 : (2 <= length chunks)%nat) by lia.
  destruct (init_bounds _ _ H2 Hinit) as (hs & E & _ & _ & Hl & Hu & Hr).
  apply first_elems_length in E.
  assert (Hlen : length hs = (_Bins.n_bins b - 1)%nat).
  { rewrite E, Hn. destruct chunks; simpl; lia. }
  rewrite Hl in Hlo. rewrite Hu in Hup. rewrite Hr.
  destruct i as [|k]; [lia|]. cbn [nth_error] in Hlo.
  rewrite nth_error_app1 in Hup by lia.
  destruct hs as [|h1 hs']; [destruct k; discriminate|].
  unfold reprs_of. cbn [nth_error].
  rewrite nth_error_app1 by (rewrite mid_reprs_length; simpl in Hlen; lia).
  now apply mid_reprs_nth_exact.
Qed.

(** X4: the labels are printed from the bounds the object stores.  With
    two bins or more, the first label is ["(-Inf, %.2f]"] of the first
    upper bound, the label of a middle bin is ["(%.2f, %.2f]"] of its
    lower and upper bound, and the last label is ["(%.2f, Inf]"] of the
    last lower bound. *)
Theorem X4_labels_print_the_bounds chunks b :
  _Bins.__init__ chunks = inr b ->
  (2 <= length chunks)%nat ->
  (exists up, nth_error (_Bins.upper_bounds b) 0 = Some up /\
              nth_error (_Bins.reprs b) 0
                = Some ("(-Inf, " ++ fmt2 up ++ "]")%string) /\
  (forall i, (0 < i)%nat -> (S i < _Bins.n_bins b)%nat ->
     exists lo up,
       nth_error (_Bins.lower_bounds b) i = Some lo /\
       nth_error (_Bins.upper_bounds b) i = Some up /\
       nth_error (_Bins.reprs b) i
         = Some ("(" ++ fmt2 lo ++ ", " ++ fmt2 up ++ "]")%string) /\
  (exists lo, nth_error (_Bins.lower_bounds b) (_Bins.n_bins b - 1) = Some lo /\
              nth_error (_Bins.reprs b) (_Bins.n_bins b - 1)
                = Some ("(" ++ fmt2 lo ++ ", Inf]")%string).
Proof.
  intros Hinit H2.
  pose proof (init_lengths _ _ Hinit) as (Hn & Hll & Hlu & _).
  destruct (init_bounds _ _ H2 Hinit) as (hs & E & Hne & _ & Hl & Hu & Hr).
  apply first_elems_length in E.
  assert (Hlen : length hs = (_Bins.n_bins b - 1)%nat).
  { rewrite E, Hn. destruct chunks; simpl; lia. }
  split; [|split].
  - rewrite Hu, Hr. destruct hs as [|h1 hs']; [easy|].
    exists h1. split; reflexivity.
  - intros i Hi0 Hi.
    destruct (nth_error (_Bins.lower_bounds b) i) as [lo|] eqn:Elo;
      [|apply nth_error_None in Elo; lia].
    destruct (nth_error (_Bins.upper_bounds b) i) as [up|] eqn:Eup;
      [|apply nth_error_None in Eup; lia].
    exists lo, up. split; [reflexivity|]. split; [reflexivity|].
    now apply (middle_label chunks).
  - rewrite Hl, Hr, <- Hlen. destruct hs as [|h1 hs']; [easy|].
    exists (last (h1 :: hs') NaN). split.
    + cbn [length nth_error]. clear.
      revert h1. induction hs' as [|h2 hs IH]; intros h1; [reflexivity|].
      cbn [length nth_error]. rewrite IH. reflexivity.
    + unfold reprs_of. cbn [length nth_error].
      rewrite nth_error_app2 by now rewrite mid_reprs_length.
      now rewrite mid_reprs_length, Nat.sub_diag.
Qed.

(** X4 on the running example. *)
Lemma X4_labels_print_the_bounds_witness :
  (exists up, nth_error (_Bins.upper_bounds bins_0_9) 0 = Some up /\
              nth_error (_Bins.reprs bins_0_9) 0
                = Some ("(-Inf, " ++ fmt2 up ++ "]")%string) /\
  (forall i, (0 < i)%nat -> (S i < _Bins.n_bins bins_0_9)%nat ->
     exists lo up,
       nth_error (_Bins.lower_bounds bins_0_9) i = Some lo /\
       nth_error (_Bins.upper_bounds bins_0_9) i = Some up /\
       nth_error (_Bins.reprs bins_0_9) i
         = Some ("(" ++ fmt2 lo ++ ", " ++ fmt2 up ++ "]")%string) /\
  (exists lo, nth_error (_Bins.lower_bounds bins_0_9) (_Bins.n_bins bins_0_9 - 1)
                = Some lo /\
              nth_error (_Bins.reprs bins_0_9) (_Bins.n_bins bins_0_9 - 1)
                = Some ("(" ++ fmt2 lo ++ ", Inf]")%string).
Proof.
  apply (X4_labels_print_the_bounds chunks_0_9 bins_0_9).
  - reflexivity.
  - simpl. lia.
Defined.

(** X9: labels need not tell bins apart.  Two middle bins whose lower
    bounds print alike at two decimals, and whose upper bounds do, carry
    the same label. *)
Theorem X9_labels_can_coincide chunks b i j li lj ui uj :
  _Bins.__init__ chunks = inr b ->
  (0 < i)%nat -> (S i < _Bins.n_bins b)%nat ->
  (0 < j)%nat -> (S j < _Bins.n_bins b)%nat ->
  nth_error (_Bins.lower_bounds b) i = Some li ->
  nth_error (_Bins.lower_bounds b) j = Some lj ->
  nth_error (_Bins.upper_bounds b) i = Some ui ->
  nth_error (_Bins.upper_bounds b) j = Some uj ->
  fmt2 li = fmt2 lj -> fmt2 ui = fmt2 uj ->
  nth_error (_Bins.reprs b) i = nth_error (_Bins.reprs b) j.
Proof.
  intros Hinit Hi0 Hi Hj0 Hj Hli Hlj Hui Huj El Eu.
  rewrite (middle_label chunks b i li ui), (middle_label chunks b j lj uj);
    try assumption.
  now rewrite El, Eu.
Qed.

(** X9 on chunks that start at 0.001, 0.002 and 0.003: bins 1 and 2 have
    different bounds and the same label. *)
Lemma X9_labels_can_coincide_witness :
  exists b,
    _Bins.__init__ chunks_close = inr b /\
    nth_error (_Bins.lower_bounds b) 1 <> nth_error (_Bins.lower_bounds b) 2 /\
    nth_error (_Bins.reprs b) 1 = nth_error (_Bins.reprs b) 2.
Proof.
  eexists. split; [reflexivity|]. split; [discriminate|].
  eapply (X9_labels_can_coincide chunks_close _ 1 2); try reflexivity;
    simpl; lia.
Defined.

(** X2 on two chunks, the first one empty, and on a chunk list with an
    empty chunk in second place. *)
Lemma X2_constructor_raises_or_returns_witness :
  (exists b, _Bins.__init__ [[]; [of_Z 3]] = inr b) /\
  _Bins.__init__ [[of_Z 1]; []; [of_Z 3]] = inl (IndexError "index out of range").
Proof.
  split.
  - apply (proj2 (X2_constructor_raises_or_returns [[]; [of_Z 3]])).
    repeat constructor. discriminate.
  - apply (proj1 (X2_constructor_raises_or_returns [[of_Z 1]; []; [of_Z 3]])).
    constructor. reflexivity.
Defined.

(** ** Where [assign] puts a value *)

Lemma sorted_lower_not_nan hs :
  non_decreasing (NInf :: hs) -> Forall (fun h => is_nan h = false) hs.
Proof.
  intros HS. apply Sorted_StronglySorted in HS; [|exact le_transitive].
  inversion HS as [|? ? _ HF]; subst.
  eapply Forall_impl; [|exact HF]. intros h Hh. now apply num_ge_not_nan in Hh.
Qed.

(** X5: on an object built from two chunks or more with non-decreasing
    lower bounds, a finite value goes to a bin whose stored bounds hold
    it from below inclusively and from above exclusively:
    [lower_bounds[i] <= v < upper_bounds[i]], the value and the lower
    bounds being numbers that float64 holds exactly. *)
Theorem X5_bounds_bracket_the_value chunks b x :
  _Bins.__init__ chunks = inr b ->
  (2 <= length chunks)%nat ->
  non_decreasing (_Bins.lower_bounds b) ->
  is_finite x = true ->
  float64_exact x = true ->
  Forall (fun l => float64_exact l = true) (_Bins.lower_bounds b) ->
  exists i lo up,
    _Bins.assign b (NumArr [x]) false = inr (NumArr [of_Z (Z.of_nat i)]) /\
    nth_error (_Bins.lower_bounds b) i = Some lo /\
    nth_error (_Bins.upper_bounds b) i = Some up /\
    num_ge x lo = true /\ num_lt x up = true.
Proof.
  intros Hinit H2 Hs Hx _ _.
  pose proof (init_lengths _ _ Hinit) as (Hn & Hll & Hlu & _).
  destruct (init_bounds _ _ H2 Hinit) as (hs & _ & _ & _ & Hl & Hu & _).
  destruct (level_largest b x) as (i & Hi & (lo & Hlo & Hge) & Hlast).
  - congruence.
  - assumption.
  - now rewrite Hl.
  - now apply finite_not_nan.
  - assert (Hlt : (i < length (_Bins.upper_bounds b))%nat).
    { rewrite Hlu, <- Hll. apply nth_error_Some. now rewrite Hlo. }
    destruct (nth_error (_Bins.upper_bounds b) i) as [up|] eqn:Eup;
      [|apply nth_error_None in Eup; lia].
    exists i, lo, up. rewrite assign_levels. cbn [map]. rewrite Hi.
    split; [reflexivity|]. split; [assumption|]. split; [assumption|].
    split; [assumption|].
    rewrite Hl in Hs, Hlast. pose proof (sorted_lower_not_nan hs Hs) as Hnan.
    rewrite Hu in Eup, Hlt. rewrite length_app in Hlt. simpl in Hlt.
    destruct (Nat.eq_dec i (length hs)) as [->|Hne].
    + rewrite nth_error_app2, Nat.sub_diag in Eup by lia.
      injection Eup as <-. now destruct x.
    + rewrite nth_error_app1 in Eup by lia.
      assert (Hmiss : num_ge x up = false).
      { apply (Hlast (S i)); [lia|exact Eup]. }
      assert (Hup : is_nan up = false).
      { rewrite Forall_forall in Hnan. apply Hnan. now apply nth_error_In with i. }
      unfold num_lt. rewrite Hmiss.
      destruct (num_ge_total x up (finite_not_nan _ Hx) Hup) as [H|H];
        [congruence|now rewrite H].
Qed.

(** X5 on the running example: 6 lies in [6, 8). *)
Lemma X5_bounds_bracket_the_value_witness :
  exists i lo up,
    _Bins.assign bins_0_9 (NumArr [of_Z 6]) false
      = inr (NumArr [of_Z (Z.of_nat i)]) /\
    nth_error (_Bins.lower_bounds bins_0_9) i = Some lo /\
    nth_error (_Bins.upper_bounds bins_0_9) i = Some up /\
    num_ge (of_Z 6) lo = true /\ num_lt (of_Z 6) up = true.
Proof.
  apply (X5_bounds_bracket_the_value chunks_0_9).
  - reflexivity.
  - simpl. lia.
  - repeat constructor.
  - reflexivity.
  - vm_compute. reflexivity.
  - repeat (constructor; [vm_compute; reflexivity|]). constructor.
Defined.

(** X6: the extreme bins take what lies outside the cuts.  On an object
    built from two chunks or more with non-decreasing lower bounds, a
    value at or above the last lower bound, plus infinity included, goes
    to the last bin, and a value below the first cut, minus infinity
    included, goes to bin 0 when the value and that cut are numbers that
    float64 holds exactly. *)
Theorem X6_extreme_bins_take_the_rest chunks b x :
  _Bins.__init__ chunks = inr b ->
  (2 <= length chunks)%nat ->
  non_decreasing (_Bins.lower_bounds b) ->
  (forall top, nth_error (_Bins.lower_bounds b) (_Bins.n_bins b - 1) = Some top ->
               num_ge x top = true ->
               _Bins.assign b (NumArr [x]) false
                 = inr (NumArr [of_Z (Z.of_nat (_Bins.n_bins b) - 1)])) /\
  (forall cut, nth_error (_Bins.lower_bounds b) 1 = Some cut ->
               num_lt x cut = true ->
               float64_exact x = true -> float64_exact cut = true ->
               _Bins.assign b (NumArr [x]) false = inr (NumArr [of_Z 0])).
Proof.
  intros Hinit H2 Hs.
  pose proof (init_lengths _ _ Hinit) as (Hn & Hll & _).
  destruct (init_bounds _ _ H2 Hinit) as (hs & _ & _ & _ & Hl & _ & _).
  assert (Hnb : _Bins.n_bins b = length (_Bins.lower_bounds b)) by congruence.
  assert (Hhd : hd_error (_Bins.lower_bounds b) = Some NInf) by now rewrite Hl.
  split.
  - intros top Htop Hge.
    destruct (level_largest b x Hnb Hs Hhd) as (i & Hi & Hlarge).
    { now apply num_ge_not_nan in Hge. }
    assert (Hl' : largest_index_ge (_Bins.lower_bounds b) x (_Bins.n_bins b - 1)).
    { split; [now exists top|]. intros j bj Hj Hbj.
      assert (j < length (_Bins.lower_bounds b))%nat
        by (apply nth_error_Some; now rewrite Hbj).
      lia. }
    rewrite assign_levels. cbn [map]. rewrite Hi.
    rewrite (largest_index_unique _ _ _ _ Hlarge Hl').
    replace (Z.of_nat (_Bins.n_bins b - 1)) with (Z.of_nat (_Bins.n_bins b) - 1)
      by lia.
    reflexivity.
  - intros cut Hcut Hlt _ _.
    assert (Hx : is_nan x = false).
    { apply lt_le in Hlt. now apply num_ge_not_nan in Hlt. }
    destruct (level_largest b x Hnb Hs Hhd Hx) as (i & Hi & Hlarge).
    assert (Hl' : largest_index_ge (_Bins.lower_bounds b) x 0).
    { split.
      - exists NInf. rewrite Hl. split; [reflexivity|now apply num_ge_ninf].
      - intros j bj Hj Hbj.
        destruct (num_ge x bj) eqn:E; [|reflexivity].
        apply Sorted_StronglySorted in Hs; [|exact le_transitive].
        assert (Hcb : le cut bj).
        { destruct (Nat.eq_dec j 1) as [->|Hne].
          - rewrite Hcut in Hbj. injection Hbj as <-.
            apply lt_le in Hlt. apply num_ge_not_nan in Hlt as [Hc _].
            unfold le, num_le. now apply num_ge_refl.
          - apply (strongly_sorted_nth le (_Bins.lower_bounds b) 1 j);
              [assumption|lia|assumption|assumption]. }
        apply lt_not_ge in Hlt. rewrite <- Hlt. symmetry.
        now apply num_ge_trans with bj. }
    rewrite assign_levels. cbn [map]. rewrite Hi.
    now rewrite (largest_index_unique _ _ _ _ Hlarge Hl').
Qed.

(** X6 on the running example: plus infinity, and -2.5 below the first
    cut. *)
Lemma X6_extreme_bins_take_the_rest_witness :
  _Bins.assign bins_0_9 (NumArr [PInf]) false
    = inr (NumArr [of_Z (Z.of_nat (_Bins.n_bins bins_0_9) - 1)]) /\
  _Bins.assign bins_0_9 (NumArr [Fin (-5 # 2)]) false = inr (NumArr [of_Z 0]).
Proof.
  pose proof (X6_extreme_bins_take_the_rest chunks_0_9 bins_0_9) as H.
  split.
  - apply (proj1 (H PInf eq_refl ltac:(simpl; lia) ltac:(repeat constructor)))
      with (top := of_Z 8); reflexivity.
  - apply (proj2 (H (Fin (-5 # 2)) eq_refl ltac:(simpl; lia)
                    ltac:(repeat constructor)))
      with (cut := of_Z 3); [reflexivity|reflexivity| |]; vm_compute; reflexivity.
Defined.

(** ** Labels and batches *)

Lemma getitem_nat {A} (l : list A) i a :
  nth_error l i = Some a -> getitem l (Z.of_nat i) = inr a.
Proof.
  intros H. unfold getitem.
  assert (Hi : (i < length l)%nat) by (apply nth_error_Some; now rewrite H).
  replace (Z.of_nat i <? 0) with false by (symmetry; apply Z.ltb_ge; lia).
  replace (0 <=? Z.of_nat i) with true by (symmetry; apply Z.leb_le; lia).
  replace (Z.of_nat i <? Z.of_nat (length l)) with true
    by (symmetry; apply Z.ltb_lt; lia).
  cbn [andb]. now rewrite Nat2Z.id, H.
Qed.

(** X7: the labels [assign] returns are the labels of the levels it
    returns.  On a fitted object and a non-empty array without NaN,
    [assign(v, True)] is, entry by entry, [reprs[i]] for the level [i]
    that [assign(v, False)] gives, with [0 <= i < n_bins]: no label is
    made up and none is taken from the end of the list. *)
Theorem X7_labels_of_the_levels b v :
  fitted_Bins b -> v <> [] -> Forall (fun x => is_nan x = false) v ->
  exists idx labels,
    _Bins.assign b (NumArr v) false = inr (NumArr (map of_Z (map Z.of_nat idx))) /\
    _Bins.assign b (NumArr v) true = inr (StrArr labels) /\
    Forall2 (fun i l => nth_error (_Bins.reprs b) i = Some l) idx labels /\
    Forall (fun i => (i < _Bins.n_bins b)%nat) idx.
Proof.
  intros Hb Hne Hv.
  destruct (is_Bins_reprs _ (fitted_is_Bins _ Hb)) as [Hr _].
  assert (H : exists idx labels,
             map (level b) v = map Z.of_nat idx /\
             mapM (getitem (_Bins.reprs b)) (map (level b) v) = inr labels /\
             Forall2 (fun i l => nth_error (_Bins.reprs b) i = Some l) idx labels /\
             Forall (fun i => (i < _Bins.n_bins b)%nat) idx /\
             length labels = length v).
  { clear Hne. induction Hv as [|x v Hx _ (idx & labels & H1 & H2 & H3 & H4 & H5)].
    - exists [], []. repeat split; constructor.
    - pose proof (level_in_range b x Hb Hx) as Hrange.
      set (i := Z.to_nat (level b x)).
      assert (Hi : (i < length (_Bins.reprs b))%nat) by (unfold i; lia).
      destruct (nth_error (_Bins.reprs b) i) as [l|] eqn:El;
        [|apply nth_error_None in El; lia].
      exists (i :: idx), (l :: labels). cbn [map mapM].
      assert (Hz : level b x = Z.of_nat i) by (unfold i; lia).
      rewrite Hz, (getitem_nat _ _ _ El), <- H1, H2. cbn [bind ret].
      split; [reflexivity|]. split; [reflexivity|].
      split; [now constructor|].
      split; [constructor; [lia|assumption]|].
      simpl. now rewrite H5. }
  destruct H as (idx & labels & H1 & H2 & H3 & H4 & H5).
  exists idx, labels. rewrite assign_levels, H1.
  split; [reflexivity|]. split; [|now split].
  cbn [_Bins.assign]. unfold _Bins.finish. rewrite levels_pointwise, H2.
  cbn [bind ret]. destruct labels as [|l labels]; [|reflexivity].
  destruct v; [easy|discriminate].
Qed.

(** X7 on the running example. *)
Lemma X7_labels_of_the_levels_witness :
  exists idx labels,
    _Bins.assign bins_0_9 (NumArr [of_Z 4; PInf]) false
      = inr (NumArr (map of_Z (map Z.of_nat idx))) /\
    _Bins.assign bins_0_9 (NumArr [of_Z 4; PInf]) true = inr (StrArr labels) /\
    Forall2 (fun i l => nth_error (_Bins.reprs bins_0_9) i = Some l) idx labels /\
    Forall (fun i => (i < _Bins.n_bins bins_0_9)%nat) idx.
Proof.
  apply X7_labels_of_the_levels.
  - exact fitted_bins_0_9.
  - discriminate.
  - repeat constructor.
Defined.


(** * Further properties of [BinningTransformer] *)

(** ** The errors of [fit] *)

Lemma dict_of_const {V} (v : V) pairs : forall acc : dict V,
  Forall (fun kv => snd kv = v) acc -> Forall (fun kv => snd kv = v) pairs ->
  (acc <> [] \/ pairs <> []) ->
  let d := fold_left (fun d kv => dict_set d (fst kv) (snd kv)) pairs acc in
  Forall (fun kv => snd kv = v) d /\ d <> [].
Proof.
  induction pairs as [|[k w] pairs IH]; intros acc Hacc Hp Hne; simpl.
  - split; [assumption|]. now destruct Hne.
  - inversion Hp as [|? ? Hw Hp']; subst.
    apply IH; [now apply dict_set_forall|assumption|].
    left. destruct acc as [|[k0 v0] acc]; simpl; [discriminate|].
    destruct (String.eqb k k0); discriminate.
Qed.

(** The dict [{c: n for c in cols}] of a count that is too small. *)
Lemma dict_of_const_rejected z (cols : list string) :
  z <= 1 -> cols <> [] ->
  Exists (fun kv => match snd kv with VInt z0 => z0 <= 1 | VOther => True end)
         (dict_of (map (fun c => (c, VInt z)) cols)).
Proof.
  intros Hz Hne.
  destruct (dict_of_const (VInt z) (map (fun c => (c, VInt z)) cols) [])
    as [Hall Hd].
  - constructor.
  - clear. induction cols; simpl; constructor; auto.
  - right. destruct cols; [easy|discriminate].
  - unfold dict_of. cbv zeta in Hall, Hd. revert Hall Hd.
    generalize (fold_left (fun (d : dict n_bin_value) kv => dict_set d (fst kv) (snd kv))
                          (map (fun c => (c, VInt z)) cols) []).
    intros [|kv d] Hall Hd; [easy|].
    inversion Hall as [|? ? Hkv _]; subst. left. now rewrite Hkv.
Qed.

Section FitErrors.

Variable entropy_bin_bounds :
  list num -> list num -> list Z -> result (list (list num)).

Variables (X X' : frame) (self : t) (fcols : list string).

(** The table passes the validation [fit] starts with. *)
Hypothesis validated : check_dataframe X (cols self) true = inr (X', fcols).

Lemma fit_n_bins_dict_error e :
  n_bins_dict (n_bins self) fcols = inl e ->
  fit entropy_bin_bounds X self = (inl e, self).
Proof.
  intros H. rewrite fit_unfold. unfold fit_state.
  rewrite validated. cbn [bind]. now rewrite H.
Qed.

(** X10: an [n_bins] of the wrong shape stops [fit] before any column is
    read and leaves the estimator as it was: a sequence or a dict whose
    length is not the number of columns raises
    [ValueError("dim mismatch between cols and n_bin")], and an object
    that is neither iterable nor an int raises [TypeError]. *)
Theorem X10_fit_rejects_n_bins_of_wrong_shape :
  (forall l, n_bins self = NSeq l -> length l <> length fcols ->
     fit entropy_bin_bounds X self
       = (inl (ValueError "dim mismatch between cols and n_bin"), self)) /\
  (forall d, n_bins self = NDict d -> length d <> length fcols ->
     fit entropy_bin_bounds X self
       = (inl (ValueError "dim mismatch between cols and n_bin"), self)) /\
  (n_bins self = NOther ->
     fit entropy_bin_bounds X self
       = (inl (TypeError "n_bins must be an iterable or an int"), self)).
Proof.
  split; [|split].
  - intros l Hn Hlen. apply fit_n_bins_dict_error. rewrite Hn.
    unfold n_bins_dict. cbn [is_iterable].
    apply Nat.eqb_neq in Hlen. now rewrite Hlen.
  - intros d Hn Hlen. apply fit_n_bins_dict_error. rewrite Hn.
    unfold n_bins_dict. cbn [is_iterable].
    apply Nat.eqb_neq in Hlen. now rewrite Hlen.
  - intros Hn. apply fit_n_bins_dict_error. now rewrite Hn.
Qed.

(** X11: a dict [n_bins] with as many entries as there are columns but
    other keys, a column without an entry or an entry without a column,
    stops [fit] with the ValueError on the keys, and the estimator is
    left as it was. *)
Theorem X11_fit_rejects_n_bins_with_other_keys d :
  n_bins self = NDict d ->
  length d = length fcols ->
  (exists c, In c fcols /\ ~ In c (keys d)) \/
  (exists k, In k (keys d) /\ ~ In k fcols) ->
  fit entropy_bin_bounds X self
    = (inl (ValueError "When n_bins is provided as a dictionary its keys must match the provided cols."),
       self).
Proof.
  intros Hn Hlen Hkeys. apply fit_n_bins_dict_error. rewrite Hn.
  unfold n_bins_dict. cbn [is_iterable].
  apply Nat.eqb_eq in Hlen. rewrite Hlen. cbn [negb].
  assert (Hin : forall (l : list string) x,
             existsb (String.eqb x) l = false <-> ~ In x l).
  { intros l x. split.
    - intros E Hx. assert (existsb (String.eqb x) l = true) as E'.
      { apply existsb_exists. exists x. split; [assumption|apply String.eqb_refl]. }
      congruence.
    - intros Hx. destruct (existsb (String.eqb x) l) eqn:E; [|reflexivity].
      apply existsb_exists in E as (y & Hy & Heq).
      apply String.eqb_eq in Heq. now subst. }
  destruct Hkeys as [(c & Hc & Hnc)|(k & Hk & Hnk)].
  - destruct (filter (fun c0 => negb (existsb (String.eqb c0) (keys d))) fcols)
      as [|c1 l1] eqn:E1; [|reflexivity].
    assert (H : In c (filter (fun c0 => negb (existsb (String.eqb c0) (keys d))) fcols)).
    { apply filter_In. split; [assumption|]. apply Hin in Hnc. now rewrite Hnc. }
    rewrite E1 in H. destruct H.
  - destruct (filter (fun k0 => negb (existsb (String.eqb k0) fcols)) (keys d))
      as [|k1 l1] eqn:E2.
    + assert (H : In k (filter (fun k0 => negb (existsb (String.eqb k0) fcols)) (keys d))).
      { apply filter_In. split; [assumption|]. apply Hin in Hnk. now rewrite Hnk. }
      rewrite E2 in H. destruct H.
    + now destruct (filter _ fcols).
Qed.

Lemma check_n_bins_rejects d :
  Exists (fun kv => match snd kv with VInt z => z <= 1 | VOther => True end) d ->
  check_n_bins d = inl (ValueError "Each n_bin value must be an integer > 1").
Proof.
  induction 1 as [[c v] d Hbad|[c v] d _ IH]; simpl in *.
  - destruct v as [z|]; [|reflexivity].
    apply Z.ltb_ge in Hbad. now rewrite Hbad.
  - destruct v as [z|]; [|reflexivity].
    destruct (1 <? z); [|reflexivity]. now rewrite IH.
Qed.

(** X12: an entry of [n_bins] that is not an int above one stops [fit]
    with [ValueError("Each n_bin value must be an integer > 1")] and
    leaves the estimator as it was.  The check runs once per column: a
    single int that is too small raises as soon as there is a column, and
    with no column at all it goes unnoticed, [fit] succeeding with an
    empty state. *)
Theorem X12_fit_checks_every_n_bin_value :
  (forall d, n_bins_dict (n_bins self) fcols = inr d ->
     Exists (fun kv => match snd kv with VInt z => z <= 1 | VOther => True end) d ->
     fit entropy_bin_bounds X self
       = (inl (ValueError "Each n_bin value must be an integer > 1"), self)) /\
  (forall z, n_bins self = NInt z -> z <= 1 -> fcols <> [] ->
     fit entropy_bin_bounds X self
       = (inl (ValueError "Each n_bin value must be an integer > 1"), self)) /\
  (forall z binner, n_bins self = NInt z -> fcols = [] ->
     dict_get (_STRATEGIES entropy_bin_bounds) (strategy self) = Some binner ->
     fit entropy_bin_bounds X self = (inr tt, with_fit_state self [] [])).
Proof.
  assert (Hbad : forall d, n_bins_dict (n_bins self) fcols = inr d ->
     Exists (fun kv => match snd kv with VInt z => z <= 1 | VOther => True end) d ->
     fit entropy_bin_bounds X self
       = (inl (ValueError "Each n_bin value must be an integer > 1"), self)).
  { intros d Hd Hex. rewrite fit_unfold. unfold fit_state.
    rewrite validated. cbn [bind]. rewrite Hd. cbn [bind].
    now rewrite (check_n_bins_rejects d Hex). }
  split; [exact Hbad|]. split.
  - intros z Hn Hz Hne. apply (Hbad (dict_of (map (fun c => (c, VInt z)) fcols))).
    + now rewrite Hn.
    + now apply dict_of_const_rejected.
  - intros z binner Hn Hnil Hs. rewrite fit_unfold. unfold fit_state.
    rewrite validated. cbn [bind]. rewrite Hn, Hnil, Hs. reflexivity.
Qed.

Lemma repr_char_plain c : plain_char c = true -> repr_char squote c = String c EmptyString.
Proof.
  unfold plain_char, repr_char. intros H.
  apply andb_prop in H as [H Hb]. apply andb_prop in H as [H Hq].
  apply andb_prop in H as [Hlo Hhi].
  apply negb_true_iff in Hb, Hq. rewrite Hq, Hb. cbn [orb].
  apply Nat.leb_le in Hlo, Hhi.
  destruct (Nat.eqb_spec (nat_of_ascii c) 9); [lia|].
  destruct (Nat.eqb_spec (nat_of_ascii c) 10); [lia|].
  destruct (Nat.eqb_spec (nat_of_ascii c) 13); [lia|].
  destruct (Nat.ltb_spec (nat_of_ascii c) 32); [lia|].
  destruct (Nat.ltb_spec 126 (nat_of_ascii c)); [lia|]. reflexivity.
Qed.

Lemma plain_holds s :
  plain s = true -> holds squote s = false /\ repr_chars squote s = s.
Proof.
  induction s as [|c s IH]; [easy|]. cbn [plain holds repr_chars].
  intros [Hc Hs]%andb_prop. destruct (IH Hs) as [Hh Hr]. split.
  - rewrite Hh. unfold plain_char in Hc. apply andb_prop in Hc as [Hc _].
    apply andb_prop in Hc as [_ Hq]. apply negb_true_iff in Hq.
    rewrite Ascii.eqb_sym. now rewrite Hq.
  - rewrite (repr_char_plain c Hc). cbn [append]. now f_equal.
Qed.

Lemma repr_plain s : plain s = true -> repr s = quoted s.
Proof.
  intros H. destruct (plain_holds s H) as [Hh Hr].
  unfold repr, quoted. rewrite Hh. cbn [andb]. rewrite Hr. reflexivity.
Qed.

(** X13: a strategy that is neither ["entropy"] nor ["uniform"] stops
    [fit] with a ValueError that quotes it as [%r] does, once [n_bins]
    has passed its checks and before any column is read, so whatever the
    columns hold; the estimator is left as it was.  For a [str] of ASCII
    bytes the message ends in the [repr] of the strategy, which is the
    strategy between single quotes when it is made of printable
    characters other than the single quote and the backslash. *)
Theorem X13_fit_rejects_unknown_strategy items :
  requested self X = inr items ->
  strategy self <> "entropy"%string -> strategy self <> "uniform"%string ->
  ascii_str (strategy self) = true ->
  fit entropy_bin_bounds X self
    = (inl (ValueError ("strategy must be one of "
                        ++ dquoted "['entropy', 'uniform']"
                        ++ ", but got " ++ repr (strategy self))),
       self) /\
  (plain (strategy self) = true -> repr (strategy self) = quoted (strategy self)).
Proof.
  intros Hreq He Hu _. split; [|apply repr_plain].
  rewrite fit_unfold. unfold fit_state.
  unfold requested in Hreq. rewrite validated in *. cbn [bind] in *.
  destruct (n_bins_dict (n_bins self) fcols) as [e|d]; [discriminate|].
  cbn [bind] in *. rewrite Hreq. cbn [bind].
  unfold _STRATEGIES. cbn [dict_get].
  apply String.eqb_neq in He, Hu. now rewrite He, Hu.
Qed.

End FitErrors.

(** ** What [fit] stores *)

Section DictOrder.
Context {V : Type}.
Implicit Types (d : dict V) (k : string) (v : V).

Lemma dict_set_fresh d k v :
  ~ In k (keys d) -> dict_set d k v = d ++ [(k, v)].
Proof.
  induction d as [|[k' v'] d IH]; simpl; intros Hk; [reflexivity|].
  destruct (String.eqb_spec k k') as [->|Hne]; [tauto|].
  f_equal. apply IH. tauto.
Qed.

Lemma dict_set_present d k v :
  In k (keys d) -> keys (dict_set d k v) = keys d.
Proof.
  induction d as [|[k' v'] d IH]; simpl; intros Hk; [easy|].
  destruct (String.eqb_spec k k') as [->|Hne]; [reflexivity|].
  simpl. f_equal. apply IH. destruct Hk; [congruence|assumption].
Qed.

Lemma dict_set_nodup d k v : NoDup (keys d) -> NoDup (keys (dict_set d k v)).
Proof.
  intros Hd. destruct (in_dec string_dec k (keys d)) as [Hin|Hnin].
  - now rewrite dict_set_present.
  - rewrite dict_set_fresh by assumption. unfold keys. rewrite map_app.
    simpl. apply NoDup_app; [assumption|repeat constructor; easy|].
    intros x Hx [<-|[]]. now apply Hnin.
Qed.

Lemma dict_of_nodup (pairs : list (string * V)) : NoDup (keys (dict_of pairs)).
Proof.
  unfold dict_of. assert (H : NoDup (keys (@nil (string * V)))) by constructor.
  revert H. generalize (@nil (string * V)).
  induction pairs as [|[k v] pairs IH]; intros acc Hacc; simpl; [assumption|].
  apply IH. now apply dict_set_nodup.
Qed.

Lemma dict_get_in d k v : NoDup (keys d) -> In (k, v) d -> dict_get d k = Some v.
Proof.
  induction d as [|[k' v'] d IH]; simpl; intros Hd Hin; [easy|].
  inversion Hd as [|? ? Hk' Hd']; subst.
  destruct Hin as [[= -> ->]|Hin].
  - now rewrite String.eqb_refl.
  - destruct (String.eqb_spec k k') as [->|Hne]; [|now apply IH].
    exfalso. apply Hk'. change k' with (fst (k', v)). now apply in_map.
Qed.

End DictOrder.

Lemma n_bins_dict_nodup n cols d :
  (forall d0, n = NDict d0 -> NoDup (keys d0)) ->
  n_bins_dict n cols = inr d -> NoDup (keys d).
Proof.
  intros Hn. unfold n_bins_dict.
  destruct n as [z|l|d0|]; cbn [is_iterable]; try discriminate.
  - intros [= <-]. apply dict_of_nodup.
  - destruct (negb _); [discriminate|]. intros [= <-]. apply dict_of_nodup.
  - destruct (negb _); [discriminate|].
    destruct (filter _ cols); [|discriminate].
    destruct (filter _ (keys d0)); [|discriminate].
    intros [= <-]. now apply Hn.
Qed.

Lemma strategies_enough ebb s binner x n b :
  dict_get (_STRATEGIES ebb) s = Some binner ->
  binner x n = inr b -> n <= distinct x.
Proof.
  intros Hs Hb. destruct (Z_lt_le_dec (distinct x) n) as [Hlt|Hle]; [|assumption].
  rewrite (strategies_fewer ebb binner s x n Hs Hlt) in Hb. discriminate.
Qed.

(** The loop over the columns, on items whose keys are all different and
    new to the dictionary: one entry per item, in order. *)
Lemma compute_bins_in_order binner X items : forall acc bins,
  compute_bins binner X items acc = inr bins ->
  NoDup (keys items) ->
  (forall c, In c (keys items) -> ~ In c (keys acc)) ->
  exists bs,
    bins = acc ++ bs /\ keys bs = keys items /\
    forall c n, In (c, n) items ->
      exists x b, getcol X c = inr (NumArr x) /\ binner x n = inr b /\ In (c, b) bs.
Proof.
  induction items as [|[c n] items IH]; intros acc bins H Hnd Hfresh; simpl in H.
  - injection H as <-. exists []. rewrite app_nil_r. now repeat split.
  - destruct (getcol X c) as [e|v] eqn:Ev; [discriminate|]. cbn [bind] in H.
    destruct v as [x|l]; [|discriminate].
    destruct (binner x n) as [e|b] eqn:Eb; [discriminate|]. cbn [bind] in H.
    inversion Hnd as [|? ? Hc Hnd']; subst.
    rewrite dict_set_fresh in H by (apply Hfresh; now left).
    destruct (IH _ _ H Hnd') as (bs & -> & Hk & Hitems).
    + intros c' Hc' Hin. unfold keys in Hin. rewrite map_app in Hin.
      apply in_app_or in Hin as [Hin|[<-|[]]].
      * apply (Hfresh c'); [now right|assumption].
      * now apply Hc.
    + exists ((c, b) :: bs). rewrite <- app_assoc. split; [reflexivity|].
      split; [simpl; now rewrite Hk|].
      intros c' n' [[= <- <-]|Hin].
      * exists x, b. split; [assumption|]. split; [assumption|now left].
      * destruct (Hitems c' n' Hin) as (x' & b' & H1 & H2 & H3).
        exists x', b'. split; [assumption|]. split; [assumption|now right].
Qed.

Lemma check_n_bins_in d : forall items c n,
  check_n_bins d = inr items -> In (c, n) items -> In (c, VInt n) d /\ 1 < n.
Proof.
  induction d as [|[k v] d IH]; intros items c n H Hin; simpl in H.
  - injection H as <-. destruct Hin.
  - destruct v as [z|]; [|discriminate].
    destruct (1 <? z) eqn:E; [|discriminate].
    destruct (check_n_bins d) as [e|items']; [discriminate|].
    injection H as <-. destruct Hin as [[= -> ->]|Hin].
    + split; [now left|now apply Z.ltb_lt].
    + destruct (IH items' c n eq_refl Hin) as [H1 H2]. split; [now right|assumption].
Qed.

(** X14: after a [fit] that succeeded, [bins_] holds one [_Bins] per
    requested column, in the order of the requests, each computed by the
    chosen strategy from the values of that column and its own bin count
    alone; every count is above one and no larger than the number of
    distinct values of its column. *)
Theorem X14_fit_bins_each_column ebb X self self' :
  fit ebb X self = (inr tt, self') ->
  (forall d, n_bins self = NDict d -> NoDup (keys d)) ->
  exists bins items binner,
    bins_ self' = Some bins /\
    requested self X = inr items /\
    dict_get (_STRATEGIES ebb) (strategy self) = Some binner /\
    keys bins = keys items /\
    forall c n, In (c, n) items ->
      1 < n /\
      exists x b,
        getcol X c = inr (NumArr x) /\ n <= distinct x /\
        binner x n = inr b /\ dict_get bins c = Some b.
Proof.
  intros Hfit Hnd. rewrite fit_unfold in Hfit.
  unfold fit_state, requested, check_dataframe in *.
  destruct (true && _) in *; [discriminate|]. cbn [bind ret] in *.
  set (cols0 := match cols self with
                | Some c => c
                | None => keys (columns X)
                end) in *.
  destruct (n_bins_dict (n_bins self) cols0) as [e|d] eqn:Ed; [discriminate|].
  cbn [bind] in *.
  destruct (check_n_bins d) as [e|items] eqn:Ei; [discriminate|].
  cbn [bind] in *.
  destruct (dict_get (_STRATEGIES ebb) (strategy self)) as [binner|] eqn:Es;
    [|discriminate].
  cbn [bind ret] in *.
  destruct (compute_bins binner X items []) as [e|bins] eqn:Ec; [discriminate|].
  cbn [bind ret] in Hfit. injection Hfit as <-.
  assert (Hki : NoDup (keys items)).
  { rewrite (check_n_bins_keys _ _ Ei). now apply (n_bins_dict_nodup _ _ _ Hnd Ed). }
  destruct (compute_bins_in_order binner X items [] bins Ec Hki)
    as (bs & Hb & Hk & Hitems); [easy|].
  cbn [app] in Hb. subst bs.
  exists bins, items, binner.
  split; [reflexivity|]. split; [reflexivity|]. split; [reflexivity|].
  split; [assumption|].
  intros c n Hin. split; [exact (proj2 (check_n_bins_in _ _ _ _ Ei Hin))|].
  destruct (Hitems c n Hin) as (x & b & H1 & H2 & H3).
  exists x, b. split; [assumption|].
  split; [now apply (strategies_enough ebb _ binner x n b Es)|].
  split; [assumption|].
  apply dict_get_in; [now rewrite Hk|assumption].
Qed.

(** X14 on the example: three bins for [age], two for [price]. *)
Lemma X14_fit_bins_each_column_witness :
  exists bins items binner,
    bins_ (snd (fit one_group_per_value X_train binner_by_position)) = Some bins /\
    requested binner_by_position X_train = inr items /\
    dict_get (_STRATEGIES one_group_per_value) (strategy binner_by_position)
      = Some binner /\
    keys bins = keys items /\
    forall c n, In (c, n) items ->
      1 < n /\
      exists x b,
        getcol X_train c = inr (NumArr x) /\ n <= distinct x /\
        binner x n = inr b /\ dict_get bins c = Some b.
Proof.
  apply (X14_fit_bins_each_column one_group_per_value X_train binner_by_position).
  - reflexivity.
  - discriminate.
Defined.

(** ** [fit], then [transform] *)

Lemma dict_get_In {V} (d : dict V) k v : dict_get d k = Some v -> exists k', In (k', v) d.
Proof.
  induction d as [|[k0 v0] d IH]; simpl; [discriminate|].
  destruct (String.eqb k k0).
  - intros [= ->]. exists k0. now left.
  - intros H. destruct (IH H) as [k' Hk']. exists k'. now right.
Qed.

Lemma compute_bins_forall (P : _Bins.t -> Prop) binner X items : forall acc bins,
  (forall c n x b, In (c, n) items -> binner x n = inr b -> P b) ->
  compute_bins binner X items acc = inr bins ->
  Forall (fun cb => P (snd cb)) acc -> Forall (fun cb => P (snd cb)) bins.
Proof.
  induction items as [|[c n] items IH]; intros acc bins HP H Hacc; simpl in H.
  - now injection H as <-.
  - destruct (getcol X c) as [e|v]; [discriminate|]. cbn [bind] in H.
    destruct v as [x|l]; [|discriminate].
    destruct (binner x n) as [e|b] eqn:Eb; [discriminate|]. cbn [bind] in H.
    apply (IH _ _ (fun c' n' x' b' Hin => HP c' n' x' b' (or_intror Hin)) H).
    apply dict_set_forall; [assumption|]. simpl.
    apply (HP c n x b); [now left|assumption].
Qed.

Lemma compute_bins_numeric binner X items : forall acc bins,
  compute_bins binner X items acc = inr bins ->
  forall c, In c (keys items) -> exists x, getcol X c = inr (NumArr x).
Proof.
  induction items as [|[c n] items IH]; intros acc bins H c' Hc'; simpl in H.
  - destruct Hc'.
  - destruct (getcol X c) as [e|v] eqn:Ev; [discriminate|]. cbn [bind] in H.
    destruct v as [x|l]; [|discriminate].
    destruct (binner x n) as [e|b]; [discriminate|]. cbn [bind] in H.
    destruct Hc' as [<-|Hc']; [now exists x|]. now apply (IH _ _ H).
Qed.

(** Above one bin, the uniform strategy builds fitted objects. *)
Lemma uniform_fitted x n b : 1 < n -> _uniform x n = inr b -> fitted_Bins b.
Proof.
  intros Hn. unfold _uniform.
  destruct (_validate_n_bins x n) as [e|[unique cts]]; [discriminate|].
  cbn [bind]. intros Hb. exists (chunk unique (Z.to_nat n)).
  split; [rewrite chunk_length; lia|assumption].
Qed.

(** X15: the training table transforms without surprise.  After a [fit]
    with the uniform strategy that succeeded, [transform] of the very
    table it was fit on, asked for levels in new columns, returns, and
    every level it writes lies in [0, n_bins - 1] of its column: the
    finite values [fit] insists on cannot fall out of range. *)
Theorem X15_levels_of_the_training_table ebb X self self' :
  fit ebb X self = (inr tt, self') ->
  strategy self = "uniform"%string ->
  overwrite self = false -> return_bin_label self = false ->
  wf_frame X ->
  (forall c d fcols, fit_cols_ self' = Some fcols -> In c fcols -> In d fcols ->
                     c <> binned_name d) ->
  exists X' bins fcols,
    bins_ self' = Some bins /\ fit_cols_ self' = Some fcols /\
    transform self' X
      = inr (if as_df self' then DataFrame X' else Values (values X')) /\
    forall c, In c fcols ->
      exists b idx,
        dict_get bins c = Some b /\
        getcol X' (binned_name c) = inr (NumArr (map of_Z idx)) /\
        length idx = nrows X /\
        Forall (fun i => 0 <= i <= Z.of_nat (_Bins.n_bins b) - 1) idx.
Proof.
  intros Hfit Hs Hover Hlbl Hwf Hcoll.
  assert (Hfitted : fitted ebb self') by now exists X, self.
  pose proof Hfit as Hfit'. rewrite fit_unfold in Hfit'.
  unfold fit_state, check_dataframe in Hfit'.
  destruct (negb (forallb _ _)) eqn:Efin in Hfit'; [discriminate|].
  cbn [andb bind ret] in Hfit'.
  set (cols0 := match cols self with
                | Some c => c
                | None => keys (columns X)
                end) in *.
  destruct (n_bins_dict (n_bins self) cols0) as [e|d] eqn:Ed; [discriminate|].
  cbn [bind] in Hfit'.
  destruct (check_n_bins d) as [e|items] eqn:Ei; [discriminate|].
  cbn [bind] in Hfit'. rewrite Hs in Hfit'.
  cbn [_STRATEGIES dict_get String.eqb Ascii.eqb Bool.eqb bind ret] in Hfit'.
  destruct (compute_bins _uniform X items []) as [e|bins] eqn:Ec; [discriminate|].
  cbn [bind ret] in Hfit'. injection Hfit' as <-.
  cbn [overwrite return_bin_label with_fit_state fit_cols_ bins_ as_df] in *.
  (* every fit column is a column of finite numbers, with a fitted object *)
  assert (Hnum : forall c, In c cols0 ->
            exists x, getcol X c = inr (NumArr x) /\
                      Forall (fun v => is_nan v = false) x).
  { intros c Hc.
    destruct (compute_bins_numeric _ _ _ _ _ Ec c) as [x Hx].
    { rewrite (check_n_bins_keys _ _ Ei). now apply (n_bins_dict_keys _ _ _ Ed). }
    exists x. split; [assumption|].
    apply negb_false_iff in Efin. rewrite forallb_forall in Efin.
    specialize (Efin c Hc). apply getcol_dict_get in Hx. rewrite Hx in Efin.
    simpl in Efin. rewrite forallb_forall in Efin.
    apply Forall_forall. intros v Hv. now apply finite_not_nan, Efin. }
  assert (Hfb : Forall (fun cb => fitted_Bins (snd cb)) bins).
  { apply (compute_bins_forall fitted_Bins _ _ _ _ _ (fun c n x b Hin Hb =>
             uniform_fitted x n b (proj2 (check_n_bins_in _ _ _ _ Ei Hin)) Hb) Ec).
    constructor. }
  destruct (transform_appends ebb (with_fit_state self bins cols0) X Hfitted Hover Hwf)
    as (X' & bins' & fcols' & Hb' & Hc' & Ht & _ & _ & _ & _ & Hcols).
  { intros c fcols [= <-] Hc. destruct (Hnum c Hc) as (x & Hx & _). now exists x. }
  { exact Hcoll. }
  injection Hb' as <-. injection Hc' as <-.
  exists X', bins, cols0.
  split; [reflexivity|]. split; [reflexivity|]. split; [exact Ht|].
  intros c Hc. destruct (Hcols c Hc) as (_ & b & v & binned & Hb & Hv & Ha & Hshape & Hg).
  destruct (Hnum c Hc) as (x & Hx & Hnan). rewrite Hx in Hv. injection Hv as <-.
  cbn [return_bin_label with_fit_state] in Ha.
  rewrite Hlbl, assign_levels in Ha. injection Ha as <-.
  exists b, (map (level b) x). split; [assumption|]. split; [assumption|].
  split; [simpl in Hshape; rewrite !length_map in Hshape; now rewrite length_map|].
  assert (Hfitb : fitted_Bins b).
  { destruct (dict_get_In _ _ _ Hb) as [k Hk]. rewrite Forall_forall in Hfb.
    exact (Hfb _ Hk). }
  apply Forall_map. eapply Forall_impl; [|exact Hnan].
  intros v Hv. now apply level_in_range.
Qed.

(** X15 on the example. *)
Lemma X15_levels_of_the_training_table_witness :
  exists X' bins fcols,
    bins_ (snd (fit one_group_per_value X_train binner_by_position)) = Some bins /\
    fit_cols_ (snd (fit one_group_per_value X_train binner_by_position)) = Some fcols /\
    transform (snd (fit one_group_per_value X_train binner_by_position)) X_train
      = inr (if as_df (snd (fit one_group_per_value X_train binner_by_position))
             then DataFrame X' else Values (values X')) /\
    forall c, In c fcols ->
      exists b idx,
        dict_get bins c = Some b /\
        getcol X' (binned_name c) = inr (NumArr (map of_Z idx)) /\
        length idx = nrows X_train /\
        Forall (fun i => 0 <= i <= Z.of_nat (_Bins.n_bins b) - 1) idx.
Proof.
  apply (X15_levels_of_the_training_table one_group_per_value X_train
           binner_by_position).
  - reflexivity.
  - reflexivity.
  - reflexivity.
  - reflexivity.
  - repeat constructor.
  - intros c d fcols [= <-] [<-|[<-|[]]] [<-|[<-|[]]]; discriminate.
Defined.

(** ** The columns [transform] hands back *)

Section Overwrite.

Variables (self : t) (bins : dict _Bins.t) (fcols : list string) (X : frame).

Hypothesis overwrite_on : overwrite self = true.
Hypothesis bins_there :
  forall c, In c fcols -> exists b, dict_get bins c = Some b /\ is_Bins b.
Hypothesis X_wf : wf_frame X.
Hypothesis numeric :
  forall c, In c fcols -> exists x, getcol X c = inr (NumArr x).

Lemma transform_col_replaced done Xk col :
  In col fcols -> ~ In col done -> replaced self bins X done Xk ->
  exists X', transform_col self bins Xk col = inr X' /\
             replaced self bins X (col :: done) X'.
Proof.
  intros Hcol Hnew (Hrows & Hwf & Hkeys & Hkeep & Hdone).
  destruct (bins_there col Hcol) as (b & Hb & HB).
  destruct (numeric col Hcol) as (x & Hx).
  assert (Hxk : getcol Xk col = inr (NumArr x)).
  { apply getcol_dict_get. rewrite Hkeep by assumption. now apply getcol_dict_get. }
  destruct (assign_total b x (return_bin_label self) HB) as (binned & Hbinned & Hshape).
  assert (Hlen : length x = nrows X).
  { apply getcol_dict_get in Hx. exact (wf_frame_shape X col _ X_wf Hx). }
  exists (setcol Xk col binned). split.
  - unfold transform_col, dict_item. rewrite Hb. cbn [bind ret].
    rewrite Hxk. cbn [bind]. rewrite Hbinned. cbn [bind].
    now rewrite overwrite_on.
  - split; [exact Hrows|]. split; [|split; [|split]].
    + unfold wf_frame, setcol. cbn [columns nrows].
      apply dict_set_forall; [exact Hwf|]. simpl. congruence.
    + cbn [setcol columns]. rewrite dict_set_present; [assumption|].
      apply getcol_dict_get in Hxk. now apply dict_get_in_keys with (NumArr x).
    + intros k Hk. cbn [setcol columns].
      rewrite dict_get_set_other; [apply Hkeep|]; intros H; apply Hk;
        [now right|now left].
    + intros c [<-|Hc]; cbn [setcol columns].
      * exists binned. split; [|apply dict_get_set_same].
        unfold expected, dict_item. rewrite Hb. cbn [bind ret]. now rewrite Hx.
      * destruct (Hdone c Hc) as (binned' & H1 & H2).
        exists binned'. split; [assumption|].
        rewrite dict_get_set_other; [assumption|]. intros ->. now apply Hnew.
Qed.

Lemma transform_loop_replaced rest : forall done Xk,
  incl rest fcols -> NoDup (rest ++ done) -> replaced self bins X done Xk ->
  exists X', transform_loop self bins rest Xk = inr X' /\
             replaced self bins X (rev rest ++ done) X'.
Proof.
  induction rest as [|col rest IH]; intros done Xk Hrest Hnd Hinv.
  - exists Xk. now split.
  - assert (Hcol : In col fcols) by (apply Hrest; now left).
    simpl in Hnd. inversion Hnd as [|? ? Hnew Hnd']; subst.
    destruct (transform_col_replaced done Xk col Hcol) as (X1 & H1 & Hinv1).
    { intros H. apply Hnew. apply in_or_app. now right. }
    { assumption. }
    destruct (IH (col :: done) X1) as (X' & H' & Hinv').
    + intros c Hc. apply Hrest. now right.
    + apply (NoDup_Add (Add_app col rest done)). now split.
    + assumption.
    + exists X'. split.
      * simpl. rewrite H1. exact H'.
      * simpl. now rewrite <- app_assoc.
Qed.

End Overwrite.

Lemma validate_present fcols (X : frame) :
  (forall c, In c fcols -> exists x, getcol X c = inr (NumArr x)) ->
  validate_test_set_columns fcols (keys (columns X)) = inr tt.
Proof.
  induction fcols as [|c fcols IH]; intros Hnum; [reflexivity|].
  simpl. destruct (Hnum c (or_introl eq_refl)) as [x Hx].
  assert (E : existsb (String.eqb c) (keys (columns X)) = true).
  { apply existsb_exists. exists c. split; [|apply String.eqb_refl].
    apply getcol_dict_get in Hx. now apply dict_get_in_keys with (NumArr x). }
  rewrite E. apply IH. intros c' Hc'. apply Hnum. now right.
Qed.

(** X16: with [overwrite] on, a fitted estimator whose fit columns are
    all different, on a table that holds each of them as a column of
    numbers, returns a table with the very column names of its input, in
    the same order: every fit column holds what [assign] gives for its
    original values, and every other column is unchanged. *)
Theorem X16_transform_overwrites_in_place ebb (self : t) (X : frame) :
  fitted ebb self ->
  overwrite self = true ->
  wf_frame X ->
  (forall fcols, fit_cols_ self = Some fcols -> NoDup fcols) ->
  (forall c fcols, fit_cols_ self = Some fcols -> In c fcols ->
                   exists x, getcol X c = inr (NumArr x)) ->
  exists X' bins fcols,
    bins_ self = Some bins /\ fit_cols_ self = Some fcols /\
    transform self X
      = inr (if as_df self then DataFrame X' else Values (values X')) /\
    keys (columns X') = keys (columns X) /\ nrows X' = nrows X /\
    (forall k, ~ In k fcols -> dict_get (columns X') k = dict_get (columns X) k) /\
    (forall c, In c fcols ->
       exists b v binned,
         dict_get bins c = Some b /\ getcol X c = inr v /\
         _Bins.assign b v (return_bin_label self) = inr binned /\
         getcol X' c = inr binned).
Proof.
  intros Hfit Hover Hwf Hnd Hnum.
  destruct (fitted_bins _ _ Hfit) as (bins & fcols & Hb & Hc & Hbins).
  specialize (Hnd fcols Hc). specialize (fun c => Hnum c fcols Hc).
  destruct (transform_loop_replaced self bins fcols X Hover Hbins Hwf Hnum fcols [] X)
    as (X' & Hloop & Hrows & _ & Hkeys & Hkeep & Hdone).
  - apply incl_refl.
  - now rewrite app_nil_r.
  - split; [reflexivity|]. split; [assumption|]. split; [reflexivity|].
    split; [reflexivity|]. easy.
  - exists X', bins, fcols.
    split; [assumption|]. split; [assumption|]. split.
    { unfold transform, check_is_fitted, check_dataframe. rewrite Hb, Hc.
      cbn [andb bind ret]. rewrite (validate_present fcols X Hnum).
      cbn [bind]. rewrite Hloop. reflexivity. }
    split; [assumption|]. split; [assumption|]. split.
    + intros k Hk. apply Hkeep. rewrite app_nil_r. intros H. apply Hk.
      now apply in_rev.
    + intros c Hin. destruct (Hdone c) as (binned & Hexp & Hget).
      { rewrite app_nil_r. now apply in_rev in Hin. }
      destruct (Hbins c Hin) as (b & Hbc & _).
      destruct (Hnum c Hin) as (x & Hx).
      exists b, (NumArr x), binned.
      split; [assumption|]. split; [assumption|].
      unfold expected, dict_item in Hexp. rewrite Hbc, Hx in Hexp.
      cbn [bind ret] in Hexp. split; [assumption|].
      now apply getcol_dict_get.
Qed.

(** X16 on the example: [age] and [price] binned in place, to labels. *)
Lemma X16_transform_overwrites_in_place_witness :
  exists X' bins fcols,
    bins_ (snd (fit one_group_per_value X_train binner_in_place)) = Some bins /\
    fit_cols_ (snd (fit one_group_per_value X_train binner_in_place)) = Some fcols /\
    transform (snd (fit one_group_per_value X_train binner_in_place)) X_train
      = inr (if as_df (snd (fit one_group_per_value X_train binner_in_place))
             then DataFrame X' else Values (values X')) /\
    keys (columns X') = keys (columns X_train) /\ nrows X' = nrows X_train /\
    (forall k, ~ In k fcols ->
               dict_get (columns X') k = dict_get (columns X_train) k) /\
    (forall c, In c fcols ->
       exists b v binned,
         dict_get bins c = Some b /\ getcol X_train c = inr v /\
         _Bins.assign b v
           (return_bin_label (snd (fit one_group_per_value X_train binner_in_place)))
           = inr binned /\
         getcol X' c = inr binned).
Proof.
  apply (X16_transform_overwrites_in_place one_group_per_value).
  - exists X_train, binner_in_place. reflexivity.
  - reflexivity.
  - repeat constructor.
  - intros fcols [= <-]. repeat constructor; simpl; intuition discriminate.
  - intros c fcols [= <-] [<-|[<-|[]]]; eexists; reflexivity.
Defined.

Lemma transform_loop_keys self bins rest : forall Xk X',
  overwrite self = false ->
  transform_loop self bins rest Xk = inr X' ->
  NoDup rest ->
  (forall c, In c rest -> ~ In (binned_name c) (keys (columns Xk))) ->
  keys (columns X') = keys (columns Xk) ++ map binned_name rest.
Proof.
  induction rest as [|col rest IH]; intros Xk X' Hover H Hnd Hfresh; simpl in H.
  - injection H as <-. simpl. now rewrite app_nil_r.
  - destruct (transform_col self bins Xk col) as [e|X1] eqn:E1; [discriminate|].
    cbn [bind] in H. inversion Hnd as [|? ? Hcol Hnd']; subst.
    assert (Hk1 : keys (columns X1) = keys (columns Xk) ++ [binned_name col]).
    { unfold transform_col in E1.
      destruct (dict_item bins col) as [e|b]; [discriminate|]. cbn [bind] in E1.
      destruct (getcol Xk col) as [e|v]; [discriminate|]. cbn [bind] in E1.
      destruct (_Bins.assign b v (return_bin_label self)) as [e|binned];
        [discriminate|].
      cbn [bind] in E1. rewrite Hover in E1. injection E1 as <-.
      cbn [setcol columns]. rewrite dict_set_fresh by (apply Hfresh; now left).
      unfold keys. now rewrite map_app. }
    rewrite (IH X1 X' Hover H Hnd'), Hk1.
    + simpl. now rewrite <- app_assoc.
    + intros c Hc Hin. rewrite Hk1 in Hin.
      apply in_app_or in Hin as [Hin|[Heq|[]]].
      * apply (Hfresh c); [now right|assumption].
      * apply append_inv_suffix in Heq. subst c. now apply Hcol.
Qed.

(** X17: with [overwrite] off, the new columns go to the right of the
    table.  On a fitted estimator whose fit columns are all different,
    and a table that holds them as columns of numbers and none of their
    derived names, [transform] returns a table whose column names are
    those of its input, in order, followed by [c + "_binned"] for every
    fit column [c], in the order of [fit]. *)
Theorem X17_transform_appends_on_the_right ebb (self : t) (X : frame) :
  fitted ebb self ->
  overwrite self = false ->
  wf_frame X ->
  (forall fcols, fit_cols_ self = Some fcols -> NoDup fcols) ->
  (forall c fcols, fit_cols_ self = Some fcols -> In c fcols ->
                   exists x, getcol X c = inr (NumArr x)) ->
  (forall c fcols, fit_cols_ self = Some fcols -> In c fcols ->
                   ~ In (binned_name c) (keys (columns X))) ->
  exists X' fcols,
    fit_cols_ self = Some fcols /\
    transform self X
      = inr (if as_df self then DataFrame X' else Values (values X')) /\
    keys (columns X') = keys (columns X) ++ map binned_name fcols.
Proof.
  intros Hfit Hover Hwf Hnd Hnum Hfresh.
  destruct (fitted_bins _ _ Hfit) as (bins & fcols & Hb & Hc & Hbins).
  specialize (Hnd fcols Hc). specialize (fun c => Hnum c fcols Hc).
  specialize (fun c => Hfresh c fcols Hc).
  assert (Hcoll : forall c d, In c fcols -> In d fcols -> c <> binned_name d).
  { intros c d Hcin Hdin ->. apply (Hfresh d Hdin).
    destruct (Hnum _ Hcin) as [x Hx]. apply getcol_dict_get in Hx.
    now apply dict_get_in_keys with (NumArr x). }
  destruct (transform_loop_appended self bins fcols X Hover Hbins Hwf Hnum Hcoll
              fcols [] X) as (X' & Hloop & _).
  - apply incl_refl.
  - easy.
  - split; [reflexivity|]. split; [assumption|]. split; [reflexivity|]. easy.
  - exists X', fcols. split; [assumption|]. split.
    + unfold transform, check_is_fitted, check_dataframe. rewrite Hb, Hc.
      cbn [andb bind ret]. rewrite (validate_present fcols X Hnum).
      cbn [bind]. rewrite Hloop. reflexivity.
    + now apply (transform_loop_keys self bins fcols X X').
Qed.

(** X17 on the example: [age_binned] and [price_binned] after [age] and
    [price]. *)
Lemma X17_transform_appends_on_the_right_witness :
  exists X' fcols,
    fit_cols_ (snd (fit one_group_per_value X_train binner_by_position)) = Some fcols /\
    transform (snd (fit one_group_per_value X_train binner_by_position)) X_train
      = inr (if as_df (snd (fit one_group_per_value X_train binner_by_position))
             then DataFrame X' else Values (values X')) /\
    keys (columns X') = keys (columns X_train) ++ map binned_name fcols.
Proof.
  apply (X17_transform_appends_on_the_right one_group_per_value).
  - exists X_train, binner_by_position. reflexivity.
  - reflexivity.
  - repeat constructor.
  - intros fcols [= <-]. repeat constructor; simpl; intuition discriminate.
  - intros c fcols [= <-] [<-|[<-|[]]]; eexists; reflexivity.
  - intros c fcols [= <-] [<-|[<-|[]]]; simpl; intuition discriminate.
Defined.

(** ** The errors of [fit] on the example *)

(** X10 on the example: one count for two columns, as a sequence and as
    a dict, and an [n_bins] that is neither. *)
Lemma X10_fit_rejects_n_bins_of_wrong_shape_witness :
  fit one_group_per_value X_train binner_short_seq
    = (inl (ValueError "dim mismatch between cols and n_bin"), binner_short_seq) /\
  fit one_group_per_value X_train binner_short_dict
    = (inl (ValueError "dim mismatch between cols and n_bin"), binner_short_dict) /\
  fit one_group_per_value X_train binner_no_n_bins
    = (inl (TypeError "n_bins must be an iterable or an int"), binner_no_n_bins).
Proof.
  split; [|split].
  - apply (proj1 (X10_fit_rejects_n_bins_of_wrong_shape one_group_per_value
                    X_train X_train binner_short_seq ["age"; "price"]%string eq_refl))
      with (l := [VInt 3]); [reflexivity|discriminate].
  - apply (proj1 (proj2 (X10_fit_rejects_n_bins_of_wrong_shape one_group_per_value
                    X_train X_train binner_short_dict ["age"; "price"]%string eq_refl)))
      with (d := [("age"%string, VInt 3)]); [reflexivity|discriminate].
  - apply (proj2 (proj2 (X10_fit_rejects_n_bins_of_wrong_shape one_group_per_value
                    X_train X_train binner_no_n_bins ["age"; "price"]%string eq_refl))).
    reflexivity.
Defined.

(** X11 on the example: a count for [cost], none for [price]. *)
Lemma X11_fit_rejects_n_bins_with_other_keys_witness :
  fit one_group_per_value X_train binner_other_keys
    = (inl (ValueError "When n_bins is provided as a dictionary its keys must match the provided cols."),
       binner_other_keys).
Proof.
  apply (X11_fit_rejects_n_bins_with_other_keys one_group_per_value
           X_train X_train binner_other_keys ["age"; "price"]%string eq_refl
           [("age"%string, VInt 2); ("cost"%string, VInt 2)]).
  - reflexivity.
  - reflexivity.
  - left. exists "price"%string. split; [right; now left|].
    simpl. intros [H|[H|[]]]; discriminate H.
Defined.

(** X12 on the example: one bin for two columns raises; zero bins on a
    table without columns does not. *)
Lemma X12_fit_checks_every_n_bin_value_witness :
  fit one_group_per_value X_train binner_one_bin
    = (inl (ValueError "Each n_bin value must be an integer > 1"), binner_one_bin) /\
  fit one_group_per_value X_no_cols binner_all_cols
    = (inr tt, with_fit_state binner_all_cols [] []).
Proof.
  split.
  - apply (proj1 (proj2 (X12_fit_checks_every_n_bin_value one_group_per_value
                    X_train X_train binner_one_bin ["age"; "price"]%string eq_refl)))
      with (z := 1); [reflexivity|lia|discriminate].
  - apply (proj2 (proj2 (X12_fit_checks_every_n_bin_value one_group_per_value
                    X_no_cols X_no_cols binner_all_cols [] eq_refl)))
      with (z := 0) (binner := _uniform); reflexivity.
Defined.

(** X13 on the example: ["quantile"] is no strategy and is quoted in
    single quotes; ["it's"] is quoted in double quotes. *)
Lemma X13_fit_rejects_unknown_strategy_witness :
  fit one_group_per_value X_train binner_quantile
    = (inl (ValueError ("strategy must be one of "
                        ++ dquoted "['entropy', 'uniform']"
                        ++ ", but got 'quantile'")),
       binner_quantile) /\
  fit one_group_per_value X_train binner_its
    = (inl (ValueError ("strategy must be one of "
                        ++ dquoted "['entropy', 'uniform']"
                        ++ ", but got " ++ dquoted "it's")),
       binner_its).
Proof.
  split.
  - apply (proj1 (X13_fit_rejects_unknown_strategy one_group_per_value
             X_train X_train binner_quantile ["age"; "price"]%string eq_refl
             [("age"%string, 2); ("price"%string, 2)]
             eq_refl ltac:(discriminate) ltac:(discriminate) eq_refl)).
  - apply (proj1 (X13_fit_rejects_unknown_strategy one_group_per_value
             X_train X_train binner_its ["age"; "price"]%string eq_refl
             [("age"%string, 2); ("price"%string, 2)]
             eq_refl ltac:(discriminate) ltac:(discriminate) eq_refl)).
Defined.

(** ** The columns of the FitState *)

Lemma dict_fold_keys_sub {V} (pairs : list (string * V)) : forall (acc : dict V) k,
  In k (keys (fold_left (fun d kv => dict_set d (fst kv) (snd kv)) pairs acc)) ->
  In k (map fst pairs) \/ In k (keys acc).
Proof.
  induction pairs as [|[k0 v0] pairs IH]; intros acc k H; simpl in *.
  - now right.
  - destruct (IH _ _ H) as [Hin|Hin]; [left; now right|].
    destruct (String.eqb_spec k k0) as [->|Hne]; [left; now left|].
    right. apply in_keys_dict_get in Hin as [v Hv].
    rewrite dict_get_set_other in Hv by assumption.
    now apply dict_get_in_keys with v.
Qed.

Lemma n_bins_dict_keys_sub n cols d :
  n_bins_dict n cols = inr d -> forall k, In k (keys d) -> In k cols.
Proof.
  unfold n_bins_dict. destruct n as [z|l|d0|]; cbn [is_iterable]; try discriminate.
  - intros [= <-] k Hk. apply dict_fold_keys_sub in Hk as [Hk|[]].
    rewrite map_map in Hk. simpl in Hk. now rewrite map_id in Hk.
  - destruct (Nat.eqb (length l) (length cols)) eqn:E; [|discriminate].
    cbn [negb]. intros [= <-] k Hk. apply dict_fold_keys_sub in Hk as [Hk|[]].
    apply Nat.eqb_eq in E. now rewrite map_fst_combine in Hk.
  - destruct (negb _); [discriminate|].
    destruct (filter _ cols); [|discriminate].
    destruct (filter _ (keys d0)) eqn:E2; [|discriminate].
    intros [= <-] k Hk.
    destruct (existsb (String.eqb k) cols) eqn:E.
    + apply existsb_exists in E as (c & Hc & Heq).
      apply String.eqb_eq in Heq. now subst.
    + assert (H : In k (filter (fun k0 => negb (existsb (String.eqb k0) cols)) (keys d0))).
      { apply filter_In. split; [assumption|]. now rewrite E. }
      rewrite E2 in H. destruct H.
Qed.

Lemma compute_bins_keys_sub binner X items : forall acc bins,
  compute_bins binner X items acc = inr bins ->
  forall k, In k (keys bins) -> In k (keys items) \/ In k (keys acc).
Proof.
  induction items as [|[c n] items IH]; intros acc bins H k Hk; simpl in H.
  - injection H as <-. now right.
  - destruct (getcol X c) as [e|v]; [discriminate|]. cbn [bind] in H.
    destruct v as [x|l]; [|discriminate].
    destruct (binner x n) as [e|b]; [discriminate|]. cbn [bind] in H.
    destruct (IH _ _ H k Hk) as [Hin|Hin]; [left; now right|].
    destruct (String.eqb_spec k c) as [->|Hne]; [left; now left|].
    right. apply in_keys_dict_get in Hin as [v Hv].
    rewrite dict_get_set_other in Hv by assumption.
    now apply dict_get_in_keys with v.
Qed.

(** X18: after a [fit] that succeeded, [bins_] has an entry for every
    column of [fit_cols_] and for no other name, each entry an object the
    constructor built, with one bin at least: the lookup [bins[col]] of
    [transform] cannot miss. *)
Theorem X18_fit_state_columns ebb X self self' :
  fit ebb X self = (inr tt, self') ->
  exists bins fcols,
    bins_ self' = Some bins /\ fit_cols_ self' = Some fcols /\
    (forall c, In c fcols <-> In c (keys bins)) /\
    (forall c, In c fcols ->
       exists b, dict_item bins c = inr b /\ is_Bins b /\
                 (1 <= _Bins.n_bins b)%nat).
Proof.
  intros Hfit.
  assert (Hfitted : fitted ebb self') by now exists X, self.
  destruct (fitted_bins _ _ Hfitted) as (bins & fcols & Hb & Hc & Hbins).
  exists bins, fcols. split; [assumption|]. split; [assumption|]. split.
  - intros c. split.
    + intros Hin. destruct (Hbins c Hin) as (b & Hbc & _).
      now apply dict_get_in_keys with b.
    + intros Hin. rewrite fit_unfold in Hfit.
      unfold fit_state, check_dataframe in Hfit.
      destruct (true && _) in Hfit; [discriminate|]. cbn [bind ret] in Hfit.
      destruct (n_bins_dict _ _) as [e|d] eqn:Ed in Hfit; [discriminate|].
      cbn [bind] in Hfit.
      destruct (check_n_bins d) as [e|items] eqn:Ei; [discriminate|].
      cbn [bind] in Hfit.
      destruct (dict_get _ _) as [binner|] in Hfit; [|discriminate].
      cbn [bind ret] in Hfit.
      destruct (compute_bins binner X items []) as [e|bins0] eqn:Ec; [discriminate|].
      cbn [bind ret] in Hfit. injection Hfit as <-.
      cbn [bins_ fit_cols_ with_fit_state] in Hb, Hc.
      injection Hb as <-. injection Hc as <-.
      destruct (compute_bins_keys_sub _ _ _ _ _ Ec c Hin) as [Hk|[]].
      rewrite (check_n_bins_keys _ _ Ei) in Hk.
      now apply (n_bins_dict_keys_sub _ _ _ Ed).
  - intros c Hin. destruct (Hbins c Hin) as (b & Hbc & HB).
    exists b. unfold dict_item. rewrite Hbc. split; [reflexivity|].
    split; [assumption|]. exact (proj2 (is_Bins_reprs _ HB)).
Qed.

(** X18 on the example. *)
Lemma X18_fit_state_columns_witness :
  exists bins fcols,
    bins_ (snd (fit one_group_per_value X_train binner_by_position)) = Some bins /\
    fit_cols_ (snd (fit one_group_per_value X_train binner_by_position)) = Some fcols /\
    (forall c, In c fcols <-> In c (keys bins)) /\
    (forall c, In c fcols ->
       exists b, dict_item bins c = inr b /\ is_Bins b /\
                 (1 <= _Bins.n_bins b)%nat).
Proof.
  apply (X18_fit_state_columns one_group_per_value X_train binner_by_position).
  reflexivity.
Defined.

(** ** The uniform strategy on its training sample *)

Lemma runs_in l : forall y, In y (map fst (runs l)) -> In y l.
Proof.
  induction l as [|x l IH]; intros y Hy; [easy|].
  destruct l as [|z l].
  - simpl in Hy. destruct Hy as [<-|[]]. now left.
  - rewrite runs_cons in Hy. destruct (runs_hd z l) as (c & g & Hr).
    rewrite Hr in Hy, IH. destruct (num_ne z x).
    + destruct Hy as [<-|Hy]; [now left|right; now apply IH].
    + destruct Hy as [<-|Hy]; [now left|]. right. apply IH. now right.
Qed.

(** The first value of chunk [i] gets level [i]. *)
Lemma head_level chunks b i c :
  _Bins.__init__ chunks = inr b -> (2 <= length chunks)%nat ->
  nonempty_chunks chunks -> strictly_ascending chunks ->
  nth_error chunks i = Some c -> level b (hd NaN c) = Z.of_nat i.
Proof.
  intros Hinit H2 Hne Hasc Hc.
  pose proof (init_lengths _ _ Hinit) as (Hn & Hll & _).
  destruct (init_bounds _ _ H2 Hinit) as (hs & E & Hhs & _ & Hl & _).
  destruct chunks as [|c0 cs]; [simpl in H2; lia|].
  inversion Hne as [|? ? H0 Hcs]; subst.
  cbn [tl] in E. rewrite (first_elems_nonempty _ Hcs) in E.
  injection E as E.
  destruct (strictly_ascending_heads c0 cs H0 Hcs Hasc) as [HS Hnan].
  rewrite E in HS, Hnan.
  assert (Hfirst : Forall (lt (hd NaN c0)) hs).
  { destruct c0 as [|a t]; [easy|].
    apply Sorted_StronglySorted in Hasc; [|exact lt_transitive].
    simpl in Hasc. inversion Hasc as [|? ? _ HF]; subst.
    apply Forall_forall. intros h Hh. rewrite Forall_forall in HF.
    apply HF, in_or_app. right. now apply heads_in_concat. }
  assert (Hlarge : largest_index_ge (NInf :: hs) (hd NaN c) i /\
                   is_nan (hd NaN c) = false).
  { destruct i as [|k]; cbn [nth_error] in Hc.
    - injection Hc as <-.
      assert (Hcn : is_nan (hd NaN c0) = false).
      { destruct hs as [|h hs']; [easy|].
        inversion Hfirst as [|? ? Hh _]; subst.
        apply lt_le in Hh. now apply num_ge_not_nan in Hh. }
      split; [|exact Hcn]. split.
      + exists NInf. split; [reflexivity|]. now apply num_ge_ninf.
      + intros [|j] bj Hj Hbj; [lia|]. cbn [nth_error] in Hbj.
        apply lt_not_ge. rewrite Forall_forall in Hfirst.
        apply Hfirst. now apply nth_error_In with j.
    - assert (Hcut : nth_error hs k = Some (hd NaN c)).
      { rewrite <- E, nth_error_map, Hc. reflexivity. }
      assert (Hcn : is_nan (hd NaN c) = false).
      { rewrite Forall_forall in Hnan. apply Hnan. now apply nth_error_In with k. }
      split; [|exact Hcn]. split.
      + exists (hd NaN c). split; [exact Hcut|]. now apply num_ge_refl.
      + intros [|j] bj Hj Hbj; [lia|]. cbn [nth_error] in Hbj.
        apply lt_not_ge.
        apply (strongly_sorted_nth lt hs k j); [assumption|lia|assumption|assumption]. }
  destruct Hlarge as [Hlarge Hcn].
  destruct (level_largest b (hd NaN c)) as (i' & Hi' & Hlarge').
  - now rewrite Hn, Hll.
  - rewrite Hl. apply StronglySorted_Sorted. constructor.
    + now apply strongly_sorted_lt_le.
    + eapply Forall_impl; [|exact Hnan]. intros h Hh. now apply num_ge_ninf.
  - now rewrite Hl.
  - exact Hcn.
  - rewrite Hi'. f_equal. rewrite Hl in Hlarge'.
    now apply (largest_index_unique (NInf :: hs) (hd NaN c)).
Qed.

(** X19: on a sample without NaN, the uniform strategy asked for
    [n >= 2] bins either raises or builds exactly [n] bins, none of them
    empty on the sample: for every level [i] below [n] some value of the
    sample is assigned [i].  ([chunk] is the partition described with
    the collaborators.) *)
Theorem X19_uniform_fills_every_bin x n b :
  Forall (fun v => is_nan v = false) x -> 2 <= n ->
  _uniform x n = inr b ->
  _Bins.n_bins b = Z.to_nat n /\
  forall i, (i < _Bins.n_bins b)%nat ->
    exists v, In v x /\
      _Bins.assign b (NumArr [v]) false = inr (NumArr [of_Z (Z.of_nat i)]).
Proof.
  intros Hnan Hn. unfold _uniform, _validate_n_bins, np_unique.
  set (unique := map fst (runs (np_sort x))).
  destruct (Z.of_nat (length unique) <? n) eqn:E; [discriminate|].
  cbn [bind ret]. intros Hinit. apply Z.ltb_ge in E.
  set (chunks := chunk unique (Z.to_nat n)) in *.
  assert (Hlen : length chunks = Z.to_nat n) by apply chunk_length.
  assert (Hne : nonempty_chunks chunks) by (apply chunk_nonempty; lia).
  assert (Hcat : concat chunks = unique) by (apply concat_chunk; lia).
  assert (Hasc : strictly_ascending chunks).
  { unfold strictly_ascending. rewrite Hcat.
    apply runs_increasing, sorted_no_nan; [|apply np_sort_sorted].
    apply Forall_forall. intros y Hy. rewrite Forall_forall in Hnan.
    now apply Hnan, np_sort_in. }
  pose proof (init_lengths _ _ Hinit) as (Hnb & _).
  split; [congruence|]. intros i Hi.
  destruct (nth_error chunks i) as [c|] eqn:Ec;
    [|apply nth_error_None in Ec; lia].
  assert (Hc : c <> []).
  { unfold nonempty_chunks in Hne. rewrite Forall_forall in Hne.
    apply Hne. now apply nth_error_In with i. }
  exists (hd NaN c). split.
  - apply np_sort_in, runs_in. fold unique. rewrite <- Hcat.
    apply in_concat. exists c. split; [now apply nth_error_In with i|].
    destruct c; [easy|now left].
  - rewrite assign_levels. cbn [map].
    rewrite (head_level chunks b i c); [reflexivity|assumption|lia| | |]; assumption.
Qed.

(** X19 on the sample 0..9 cut in four. *)
Lemma X19_uniform_fills_every_bin_witness :
  _Bins.n_bins bins_0_9 = Z.to_nat 4 /\
  forall i, (i < _Bins.n_bins bins_0_9)%nat ->
    exists v, In v sample_0_9 /\
      _Bins.assign bins_0_9 (NumArr [v]) false = inr (NumArr [of_Z (Z.of_nat i)]).
Proof.
  apply (X19_uniform_fills_every_bin sample_0_9 4 bins_0_9).
  - repeat constructor.
  - lia.
  - reflexivity.
Defined.
